(** * Sentinel-2 colour converter (app.py): a shallow embedding

    The development follows [src/app.py], method by method:

    - [Partitioner]: [get_world_tiles], the two nested [while] loops that
      sweep the Web-Mercator square; [Grid] reads a finished sweep as lists
      of positions;
    - [Fetcher]: [fetch_tile_image], the bounded retry loop around
      [requests.post];
    - [Reducer]: [image_to_dominant_color], the per-cell channel means;
    - [Processor]: [authenticate] and [process_world_colors], the per-tile
      loop with its checkpoint file;
    - [Construction]: [__init__] and [main], with Python's name lookup;
    - [Payload]: [create_evalscript] and [create_request_payload];
    - [Trace]: what a log says about sleeps and requests;
    - [Nearest], [Decoding], [Examples] and [Scenarios]: small stand-ins
      for PIL and concrete inputs on which the definitions are run.

    Numbers.  Python [int]s are [Z].  Python [float]s are read as the exact
    rationals they denote ([Q]); binary64 rounding is not modelled.  The
    literal [-20037508.34] is [-2003750834 # 100].

    Effects.  Requests, sleeps and prints are logged in order in a [world]
    that also holds the files written; a computation returns, raises or
    never ends.  The remote services, the clock and PIL are parameters. *)

From Stdlib Require Import ZArith QArith Qabs Qminmax Qround Lqa Lia List.
From stdpp Require Import gmap strings list.

Local Open Scope Z_scope.

(** ** Comparisons on rationals, as booleans *)

Definition Qltb (a b : Q) : bool := negb (Qle_bool b a).

(** * get_world_tiles (app.py, lines 80-120) *)

Module Partitioner.

(** [tile['bounds']]: a dict with the four keys west, east, south, north. *)
Record Bounds : Type := mkBounds { west : Q; east : Q; south : Q; north : Q }.

(** One element of [tiles]: [{'id': tile_id, 'bounds': {...}}]. *)
Record Tile : Type := mkTile { id : Z; bounds : Bounds }.

Section Sweep.
(** The loops of lines 96-118 over the names they read.  In the source
    [world_bounds] is the literal of lines 85-90, both tile sizes are
    [resolution * 1000], and [polar y] is the test [abs(y) > 15000000];
    [get_world_tiles] below fixes them so. *)
Variable world_bounds : Bounds.
Variables tile_width tile_height : Q.
Variable polar : Q -> bool.

(** The dict appended at lines 107-115. *)
Definition make_tile (tile_id : Z) (x y : Q) : Tile :=
  {| id := tile_id;
     bounds := {| west := x;
                  east := Qmin (x + tile_width) (east world_bounds);
                  south := y;
                  north := Qmin (y + tile_height) (north world_bounds) |} |}.

(** [while y < world_bounds['north']: ...] (lines 101-117).  [fuel]
    bounds the number of iterations; [None] means it did not suffice.
    The state that survives the loop is [tile_id] and [tiles]. *)
Fixpoint inner_loop (fuel : nat) (x y : Q) (tile_id : Z) (tiles : list Tile)
  : option (Z * list Tile) :=
  if Qltb y (north world_bounds) then
    match fuel with
    | O => None
    | S fuel' =>
        if polar y then
          inner_loop fuel' x (y + tile_height) tile_id tiles
        else
          inner_loop fuel' x (y + tile_height) (tile_id + 1)
                     (tiles ++ [make_tile tile_id x y])
    end
  else Some (tile_id, tiles).

(** [while x < world_bounds['east']: ...] (lines 99-118).  Every run of
    the inner loop gets [fuel_y] iterations. *)
Fixpoint outer_loop (fuel_y fuel : nat) (x : Q) (tile_id : Z) (tiles : list Tile)
  : option (list Tile) :=
  if Qltb x (east world_bounds) then
    match fuel with
    | O => None
    | S fuel' =>
        match inner_loop fuel_y x (south world_bounds) tile_id tiles with
        | None => None
        | Some (tile_id', tiles') =>
            outer_loop fuel_y fuel' (x + tile_width) tile_id' tiles'
        end
    end
  else Some tiles.

(** Lines 96-120: [x = west; tile_id = 0; ...; return tiles]. *)
Definition sweep_tiles (fuel : nat) : option (list Tile) :=
  outer_loop fuel fuel (west world_bounds) 0 [].

(** Iterations of [while v < hi: v += step] started at [lo]. *)
Definition steps (lo hi step : Q) : nat :=
  Z.to_nat (Qceiling ((hi - lo) / step)).

Definition sweep_fuel : nat :=
  Nat.max (steps (west world_bounds) (east world_bounds) tile_width)
          (steps (south world_bounds) (north world_bounds) tile_height).
End Sweep.

(** Lines 85-90. *)
Definition world_bounds : Bounds :=
  {| west := -2003750834 # 100;
     east := 2003750834 # 100;
     south := -2003750834 # 100;
     north := 2003750834 # 100 |}.

(** Line 103: [abs(y) > 15000000]. *)
Definition polar_threshold : Q := 15000000.
Definition polar (y : Q) : bool := Qltb polar_threshold (Qabs y).

(** Line 93: [tile_width = tile_height = resolution * 1000]. *)
Definition tile_size (resolution : Q) : Q := resolution * 1000.

Definition get_world_tiles_fuel (fuel : nat) (resolution : Q) : option (list Tile) :=
  sweep_tiles world_bounds (tile_size resolution) (tile_size resolution) polar fuel.

(** [get_world_tiles(resolution)], with as many iterations as the two
    sweeps need when [resolution] is positive.  [None] stands for a run
    whose loops never end. *)
Definition get_world_tiles (resolution : Q) : option (list Tile) :=
  get_world_tiles_fuel
    (sweep_fuel world_bounds (tile_size resolution) (tile_size resolution))
    resolution.

End Partitioner.

(** ** Reading of a finished sweep

    The positions at which the loops stand, and the tiles they emit there,
    written as lists; the theorems relate the loops to them. *)

Module Grid.
Import Partitioner.

(** Values of the cursor of [while v < hi: ...; v += step] from [lo] on. *)
Fixpoint cursors (fuel : nat) (lo hi step : Q) : list Q :=
  if Qltb lo hi then
    match fuel with
    | O => []
    | S fuel' => lo :: cursors fuel' (lo + step) hi step
    end
  else [].

(** Tiles for a list of [(x, y)] positions, numbered from [tile_id]. *)
Fixpoint emit (wb : Bounds) (w h : Q) (tile_id : Z) (ps : list (Q * Q)) : list Tile :=
  match ps with
  | [] => []
  | (x, y) :: ps' => make_tile wb w h tile_id x y :: emit wb w h (tile_id + 1) ps'
  end.

(** Positions of one column that pass the guard of line 103. *)
Definition column (polar : Q -> bool) (ys : list Q) (x : Q) : list (Q * Q) :=
  List.map (fun y => (x, y)) (List.filter (fun y => negb (polar y)) ys).

(** All positions at which a tile is appended, in emission order. *)
Definition positions (polar : Q -> bool) (xs ys : list Q) : list (Q * Q) :=
  List.flat_map (column polar ys) xs.

(** A point lies in a rectangle; a shared edge belongs to the rectangle
    of which it is the lower bound. *)
Definition inside (b : Bounds) (px py : Q) : Prop :=
  (west b <= px /\ px < east b /\ south b <= py /\ py < north b)%Q.

(** Vertical centre of a rectangle. *)
Definition center_y (b : Bounds) : Q := (south b + north b) / 2.

(** Position [p] is strictly before [q]: a column further west, or the
    same column and a row further south. *)
Definition before (w h : Q) (p q : Q * Q) : Prop :=
  (fst p + w <= fst q \/ (fst p = fst q /\ snd p + h <= snd q))%Q.
End Grid.

(** * Python values, exceptions and effects *)

(** The values of names and attributes: [None], a string, or a module,
    class or function known by its name. *)
Inductive value : Type :=
| VNone
| VStr (s : string)
| VObject (name : string).

(** Exceptions raised on the paths modelled here. *)
Inductive exn : Type :=
| NameError (name : string)
| AttributeError (name : string)
| KeyError (key : string)
| ValueError
| ZeroDivisionError
| ConnectionError
| UnidentifiedImageError
| AuthenticationFailed (text : string).

(** How a computation ends: it returns, it raises, or it never ends. *)
Inductive result (A : Type) : Type :=
| Ok (a : A)
| Raise (e : exn)
| Diverge.
Arguments Ok {A} a.
Arguments Raise {A} e.
Arguments Diverge {A}.

(** [response] of [requests.post]: the fields the code reads. *)
Record response : Type := mkResponse {
  status_code : Z;
  content : list Byte.byte;
  text : string;
  json_access_token : option string
}.

(** A call of [requests.post] returns a response or raises. *)
Inductive reply : Type :=
| Reply (r : response)
| Fails (e : exn).

(** Lines written by [print], by the statement that writes them. *)
Inductive message : Type :=
| MsgAuthenticated
| MsgRateLimited (wait_time : Z)
| MsgErrorFetching (status : Z) (body : string)
| MsgRequestFailed (attempt : Z) (e : exn)
| MsgProcessing (total : nat)
| MsgTile (i : Z) (total : nat) (tile_id : Z)
| MsgProgressSaved (i : Z) (total : nat)
| MsgSaved (output_file : string)
| MsgTotal (total : nat)
| MsgSetCredentials
| MsgCompleted
| MsgErrorDuringProcessing (e : exn).

(** What the process does to the outside, in order. *)
Inductive event : Type :=
| AuthPost (client_id client_secret : value)
| ProcessPost (url : value) (authorization : value) (b : Partitioner.Bounds)
| Sleep (seconds : Z)
| Print (m : message).

(** PIL and NumPy as far as app.py uses them.  [None] stands for a call
    that raises. *)
Definition rgb : Type := (Z * Z * Z)%type.

Class PIL : Type := {
  Image : Type;
  Image_open : list Byte.byte -> option Image;
  Image_mode : Image -> string;
  Image_convert_RGB : Image -> Image;
  Image_resize_LANCZOS : Image -> Z -> Z -> option Image;
  np_array : Image -> list (list rgb)
}.

(** A channel value: a float that is a number, or [nan]. *)
Inductive float : Type :=
| Finite (q : Q)
| NaN.

(** [colors]: rows of cells, each cell a list of three channel values. *)
Definition ColorGrid : Type := list (list (list float)).

(** One element of [world_data["tiles"]] (lines 270-275). *)
Record TileResult : Type := mkTileResult {
  tr_id : Z;
  tr_bounds : Partitioner.Bounds;
  tr_colors : option ColorGrid;
  tr_has_data : bool
}.

(** [world_data] (lines 247-256). *)
Record Metadata : Type := mkMetadata {
  generated : string;
  resolution_km : Q;
  format : string;
  coordinate_system : string;
  description : string
}.

Record WorldData : Type := mkWorldData {
  metadata : Metadata;
  tiles : list TileResult
}.

(** The remote services: the [n]-th call of [requests.post] to the
    process API, the identity provider, and the clock. *)
Record Services : Type := mkServices {
  process_api : nat -> reply;
  identity_api : reply;
  now_isoformat : string
}.

(** The state the program changes: requests sent so far, what it did, and
    the JSON files on disk (a file holds the value dumped into it). *)
Record world : Type := mkWorld {
  requests_made : nat;
  log : list event;
  files : gmap string WorldData
}.

(** Computations that read and change the world and may raise. *)
Definition M (A : Type) : Type := world -> result A * world.

Definition ret {A} (a : A) : M A := fun w => (Ok a, w).
Definition raise {A} (e : exn) : M A := fun w => (Raise e, w).
Definition bind {A B} (m : M A) (k : A -> M B) : M B :=
  fun w => match m w with
           | (Ok a, w') => k a w'
           | (Raise e, w') => (Raise e, w')
           | (Diverge, w') => (Diverge, w')
           end.
(** [try: m except Exception as e: handler e]. *)
Definition try_except {A} (m : M A) (handler : exn -> M A) : M A :=
  fun w => match m w with
           | (Ok a, w') => (Ok a, w')
           | (Raise e, w') => handler e w'
           | (Diverge, w') => (Diverge, w')
           end.

Notation "x <- m ;; k" := (bind m (fun x => k))
  (at level 100, m at next level, right associativity).
Notation "m ;;; k" := (bind m (fun _ => k))
  (at level 100, right associativity).

Definition emit_event (e : event) : M unit :=
  fun w => (Ok tt, {| requests_made := requests_made w;
                      log := log w ++ [e];
                      files := files w |}).

Definition print (m : message) : M unit := emit_event (Print m).
Definition time_sleep (seconds : Z) : M unit := emit_event (Sleep seconds).

(** [self.name]: a missing attribute raises. *)
Definition getattr (self : gmap string value) (name : string) : M value :=
  match self !! name with
  | Some v => ret v
  | None => raise (AttributeError name)
  end.

(** [f"{v}"]. *)
Definition format_value (v : value) : string :=
  match v with
  | VNone => "None"
  | VStr s => s
  | VObject name => "<" +:+ name +:+ ">"
  end.

(** [range(n)]. *)
Definition range (n : Z) : list Z := List.map Z.of_nat (List.seq 0 (Z.to_nat n)).

(** * fetch_tile_image (app.py, lines 168-198) *)

Module Fetcher.
Section Fetch.
Context {pil : PIL}.
Variable services : Services.

(** [requests.post(self.process_url, headers=headers, json=payload,
    timeout=60)]: the request is logged and answered by the service. *)
Definition requests_post (url authorization : value) (b : Partitioner.Bounds) : M response :=
  fun w =>
    let w' := {| requests_made := S (requests_made w);
                 log := log w ++ [ProcessPost url authorization b];
                 files := files w |} in
    match process_api services (requests_made w) with
    | Reply r => (Ok r, w')
    | Fails e => (Raise e, w')
    end.

(** [Image.open(io.BytesIO(response.content))]. *)
Definition open_image (bytes : list Byte.byte) : M Image :=
  match Image_open bytes with
  | Some image => ret image
  | None => raise UnidentifiedImageError
  end.

(** The body of the [try] (lines 179-191); [None] means that the loop
    goes on with the next attempt, [Some image] that the function
    returns [image]. *)
Definition attempt_body (self : gmap string value) (authorization : value)
           (tile_bounds : Partitioner.Bounds) (attempt : Z) : M (option Image) :=
  url <- getattr self "process_url" ;;
  response <- requests_post url authorization tile_bounds ;;
  if status_code response =? 200 then
    image <- open_image (content response) ;;
    ret (Some image)
  else if status_code response =? 429 then
    let wait_time := 2 ^ attempt in
    print (MsgRateLimited wait_time) ;;;
    time_sleep wait_time ;;;
    ret None
  else
    print (MsgErrorFetching (status_code response) (text response)) ;;;
    ret None.

(** The [except Exception as e] clause (lines 193-196). *)
Definition attempt_handler (retries attempt : Z) (e : exn) : M (option Image) :=
  print (MsgRequestFailed (attempt + 1) e) ;;;
  (if attempt <? retries - 1 then time_sleep (2 ^ attempt) else ret tt) ;;;
  ret None.

(** [for attempt in range(retries): ...] followed by [return None]. *)
Fixpoint attempts_loop (self : gmap string value) (authorization : value)
         (tile_bounds : Partitioner.Bounds) (retries : Z) (attempts : list Z)
  : M (option Image) :=
  match attempts with
  | [] => ret None
  | attempt :: rest =>
      r <- try_except (attempt_body self authorization tile_bounds attempt)
                      (attempt_handler retries attempt) ;;
      match r with
      | Some image => ret (Some image)
      | None => attempts_loop self authorization tile_bounds retries rest
      end
  end.

(** [f'Bearer {self.access_token}'] (line 171). *)
Definition bearer (token : value) : value :=
  VStr ("Bearer " +:+ format_value token).

Definition fetch_tile_image (self : gmap string value)
           (tile_bounds : Partitioner.Bounds) (retries : Z) : M (option Image) :=
  token <- getattr self "access_token" ;;
  attempts_loop self (bearer token) tile_bounds retries (range retries).
End Fetch.

(** What one attempt answered with status 429 leaves in the log. *)
Definition rate_limited_attempt (url authorization : value) (b : Partitioner.Bounds)
           (attempt : Z) : list event :=
  [ProcessPost url authorization b; Print (MsgRateLimited (2 ^ attempt)); Sleep (2 ^ attempt)].
End Fetcher.

(** * image_to_dominant_color (app.py, lines 200-240) *)

Module Reducer.

(** [a // b]. *)
Definition floordiv (a b : Z) : result Z :=
  if b =? 0 then Raise ZeroDivisionError else Ok (a / b).

(** [l[start:stop]] for [0 <= start]; the indices of lines 221-224 are
    products of a loop index and a cell size, neither negative. *)
Definition slice {A : Type} (l : list A) (start stop : Z) : list A :=
  List.firstn (Z.to_nat (stop - start)) (List.skipn (Z.to_nat start) l).

(** [img_array.shape[0]] and [img_array.shape[1]]. *)
Definition shape0 (a : list (list rgb)) : Z := Z.of_nat (List.length a).
Definition shape1 (a : list (list rgb)) : Z :=
  match a with
  | [] => 0
  | row :: _ => Z.of_nat (List.length row)
  end.

(** [img_array[y_start:y_end, x_start:x_end]]. *)
Definition cell_of (img_array : list (list rgb)) (y_start y_end x_start x_end : Z)
  : list (list rgb) :=
  List.map (fun row => slice row x_start x_end) (slice img_array y_start y_end).

(** [cell.reshape(-1, 3)]: the pixels of the cell, row after row. *)
Definition reshape (cell : list (list rgb)) : list rgb := List.concat cell.

Definition red (p : rgb) : Z := fst (fst p).
Definition green (p : rgb) : Z := snd (fst p).
Definition blue (p : rgb) : Z := snd p.

Definition sum (xs : list Z) : Z := List.fold_right Z.add 0 xs.

(** [np.mean] of one column; [nan] for no rows. *)
Definition mean (xs : list Z) : float :=
  match xs with
  | [] => NaN
  | _ => Finite (inject_Z (sum xs) / inject_Z (Z.of_nat (List.length xs)))
  end.

(** [np.mean(pixels, axis=0)]. *)
Definition np_mean (pixels : list rgb) : float * float * float :=
  (mean (List.map red pixels), mean (List.map green pixels), mean (List.map blue pixels)).

(** Nearest integer, ties to the even one. *)
Definition round_half_even (q : Q) : Z :=
  let f := Qfloor q in
  match ((q - inject_Z f) ?= (1 # 2))%Q with
  | Lt => f
  | Gt => f + 1
  | Eq => if Z.even f then f else f + 1
  end.

(** [round(x / 255, 3)]. *)
Definition round3 (q : Q) : Q := round_half_even (q * 1000) # 1000.

Definition roblox_channel (m : float) : float :=
  match m with
  | Finite q => Finite (round3 (q / 255))
  | NaN => NaN
  end.

(** Lines 229-236. *)
Definition roblox_color (cell : list (list rgb)) : list float :=
  let mean_color := np_mean (reshape cell) in
  [roblox_channel (fst (fst mean_color));
   roblox_channel (snd (fst mean_color));
   roblox_channel (snd mean_color)].

(** Lines 217-238: the two [for] loops over [range(grid_size)]. *)
Definition color_rows (img_array : list (list rgb)) (grid_size cell_height cell_width : Z)
  : ColorGrid :=
  List.map (fun i =>
    List.map (fun j =>
      let y_start := i * cell_height in
      let y_end := (i + 1) * cell_height in
      let x_start := j * cell_width in
      let x_end := (j + 1) * cell_width in
      roblox_color (cell_of img_array y_start y_end x_start x_end))
      (range grid_size))
    (range grid_size).

Section Reduce.
Context {pil : PIL}.

(** Lines 206-207: [if image.mode != 'RGB': image = image.convert('RGB')]. *)
Definition as_RGB (image : Image) : Image :=
  if String.eqb (Image_mode image) "RGB" then image else Image_convert_RGB image.

Definition image_to_dominant_color (image : option Image) (grid_size : Z)
  : result (option ColorGrid) :=
  match image with
  | None => Ok None
  | Some image =>
      let image := as_RGB image in
      match Image_resize_LANCZOS image (grid_size * 16) (grid_size * 16) with
      | None => Raise ValueError
      | Some image =>
          let img_array := np_array image in
          match floordiv (shape0 img_array) grid_size with
          | Ok cell_height =>
              match floordiv (shape1 img_array) grid_size with
              | Ok cell_width =>
                  Ok (Some (color_rows img_array grid_size cell_height cell_width))
              | Raise e => Raise e
              | Diverge => Diverge
              end
          | Raise e => Raise e
          | Diverge => Diverge
          end
      end
  end.
End Reduce.

(** An array of [h] rows and [w] columns of 8-bit pixels. *)
Definition uint8 (c : Z) : Prop := 0 <= c <= 255.
Definition pixel_ok (p : rgb) : Prop := uint8 (red p) /\ uint8 (green p) /\ uint8 (blue p).
Definition has_shape (a : list (list rgb)) (h w : Z) : Prop :=
  Z.of_nat (List.length a) = h /\
  List.Forall (fun row => Z.of_nat (List.length row) = w /\ List.Forall pixel_ok row) a.

(** Every pixel of the array is [c]. *)
Definition uniform (c : rgb) (a : list (list rgb)) : Prop :=
  List.Forall (List.Forall (fun p => p = c)) a.

(** The two properties as tests. *)
Definition pixel_okb (p : rgb) : bool :=
  (0 <=? red p) && (red p <=? 255) && (0 <=? green p) && (green p <=? 255) &&
  (0 <=? blue p) && (blue p <=? 255).
Definition has_shapeb (a : list (list rgb)) (h w : Z) : bool :=
  (Z.of_nat (List.length a) =? h) &&
  List.forallb (fun row => (Z.of_nat (List.length row) =? w) && List.forallb pixel_okb row) a.
Definition rgb_eqb (p q : rgb) : bool :=
  (red p =? red q) && (green p =? green q) && (blue p =? blue q).
Definition uniformb (c : rgb) (a : list (list rgb)) : bool :=
  List.forallb (List.forallb (fun p => rgb_eqb p c)) a.

(** The colour of lines 232-236 for a cell that is [c] throughout. *)
Definition normalized (c : rgb) : list float :=
  [Finite (round3 (inject_Z (red c) / 255));
   Finite (round3 (inject_Z (green c) / 255));
   Finite (round3 (inject_Z (blue c) / 255))].

(** The channel value before rounding: the mean of [xs] divided by 255. *)
Definition exact_channel (xs : list Z) : Q :=
  inject_Z (sum xs) / inject_Z (Z.of_nat (List.length xs)) / 255.

(** The pixel in row [r] and column [c]. *)
Definition pixel_at (a : list (list rgb)) (r c : Z) : option rgb :=
  if (r <? 0) || (c <? 0) then None
  else match nth_error a (Z.to_nat r) with
       | Some row => nth_error row (Z.to_nat c)
       | None => None
       end.
End Reducer.

(** * authenticate and process_world_colors (app.py, lines 26-41, 242-299) *)

Module Processor.
Section Process.
Context {pil : PIL}.
Variable services : Services.

Definition lift {A : Type} (r : result A) : M A := fun w => (r, w).

(** [requests.post(auth_url, data=data)]. *)
Definition auth_post (client_id client_secret : value) : M response :=
  fun w =>
    let w' := {| requests_made := requests_made w;
                 log := log w ++ [AuthPost client_id client_secret];
                 files := files w |} in
    match identity_api services with
    | Reply r => (Ok r, w')
    | Fails e => (Raise e, w')
    end.

(** [authenticate]; the object with [access_token] set is returned. *)
Definition authenticate (self : gmap string value) : M (gmap string value) :=
  client_id <- getattr self "client_id" ;;
  client_secret <- getattr self "client_secret" ;;
  response <- auth_post client_id client_secret ;;
  if status_code response =? 200 then
    match json_access_token response with
    | Some token =>
        print MsgAuthenticated ;;;
        ret (<["access_token" := VStr token]> self)
    | None => raise (KeyError "access_token")
    end
  else raise (AuthenticationFailed (text response)).

(** Truth value of an attribute in [if not self.access_token]. *)
Definition truthy (v : value) : bool :=
  match v with
  | VNone => false
  | VStr s => negb (String.eqb s "")
  | VObject _ => true
  end.

(** [with open(name, 'w') as f: json.dump(world_data, f, indent=2)]. *)
Definition json_dump (name : string) (world_data : WorldData) : M unit :=
  fun w => (Ok tt, {| requests_made := requests_made w;
                      log := log w;
                      files := <[name := world_data]> (files w) |}).

(** [if os.path.exists(name): os.remove(name)]. *)
Definition remove_if_exists (name : string) : M unit :=
  fun w => match files w !! name with
           | Some _ => (Ok tt, {| requests_made := requests_made w;
                                  log := log w;
                                  files := delete name (files w) |})
           | None => (Ok tt, w)
           end.

(** [world_data["tiles"].append(tile_data)]. *)
Definition append_tile (world_data : WorldData) (tile_data : TileResult) : WorldData :=
  {| metadata := metadata world_data; tiles := tiles world_data ++ [tile_data] |}.

Definition temp_name (output_file : string) : string := "temp_" +:+ output_file.

(** The method [fetch_tile_image] that the loop calls; a parameter, so
    that a stand-in can take its place. *)
Variable fetch : gmap string value -> Partitioner.Bounds -> M (option Image).

(** [for i, tile in enumerate(tiles): ...] (lines 261-286), from index
    [i] on. *)
Fixpoint tiles_loop (self : gmap string value) (output_file : string) (total : nat)
         (i : Z) (rest : list Partitioner.Tile) (world_data : WorldData) : M WorldData :=
  match rest with
  | [] => ret world_data
  | tile :: rest' =>
      print (MsgTile (i + 1) total (Partitioner.id tile)) ;;;
      image <- fetch self (Partitioner.bounds tile) ;;
      colors <- lift (Reducer.image_to_dominant_color image 4) ;;
      let tile_data := {| tr_id := Partitioner.id tile;
                          tr_bounds := Partitioner.bounds tile;
                          tr_colors := colors;
                          tr_has_data := match colors with Some _ => true | None => false end |} in
      let world_data := append_tile world_data tile_data in
      (if (i + 1) mod 10 =? 0 then
         json_dump (temp_name output_file) world_data ;;;
         print (MsgProgressSaved (i + 1) total)
       else ret tt) ;;;
      time_sleep 1 ;;;
      tiles_loop self output_file total (i + 1) rest' world_data
  end.

(** Lines 244-245: [if not self.access_token: self.authenticate()]. *)
Definition ensure_token (self : gmap string value) : M (gmap string value) :=
  token <- getattr self "access_token" ;;
  if truthy token then ret self else authenticate self.

Definition process_world_colors_with (self : gmap string value)
           (output_file : string) (resolution : Q) : M WorldData :=
  self <- ensure_token self ;;
  let world_data :=
    {| metadata := {| generated := now_isoformat services;
                      resolution_km := resolution;
                      format := "roblox_color3";
                      coordinate_system := "EPSG:3857";
                      description := "World satellite imagery colors from Sentinel-2 cloudless" |};
       tiles := [] |} in
  tiles <- lift (match Partitioner.get_world_tiles resolution with
                 | Some tiles => Ok tiles
                 | None => Diverge
                 end) ;;
  print (MsgProcessing (List.length tiles)) ;;;
  world_data <- tiles_loop self output_file (List.length tiles) 0 tiles world_data ;;
  json_dump output_file world_data ;;;
  print (MsgSaved output_file) ;;;
  print (MsgTotal (List.length tiles)) ;;;
  remove_if_exists (temp_name output_file) ;;;
  ret world_data.
End Process.

(** [process_world_colors]: the loop calls [self.fetch_tile_image] with
    the default [retries=3]. *)
Definition process_world_colors {pil : PIL} (services : Services)
           (self : gmap string value) (output_file : string) (resolution : Q)
  : M WorldData :=
  process_world_colors_with services
    (fun self tile_bounds => Fetcher.fetch_tile_image services self tile_bounds 3)
    self output_file resolution.

(** The record appended for a tile without an image. *)
Definition absent_result (tile : Partitioner.Tile) : TileResult :=
  {| tr_id := Partitioner.id tile;
     tr_bounds := Partitioner.bounds tile;
     tr_colors := None;
     tr_has_data := false |}.

(** The record of lines 270-275 for a tile and the colours found for it. *)
Definition tile_data (tile : Partitioner.Tile) (colors : option ColorGrid) : TileResult :=
  {| tr_id := Partitioner.id tile;
     tr_bounds := Partitioner.bounds tile;
     tr_colors := colors;
     tr_has_data := match colors with Some _ => true | None => false end |}.

(** A record that belongs to a tile: same id and bounds, and [has_data]
    tells whether there are colours. *)
Definition result_for (tile : Partitioner.Tile) (r : TileResult) : Prop :=
  tr_id r = Partitioner.id tile /\
  tr_bounds r = Partitioner.bounds tile /\
  (tr_has_data r = true <-> tr_colors r <> None).

(** The number of results in the last checkpoint written once [n] tiles
    are done. *)
Definition checkpointed (n : Z) : Z := 10 * (n / 10).

(** The credential step of lines 244-245 goes through: a token is already
    there, or [authenticate] is called and the identity provider answers
    with status 200 and a token. *)
Definition credential_available (services : Services) (self : gmap string value) : Prop :=
  (exists token, self !! "access_token" = Some token /\ truthy token = true) \/
  (exists token client_id client_secret r new_token,
     self !! "access_token" = Some token /\ truthy token = false /\
     self !! "client_id" = Some client_id /\
     self !! "client_secret" = Some client_secret /\
     identity_api services = Reply r /\ status_code r = 200 /\
     json_access_token r = Some new_token).
End Processor.

(** * __init__ and main (app.py, lines 19-24, 301-334) *)

Module Construction.

(** Names bound at module level when a method runs: the imports of lines
    8-16, the class and [main], and the names every module has. *)
Definition module_globals : list string :=
  ["__name__"; "__doc__"; "__package__"; "__loader__"; "__spec__"; "__file__";
   "__builtins__"; "__cached__"; "__annotations__";
   "requests"; "json"; "np"; "Image"; "io"; "time"; "os"; "datetime"; "base64";
   "Sentinel2ColorConverter"; "main"].

(** Names of the [builtins] module. *)
Definition builtins : list string :=
  ["abs"; "aiter"; "all"; "anext"; "any"; "ascii"; "bin"; "bool"; "breakpoint";
   "bytearray"; "bytes"; "callable"; "chr"; "classmethod"; "compile"; "complex";
   "copyright"; "credits"; "delattr"; "dict"; "dir"; "divmod"; "enumerate"; "eval";
   "exec"; "exit"; "filter"; "float"; "format"; "frozenset"; "getattr"; "globals";
   "hasattr"; "hash"; "help"; "hex"; "id"; "input"; "int"; "isinstance";
   "issubclass"; "iter"; "len"; "license"; "list"; "locals"; "map"; "max";
   "memoryview"; "min"; "next"; "object"; "oct"; "open"; "ord"; "pow"; "print";
   "property"; "quit"; "range"; "repr"; "reversed"; "round"; "set"; "setattr";
   "slice"; "sorted"; "staticmethod"; "str"; "sum"; "super"; "tuple"; "type";
   "vars"; "zip"; "__import__"; "__build_class__"; "__debug__";
   "None"; "True"; "False"; "Ellipsis"; "NotImplemented";
   "BaseException"; "Exception"; "ArithmeticError"; "AssertionError";
   "AttributeError"; "BlockingIOError"; "BrokenPipeError"; "BufferError";
   "BytesWarning"; "ChildProcessError"; "ConnectionAbortedError"; "ConnectionError";
   "ConnectionRefusedError"; "ConnectionResetError"; "DeprecationWarning";
   "EOFError"; "EncodingWarning"; "EnvironmentError"; "FileExistsError";
   "FileNotFoundError"; "FloatingPointError"; "FutureWarning"; "GeneratorExit";
   "IOError"; "ImportError"; "ImportWarning"; "IndentationError"; "IndexError";
   "InterruptedError"; "IsADirectoryError"; "KeyError"; "KeyboardInterrupt";
   "LookupError"; "MemoryError"; "ModuleNotFoundError"; "NameError";
   "NotADirectoryError"; "NotImplementedError"; "OSError"; "OverflowError";
   "PendingDeprecationWarning"; "PermissionError"; "ProcessLookupError";
   "RecursionError"; "ReferenceError"; "ResourceWarning"; "RuntimeError";
   "RuntimeWarning"; "StopAsyncIteration"; "StopIteration"; "SyntaxError";
   "SyntaxWarning"; "SystemError"; "SystemExit"; "TabError"; "TimeoutError";
   "TypeError"; "UnboundLocalError"; "UnicodeDecodeError"; "UnicodeEncodeError";
   "UnicodeError"; "UnicodeTranslateError"; "UnicodeWarning"; "UserWarning";
   "ValueError"; "Warning"; "ZeroDivisionError";
   "BaseExceptionGroup"; "ExceptionGroup"].

Definition bound_in (names : list string) (name : string) : bool :=
  List.existsb (String.eqb name) names.

(** Evaluation of a bare name inside a function: the function's local
    names, then the module's globals, then the builtins. *)
Definition lookup_name (locals : gmap string value) (name : string) : M value :=
  match locals !! name with
  | Some v => ret v
  | None =>
      if bound_in module_globals name then ret (VObject name)
      else if bound_in builtins name then ret (VObject name)
      else raise (NameError name)
  end.

(** [Sentinel2ColorConverter(client_id, client_secret)]: [__init__] on a
    fresh object; its attributes after each assignment are threaded
    through. *)
Definition __init__ (client_id client_secret : value) : M (gmap string value) :=
  let self : gmap string value := ∅ in
  let locals : gmap string value :=
    {[ "self" := VObject "self";
       "client_id" := client_id;
       "client_secret" := client_secret ]} in
  v <- lookup_name locals "client_id" ;;
  let self := <["client_id" := v]> self in
  v <- lookup_name locals "client_secret" ;;
  let self := <["client_secret" := v]> self in
  let self := <["access_token" := VNone]> self in
  let self := <["base_url" := VStr "https://sh.dataspace.copernicus.eu"]> self in
  v <- lookup_name locals "base_url" ;;
  let self := <["process_url" := VStr (format_value v +:+ "/api/v1/process")]> self in
  ret self.

Section Main.
Context {pil : PIL}.
Variable services : Services.

(** [main()], over the two constants the user is told to replace
    (lines 305-306). *)
Definition main (CLIENT_ID CLIENT_SECRET : string) : M unit :=
  if String.eqb CLIENT_ID "your_client_id_here" then
    print MsgSetCredentials ;;;
    ret tt
  else
    converter <- __init__ (VStr CLIENT_ID) (VStr CLIENT_SECRET) ;;
    try_except
      (world_data <- Processor.process_world_colors services converter
                       "world_satellite_colors.json" 1000 ;;
       print MsgCompleted ;;;
       ret tt)
      (fun e => print (MsgErrorDuringProcessing e)).
End Main.
End Construction.

(** * A small stand-in for PIL

    Images are arrays of RGB pixels; resizing takes the nearest source
    pixel.  It serves to run the definitions on examples. *)

Module Nearest.
Definition pixels : Type := list (list rgb).

Definition pick {A : Type} (d : A) (l : list A) (n k : Z) : A :=
  List.nth (Z.to_nat (k * Z.of_nat (List.length l) / n)) l d.

(** An image has at least one row and no empty row. *)
Definition has_pixels (image : pixels) : bool :=
  negb (Nat.eqb (List.length image) 0) &&
  List.forallb (fun row => negb (Nat.eqb (List.length row) 0)) image.

Definition resize (image : pixels) (width height : Z) : option pixels :=
  if (width <? 1) || (height <? 1) || negb (has_pixels image) then None
  else
    Some (List.map (fun r =>
            List.map (fun c => pick (0, 0, 0) (pick [] image height r) width c)
                     (range width))
            (range height)).

#[export] Instance pil : PIL := {|
  Image := pixels;
  Image_open := fun _ => None;
  Image_mode := fun _ => "RGB";
  Image_convert_RGB := fun image => image;
  Image_resize_LANCZOS := resize;
  np_array := fun image => image
|}.
End Nearest.

(** * Concrete inputs for the examples *)

Module Examples.
(** A process API that answers every request with status 429. *)
Definition rate_limited : Services :=
  {| process_api := fun _ => Reply (mkResponse 429 [] "Too Many Requests" None);
     identity_api := Fails ConnectionError;
     now_isoformat := "2024-01-01T00:00:00" |}.

(** A converter object as [__init__] is meant to leave it, with a token. *)
Definition converter : gmap string value :=
  {[ "client_id" := VStr "id";
     "client_secret" := VStr "secret";
     "access_token" := VStr "token";
     "base_url" := VStr "https://sh.dataspace.copernicus.eu";
     "process_url" := VStr "https://sh.dataspace.copernicus.eu/api/v1/process" ]}.

(** Images for the reducer. *)
Definition two_by_two : Nearest.pixels :=
  [[(255, 0, 0); (0, 255, 0)]; [(0, 0, 255); (10, 20, 30)]].
Definition magenta : Nearest.pixels := [[(255, 0, 128)]].
Definition resized_of (image : Nearest.pixels) (grid_size : Z) : Nearest.pixels :=
  match Nearest.resize image (grid_size * 16) (grid_size * 16) with
  | Some resized => resized
  | None => []
  end.

(** A fetcher that has no image for any tile. *)
Definition no_image : gmap string value -> Partitioner.Bounds -> M (option Nearest.pixels) :=
  fun _ _ => ret None.

Definition fresh_world : world := {| requests_made := 0; log := []; files := ∅ |}.

Definition unit_square : Partitioner.Bounds :=
  {| Partitioner.west := 0; Partitioner.east := 1;
     Partitioner.south := 0; Partitioner.north := 1 |}.

(** The world of the end-to-end scenario: 20 units wide and high. *)
Definition small_world : Partitioner.Bounds :=
  {| Partitioner.west := -10; Partitioner.east := 10;
     Partitioner.south := -10; Partitioner.north := 10 |}.
End Examples.

(** * create_evalscript and create_request_payload (app.py, lines 43-78, 122-166) *)

Module Payload.
(** A Python value that [json=] can send: number, string, list or dict. *)
Local Unset Elimination Schemes.
Inductive json : Type :=
| JNum (q : Q)
| JStr (s : string)
| JList (items : list json)
| JDict (fields : list (string * json)).
Local Set Elimination Schemes.

(** The double quote and the line feed. *)
Definition dq : string :=
  String (Ascii.Ascii false true false false false true false false) EmptyString.
Definition nl : string :=
  String (Ascii.Ascii false true false true false false false false) EmptyString.

(** [create_evalscript] (lines 43-78): the text between the triple quotes,
    line by line. *)
Definition create_evalscript : string :=
  String.concat nl
    ["";
     "        //VERSION=3";
     "        function setup() {";
     "            return {";
     "                input: [{";
     ("                    bands: [" +:+ dq +:+ "B02" +:+ dq +:+ ", " +:+ dq +:+ "B03" +:+ dq +:+ ", " +:+ dq +:+ "B04" +:+ dq +:+ ", " +:+ dq +:+ "CLM" +:+ dq +:+ "],");
     ("                    units: " +:+ dq +:+ "DN" +:+ dq +:+ "");
     "                }],";
     "                output: {";
     "                    bands: 3,";
     ("                    sampleType: " +:+ dq +:+ "AUTO" +:+ dq +:+ "");
     "                }";
     "            };";
     "        }";
     "        ";
     "        function evaluatePixel(sample) {";
     "            // True color RGB";
     "            let r = sample.B04 / 10000;";
     "            let g = sample.B03 / 10000;";
     "            let b = sample.B02 / 10000;";
     "            ";
     "            // Apply gamma correction for better visual appearance";
     "            r = Math.pow(r * 3.5, 0.8);";
     "            g = Math.pow(g * 3.5, 0.8);";
     "            b = Math.pow(b * 3.5, 0.8);";
     "            ";
     "            // Clamp values";
     "            r = Math.min(1, Math.max(0, r));";
     "            g = Math.min(1, Math.max(0, g));";
     "            b = Math.min(1, Math.max(0, b));";
     "            ";
     "            return [r, g, b];";
     "        }";
     "        "]%string.

(** [create_request_payload(bounds, width, height)]; [bounds] is read at
    its four keys. *)
Definition create_request_payload (bounds : Partitioner.Bounds) (width height : Z) : json :=
  JDict
    [("input", JDict
       [("bounds", JDict
          [("geometry", JDict
             [("type", JStr "Polygon");
              ("coordinates", JList [JList
                 [JList [JNum (Partitioner.west bounds); JNum (Partitioner.south bounds)];
                  JList [JNum (Partitioner.east bounds); JNum (Partitioner.south bounds)];
                  JList [JNum (Partitioner.east bounds); JNum (Partitioner.north bounds)];
                  JList [JNum (Partitioner.west bounds); JNum (Partitioner.north bounds)];
                  JList [JNum (Partitioner.west bounds); JNum (Partitioner.south bounds)]]])]);
           ("properties", JDict
             [("crs", JStr "http://www.opengis.net/def/crs/EPSG/0/3857")])]);
        ("data", JList [JDict
          [("type", JStr "sentinel-2-l2a");
           ("dataFilter", JDict
             [("timeRange", JDict
                [("from", JStr "2023-01-01T00:00:00Z");
                 ("to", JStr "2023-12-31T23:59:59Z")]);
              ("maxCloudCoverage", JNum 10)]);
           ("processing", JDict
             [("atmosphericCorrection", JStr "SURFACE_REFLECTANCE")])]])]);
     ("output", JDict
       [("width", JNum (inject_Z width));
        ("height", JNum (inject_Z height));
        ("responses", JList [JDict
          [("identifier", JStr "default");
           ("format", JDict [("type", JStr "image/png")])]])]);
     ("evalscript", JStr create_evalscript)].

(** [d[key]] and [l[i]]; [None] where Python raises. *)
Definition get (key : string) (j : json) : option json :=
  match j with
  | JDict fields =>
      match List.find (fun kv => String.eqb (fst kv) key) fields with
      | Some kv => Some (snd kv)
      | None => None
      end
  | _ => None
  end.

Definition item (i : nat) (j : json) : option json :=
  match j with
  | JList items => nth_error items i
  | _ => None
  end.

(** A position [[x, y]]. *)
Definition position (j : json) : option (Q * Q) :=
  match j with
  | JList [JNum x; JNum y] => Some (x, y)
  | _ => None
  end.

Fixpoint positions (items : list json) : option (list (Q * Q)) :=
  match items with
  | [] => Some []
  | j :: rest =>
      match position j, positions rest with
      | Some p, Some ps => Some (p :: ps)
      | _, _ => None
      end
  end.

(** The outer ring of the polygon:
    [payload["input"]["bounds"]["geometry"]["coordinates"][0]]. *)
Definition outer_ring (payload : json) : option (list (Q * Q)) :=
  match get "input" payload with
  | Some input =>
      match get "bounds" input with
      | Some bounds =>
          match get "geometry" bounds with
          | Some geometry =>
              match get "coordinates" geometry with
              | Some coordinates =>
                  match item 0 coordinates with
                  | Some (JList ring) => positions ring
                  | _ => None
                  end
              | None => None
              end
          | None => None
          end
      | None => None
      end
  | None => None
  end.

(** Twice the signed area enclosed by a ring (positive when the ring runs
    counter-clockwise). *)
Fixpoint shoelace (ring : list (Q * Q)) : Q :=
  match ring with
  | p :: (q :: _) as rest => (fst p * snd q - fst q * snd p + shoelace rest)%Q
  | _ => 0%Q
  end.
End Payload.

(** * Reading a log *)

Module Trace.
(** The durations of the sleeps, in order. *)
Definition sleeps (l : list event) : list Z :=
  List.flat_map (fun e => match e with Sleep seconds => [seconds] | _ => [] end) l.

(** The number of requests to the process API. *)
Definition process_posts (l : list event) : nat :=
  List.length (List.filter (fun e => match e with ProcessPost _ _ _ => true | _ => false end) l).

(** The number of requests to the identity provider. *)
Definition auth_posts (l : list event) : nat :=
  List.length (List.filter (fun e => match e with AuthPost _ _ => true | _ => false end) l).

Definition total (xs : list Z) : Z := List.fold_right Z.add 0 xs.
End Trace.

(** * A stand-in for PIL that opens images

    The first three bytes of the content are the one pixel of the image;
    resizing is that of [Nearest]. *)

Module Decoding.
Definition open (bytes : list Byte.byte) : option Nearest.pixels :=
  match bytes with
  | r :: g :: b :: _ =>
      Some [[(Z.of_N (Byte.to_N r), Z.of_N (Byte.to_N g), Z.of_N (Byte.to_N b))]]
  | _ => None
  end.

Definition pil : PIL := {|
  Image := Nearest.pixels;
  Image_open := open;
  Image_mode := fun _ => "RGB";
  Image_convert_RGB := fun image => image;
  Image_resize_LANCZOS := Nearest.resize;
  np_array := fun image => image
|}.
End Decoding.

(** * Further services for the examples *)

Module Scenarios.
(** Every request to the process API fails in transport. *)
Definition unreachable : Services :=
  {| process_api := fun _ => Fails ConnectionError;
     identity_api := Fails ConnectionError;
     now_isoformat := "2024-01-01T00:00:00" |}.

(** Every request is answered with status 500. *)
Definition server_error : Services :=
  {| process_api := fun _ => Reply (mkResponse 500 [] "Internal Server Error" None);
     identity_api := Fails ConnectionError;
     now_isoformat := "2024-01-01T00:00:00" |}.

(** The first [k] requests are answered with 429, the later ones with a
    one-pixel image. *)
Definition busy_then_ok (k : nat) : Services :=
  {| process_api := fun n =>
       if (n <? k)%nat then Reply (mkResponse 429 [] "Too Many Requests" None)
       else Reply (mkResponse 200 [Byte.xff; Byte.x00; Byte.x80] "" None);
     identity_api := Fails ConnectionError;
     now_isoformat := "2024-01-01T00:00:00" |}.

(** An identity provider that refuses the credentials. *)
Definition refused : Services :=
  {| process_api := fun _ => Fails ConnectionError;
     identity_api := Reply (mkResponse 401 [] "invalid_client" None);
     now_isoformat := "2024-01-01T00:00:00" |}.

(** An identity provider that grants a token. *)
Definition granting : Services :=
  {| process_api := fun _ => Reply (mkResponse 500 [] "Internal Server Error" None);
     identity_api := Reply (mkResponse 200 [] "" (Some "granted"));
     now_isoformat := "2024-01-01T00:00:00" |}.

(** A converter object without a token yet. *)
Definition anonymous : gmap string value :=
  {[ "client_id" := VStr "id";
     "client_secret" := VStr "secret";
     "access_token" := VNone;
     "base_url" := VStr "https://sh.dataspace.copernicus.eu";
     "process_url" := VStr "https://sh.dataspace.copernicus.eu/api/v1/process" ]}.

(** The tiles of the default resolution. *)
Definition tiles_5000 : list Partitioner.Tile :=
  match Partitioner.get_world_tiles 5000 with
  | Some generated => generated
  | None => []
  end.

Definition metadata_5000 : Metadata :=
  {| generated := "2024-01-01T00:00:00";
     resolution_km := 5000;
     format := "roblox_color3";
     coordinate_system := "EPSG:3857";
     description := "World satellite imagery colors from Sentinel-2 cloudless" |}.
End Scenarios.

(** * Theorems *)

Lemma Qltb_lt a b : Qltb a b = true <-> (a < b)%Q.
Proof.
  unfold Qltb. rewrite negb_true_iff, <- not_true_iff_false, Qle_bool_iff.
  split; [apply Qnot_le_lt | apply Qlt_not_le].
Qed.

Lemma Qltb_ge a b : Qltb a b = false <-> (b <= a)%Q.
Proof.
  unfold Qltb. rewrite negb_false_iff. apply Qle_bool_iff.
Qed.


(** ** The sweep of one axis *)

Section Cursors.
Import Partitioner Grid.
Local Open Scope Q_scope.

Variables (hi step : Q).
Hypothesis step_pos : 0 < step.

Lemma steps_zero lo : hi <= lo -> steps lo hi step = O.
Proof.
  intros Hle. unfold steps.
  assert (Hq : (hi - lo) / step <= 0).
  { apply Qle_shift_div_r; [exact step_pos | lra]. }
  apply Qceiling_resp_le in Hq. change 0 with (inject_Z 0) in Hq.
  rewrite Qceiling_Z in Hq. lia.
Qed.

Lemma steps_succ lo :
  lo < hi -> (S (steps (lo + step) hi step) <= steps lo hi step)%nat.
Proof.
  intros Hlt. unfold steps.
  set (q := (hi - lo) / step).
  assert (Hq' : (hi - (lo + step)) / step == q - 1).
  { unfold q. field. lra. }
  rewrite (Qceiling_comp _ _ Hq').
  assert (Hpos : 0 < q).
  { unfold q. apply Qlt_shift_div_l; [exact step_pos | lra]. }
  clearbody q.
  pose proof (Qle_ceiling q) as Hup.
  pose proof (Qceiling_lt (q - 1)) as Hlow.
  assert (Hz : (Qceiling (q - 1) < Qceiling q)%Z).
  { rewrite Zlt_Qlt.
    replace (Qceiling (q - 1) - 1)%Z with (Qceiling (q - 1) + -1)%Z in Hlow by lia.
    rewrite inject_Z_plus in Hlow. change (inject_Z (-1)) with (-1 # 1) in Hlow. lra. }
  assert (Hz0 : (0 < Qceiling q)%Z).
  { rewrite Zlt_Qlt. change (inject_Z 0) with 0. lra. }
  lia.
Qed.

Lemma cursors_bounds fuel lo c :
  In c (cursors fuel lo hi step) -> lo <= c /\ c < hi.
Proof.
  revert lo. induction fuel as [|fuel IH]; intros lo; simpl;
    destruct (Qltb lo hi) eqn:Hc; simpl; try tauto.
  apply Qltb_lt in Hc. intros [<- | Hin]; [lra |].
  apply IH in Hin. lra.
Qed.

(** Later cursors stand at least one step further. *)
Lemma cursors_tail fuel lo c :
  In c (cursors fuel (lo + step) hi step) -> lo + step <= c.
Proof. intros Hin. apply cursors_bounds in Hin. tauto. Qed.

Lemma cursors_cover fuel lo p :
  (steps lo hi step <= fuel)%nat -> lo <= p -> p < hi ->
  exists c, In c (cursors fuel lo hi step) /\ c <= p /\ p < Qmin (c + step) hi.
Proof.
  revert lo. induction fuel as [|fuel IH]; intros lo Hfuel Hlo Hhi.
  - assert (Hlt : lo < hi) by lra.
    pose proof (steps_succ lo Hlt). lia.
  - simpl. assert (Hlt : lo < hi) by lra.
    rewrite (proj2 (Qltb_lt lo hi) Hlt).
    destruct (Qlt_le_dec p (lo + step)) as [Hp | Hp].
    + exists lo. split; [now left |]. split; [exact Hlo |].
      destruct (Q.min_spec (lo + step) hi) as [[_ ->] | [_ ->]]; lra.
    + pose proof (steps_succ lo Hlt).
      destruct (IH (lo + step)) as (c & Hin & Hc); [lia | exact Hp | exact Hhi |].
      exists c. split; [now right | exact Hc].
Qed.

Lemma cursors_sorted fuel lo :
  ForallOrdPairs (fun c c' => c + step <= c') (cursors fuel lo hi step).
Proof.
  revert lo. induction fuel as [|fuel IH]; intros lo; simpl;
    destruct (Qltb lo hi); try constructor.
  - apply List.Forall_forall. intros c Hin. now apply cursors_tail in Hin.
  - apply IH.
Qed.
End Cursors.

(** ** Lists whose earlier elements are related to the later ones *)

Section OrdPairs.
Context {A B : Type}.

Lemma FOP_app (R : A -> A -> Prop) (l1 l2 : list A) :
  ForallOrdPairs R l1 -> ForallOrdPairs R l2 ->
  (forall a b, In a l1 -> In b l2 -> R a b) ->
  ForallOrdPairs R (l1 ++ l2).
Proof.
  induction 1 as [|a l1 Ha _ IH]; intros H2 Hcross; simpl; [exact H2 |].
  constructor.
  - apply List.Forall_app. split; [exact Ha |].
    apply List.Forall_forall. intros b Hb. apply Hcross; [now left | exact Hb].
  - apply IH; [exact H2 |]. intros a' b Ha' Hb. apply Hcross; [now right | exact Hb].
Qed.

Lemma FOP_filter (R : A -> A -> Prop) (f : A -> bool) (l : list A) :
  ForallOrdPairs R l -> ForallOrdPairs R (List.filter f l).
Proof.
  induction 1 as [|a l Ha _ IH]; simpl; [constructor |].
  destruct (f a); [| exact IH].
  constructor; [| exact IH].
  apply List.Forall_forall. intros b Hb. apply List.filter_In in Hb.
  rewrite List.Forall_forall in Ha. apply Ha. tauto.
Qed.

Lemma FOP_map (R : B -> B -> Prop) (g : A -> B) (l : list A) :
  ForallOrdPairs (fun a a' => R (g a) (g a')) l -> ForallOrdPairs R (List.map g l).
Proof.
  induction 1 as [|a l Ha _ IH]; simpl; constructor; [| exact IH].
  apply List.Forall_forall. intros b Hb. apply List.in_map_iff in Hb.
  destruct Hb as (a' & <- & Ha'). rewrite List.Forall_forall in Ha. now apply Ha.
Qed.

Lemma FOP_nth (R : A -> A -> Prop) (l : list A) (i j : nat) (a b : A) :
  ForallOrdPairs R l -> (i < j)%nat ->
  nth_error l i = Some a -> nth_error l j = Some b -> R a b.
Proof.
  intros H. revert i j. induction H as [|c l Hc _ IH]; intros i j Hij Hi Hj.
  - destruct i; discriminate.
  - destruct j as [|j]; [lia |]. simpl in Hj. destruct i as [|i]; simpl in Hi.
    + injection Hi as ->. rewrite List.Forall_forall in Hc.
      apply Hc. eapply nth_error_In; exact Hj.
    + apply (IH i j); [lia | exact Hi | exact Hj].
Qed.
End OrdPairs.

(** ** Numbering the tiles *)

Section Emit.
Import Partitioner Grid.
Local Open Scope Q_scope.

Variable wb : Bounds.
Variables w h : Q.

Lemma emit_app tile_id ps qs :
  emit wb w h tile_id (ps ++ qs) =
  emit wb w h tile_id ps ++ emit wb w h (tile_id + Z.of_nat (List.length ps)) qs.
Proof.
  revert tile_id. induction ps as [|[x y] ps IH]; intros tile_id; simpl.
  - now rewrite Z.add_0_r.
  - rewrite IH. do 3 f_equal. lia.
Qed.

Lemma emit_nth tile_id ps i :
  nth_error (emit wb w h tile_id ps) i =
  option_map (fun p => make_tile wb w h (tile_id + Z.of_nat i) (fst p) (snd p))
             (nth_error ps i).
Proof.
  revert tile_id i. induction ps as [|[x y] ps IH]; intros tile_id i.
  - now destruct i.
  - destruct i as [|i]; simpl.
    + now rewrite Z.add_0_r.
    + rewrite IH. destruct (nth_error ps i); simpl; [| reflexivity].
      do 2 f_equal. lia.
Qed.

Lemma emit_In tile_id ps t :
  In t (emit wb w h tile_id ps) ->
  exists k x y, In (x, y) ps /\ t = make_tile wb w h k x y.
Proof.
  revert tile_id. induction ps as [|[x y] ps IH]; intros tile_id; simpl; [tauto |].
  intros [<- | Hin].
  - exists tile_id, x, y. split; [now left | reflexivity].
  - destruct (IH _ Hin) as (k & x' & y' & Hp & ->).
    exists k, x', y'. split; [now right | reflexivity].
Qed.

Lemma In_emit tile_id ps x y :
  In (x, y) ps -> exists k, In (make_tile wb w h k x y) (emit wb w h tile_id ps).
Proof.
  revert tile_id. induction ps as [|[x' y'] ps IH]; intros tile_id; simpl; [tauto |].
  intros [Heq | Hin].
  - injection Heq as -> ->. exists tile_id. now left.
  - destruct (IH (tile_id + 1)%Z Hin) as (k & Hk). exists k. now right.
Qed.

End Emit.

(** ** The loops against the lists of positions *)

Section Loops.
Import Partitioner Grid.
Local Open Scope Q_scope.

Variable wb : Bounds.
Variables w h : Q.
Variable skip : Q -> bool.

(** With enough iterations the inner loop appends the tiles of one
    column and leaves [tile_id] advanced by their number. *)
Lemma inner_loop_spec (Hh : 0 < h) fuel x y tile_id tiles :
  (steps y (north wb) h <= fuel)%nat ->
  let col := column skip (cursors fuel y (north wb) h) x in
  inner_loop wb w h skip fuel x y tile_id tiles =
  Some ((tile_id + Z.of_nat (List.length col))%Z, tiles ++ emit wb w h tile_id col).
Proof.
  revert y tile_id tiles. induction fuel as [|fuel IH]; intros y tile_id tiles Hfuel; simpl.
  - destruct (Qltb y (north wb)) eqn:Hc.
    + apply Qltb_lt in Hc. pose proof (steps_succ _ _ Hh y Hc). lia.
    + unfold column. simpl. now rewrite Z.add_0_r, app_nil_r.
  - destruct (Qltb y (north wb)) eqn:Hc.
    + apply Qltb_lt in Hc. pose proof (steps_succ _ _ Hh y Hc) as Hs.
      unfold column. simpl. destruct (skip y) eqn:Hp; simpl.
      * apply IH. lia.
      * rewrite IH by lia. unfold column. rewrite <- app_assoc. simpl.
        do 2 f_equal. lia.
    + unfold column. simpl. now rewrite Z.add_0_r, app_nil_r.
Qed.

(** One iteration at a position that fails the guard. *)
Lemma inner_loop_skip fuel x y tile_id tiles :
  y < north wb -> skip y = true ->
  inner_loop wb w h skip (S fuel) x y tile_id tiles =
  inner_loop wb w h skip fuel x (y + h) tile_id tiles.
Proof.
  intros Hy Hs. simpl. now rewrite (proj2 (Qltb_lt _ _) Hy), Hs.
Qed.

Lemma outer_loop_spec (Hw : 0 < w) (Hh : 0 < h) fuel_y fuel x tile_id tiles :
  (steps (south wb) (north wb) h <= fuel_y)%nat ->
  (steps x (east wb) w <= fuel)%nat ->
  outer_loop wb w h skip fuel_y fuel x tile_id tiles =
  Some (tiles ++ emit wb w h tile_id
          (positions skip (cursors fuel x (east wb) w)
                     (cursors fuel_y (south wb) (north wb) h))).
Proof.
  intros Hy. revert x tile_id tiles.
  induction fuel as [|fuel IH]; intros x tile_id tiles Hfuel; simpl.
  - destruct (Qltb x (east wb)) eqn:Hc.
    + apply Qltb_lt in Hc. pose proof (steps_succ _ _ Hw x Hc). lia.
    + simpl. now rewrite app_nil_r.
  - destruct (Qltb x (east wb)) eqn:Hc.
    + apply Qltb_lt in Hc. pose proof (steps_succ _ _ Hw x Hc) as Hs.
      rewrite (inner_loop_spec Hh fuel_y x (south wb) tile_id tiles Hy).
      rewrite IH by lia. unfold positions. simpl.
      now rewrite emit_app, app_assoc.
    + simpl. now rewrite app_nil_r.
Qed.

(** The whole sweep returns, and returns the numbered positions. *)
Lemma sweep_tiles_spec (Hw : 0 < w) (Hh : 0 < h) :
  let fuel := sweep_fuel wb w h in
  sweep_tiles wb w h skip fuel =
  Some (emit wb w h 0
          (positions skip (cursors fuel (west wb) (east wb) w)
                     (cursors fuel (south wb) (north wb) h))).
Proof.
  unfold sweep_tiles. simpl.
  rewrite (outer_loop_spec Hw Hh); [reflexivity | |]; unfold sweep_fuel; lia.
Qed.
End Loops.

(** ** Where the tiles stand *)

Section Positions.
Import Partitioner Grid.
Local Open Scope Q_scope.

Variable wb : Bounds.
Variables w h : Q.
Variable skip : Q -> bool.

Lemma positions_In xs ys x y :
  In (x, y) (positions skip xs ys) <-> In x xs /\ In y ys /\ skip y = false.
Proof.
  unfold positions, column. rewrite List.in_flat_map. split.
  - intros (x' & Hx & Hin). apply List.in_map_iff in Hin.
    destruct Hin as (y' & Heq & Hy). injection Heq as -> ->.
    apply List.filter_In in Hy. rewrite negb_true_iff in Hy. tauto.
  - intros (Hx & Hy & Hs). exists x. split; [exact Hx |].
    apply List.in_map_iff. exists y. split; [reflexivity |].
    apply List.filter_In. rewrite negb_true_iff. tauto.
Qed.

Lemma positions_sorted xs ys :
  ForallOrdPairs (fun c c' => c + w <= c') xs ->
  ForallOrdPairs (fun c c' => c + h <= c') ys ->
  ForallOrdPairs (before w h) (positions skip xs ys).
Proof.
  intros Hxs Hys. unfold positions.
  induction Hxs as [|x xs Hx _ IH]; simpl; [constructor |].
  apply FOP_app.
  - unfold column. apply FOP_map. apply FOP_filter.
    eapply ForallOrdPairs_ind with (R := fun c c' => c + h <= c')
      (P := ForallOrdPairs (fun a a' => before w h (x, a) (x, a'))); [| | exact Hys].
    + constructor.
    + intros a l Ha _ IHl. constructor; [| exact IHl].
      eapply List.Forall_impl; [| exact Ha]. intros b Hb. right. simpl. tauto.
  - exact IH.
  - intros [x1 y1] [x2 y2] H1 H2. unfold column in H1.
    apply List.in_map_iff in H1. destruct H1 as (y' & Heq & _). injection Heq as <- <-.
    apply List.in_flat_map in H2. destruct H2 as (x' & Hx' & Hin).
    unfold column in Hin. apply List.in_map_iff in Hin.
    destruct Hin as (y'' & Heq & _). injection Heq as <- <-.
    left. simpl. rewrite List.Forall_forall in Hx. now apply Hx.
Qed.

(** Tiles at positions of which one is before the other share no point. *)
Lemma before_disjoint p q k k' px py :
  before w h p q ->
  inside (bounds (make_tile wb w h k (fst p) (snd p))) px py ->
  inside (bounds (make_tile wb w h k' (fst q) (snd q))) px py -> False.
Proof.
  unfold before, inside. simpl. intros Hb Hp Hq.
  pose proof (Q.le_min_l (fst p + w) (east wb)).
  pose proof (Q.le_min_l (snd p + h) (north wb)).
  destruct Hb as [Hb | [Hb1 Hb2]]; lra.
Qed.

(** A tile made at cursors of the two sweeps stays inside the world. *)
Lemma make_tile_clamped (Hw : 0 < w) (Hh : 0 < h) fx fy k x y :
  In x (cursors fx (west wb) (east wb) w) ->
  In y (cursors fy (south wb) (north wb) h) ->
  let b := bounds (make_tile wb w h k x y) in
  west wb <= west b /\ east b <= east wb /\ south wb <= south b /\ north b <= north wb.
Proof.
  intros Hx Hy.
  apply cursors_bounds in Hx; [| exact Hw]. apply cursors_bounds in Hy; [| exact Hh].
  simpl.
  pose proof (Q.le_min_r (x + w) (east wb)).
  pose proof (Q.le_min_r (y + h) (north wb)).
  repeat split; lra.
Qed.
End Positions.

(** ** Runs of the sweep that do not end, and the choice of fuel *)

Section Fuel.
Import Partitioner Grid.
Local Open Scope Q_scope.

Variable wb : Bounds.
Variables w h : Q.
Variable skip : Q -> bool.

(** With a tile height that is not positive the cursor never reaches the
    north edge. *)
Lemma inner_loop_diverges fuel x y tile_id tiles :
  h <= 0 -> y < north wb -> inner_loop wb w h skip fuel x y tile_id tiles = None.
Proof.
  intros Hh. revert y tile_id tiles.
  induction fuel as [|fuel IH]; intros y tile_id tiles Hy; simpl;
    rewrite (proj2 (Qltb_lt _ _) Hy); [reflexivity |].
  destruct (skip y); apply IH; lra.
Qed.

Lemma sweep_tiles_diverges fuel :
  h <= 0 -> west wb < east wb -> south wb < north wb ->
  sweep_tiles wb w h skip fuel = None.
Proof.
  intros Hh Hwe Hsn. unfold sweep_tiles.
  destruct fuel as [|fuel]; simpl; rewrite (proj2 (Qltb_lt _ _) Hwe); [reflexivity |].
  rewrite (proj2 (Qltb_lt _ _) Hsn).
  destruct (skip (south wb)); now rewrite inner_loop_diverges by lra.
Qed.

(** More fuel than needed changes nothing. *)
Lemma cursors_fuel fuel fuel' lo hi step :
  0 < step -> (steps lo hi step <= fuel)%nat -> (steps lo hi step <= fuel')%nat ->
  cursors fuel lo hi step = cursors fuel' lo hi step.
Proof.
  intros Hstep. revert fuel' lo. induction fuel as [|fuel IH]; intros fuel' lo Hf Hf'.
  - destruct (Qltb lo hi) eqn:Hc.
    + apply Qltb_lt in Hc. pose proof (steps_succ hi step Hstep lo Hc). lia.
    + destruct fuel'; simpl; now rewrite Hc.
  - simpl. destruct (Qltb lo hi) eqn:Hc.
    + apply Qltb_lt in Hc. pose proof (steps_succ hi step Hstep lo Hc) as Hs.
      destruct fuel' as [|fuel']; [lia |]. simpl.
      rewrite (proj2 (Qltb_lt _ _) Hc). f_equal. apply IH; lia.
    + destruct fuel'; simpl; now rewrite Hc.
Qed.

Lemma sweep_tiles_fuel fuel :
  0 < w -> 0 < h -> (sweep_fuel wb w h <= fuel)%nat ->
  sweep_tiles wb w h skip fuel = sweep_tiles wb w h skip (sweep_fuel wb w h).
Proof.
  intros Hw Hh Hfuel. unfold sweep_tiles.
  assert (Hx : (steps (west wb) (east wb) w <= sweep_fuel wb w h)%nat)
    by (unfold sweep_fuel; lia).
  assert (Hy : (steps (south wb) (north wb) h <= sweep_fuel wb w h)%nat)
    by (unfold sweep_fuel; lia).
  rewrite !(outer_loop_spec wb w h skip Hw Hh) by lia.
  rewrite (cursors_fuel fuel (sweep_fuel wb w h) _ _ w Hw) by lia.
  now rewrite (cursors_fuel fuel (sweep_fuel wb w h) _ _ h Hh) by lia.
Qed.

(** The positions that pass the guard are those of the full grid that pass
    it, in the same order. *)
Lemma positions_filter xs ys :
  positions skip xs ys =
  List.filter (fun p => negb (skip (snd p))) (positions (fun _ => false) xs ys).
Proof.
  unfold positions. induction xs as [|x xs IH]; simpl; [reflexivity |].
  rewrite List.filter_app, <- IH. f_equal. clear IH.
  unfold column. induction ys as [|y ys IHy]; simpl; [reflexivity |].
  destruct (skip y) eqn:Hy; simpl; rewrite ?Hy; simpl; now rewrite IHy.
Qed.

Lemma emit_bounds tile_id ps :
  List.map bounds (emit wb w h tile_id ps) =
  List.map (fun p => bounds (make_tile wb w h 0 (fst p) (snd p))) ps.
Proof.
  revert tile_id. induction ps as [|[x y] ps IH]; intros tile_id; simpl; [reflexivity |].
  now rewrite IH.
Qed.
End Fuel.

(** X14.  [get_world_tiles] with a resolution that is zero or negative
    never returns: the cursor of the inner loop does not move north, so no
    number of iterations ends the loops. *)
Lemma get_world_tiles_diverges (fuel : nat) (resolution : Q) :
  (resolution <= 0)%Q -> Partitioner.get_world_tiles_fuel fuel resolution = None.
Proof.
  intros Hres. unfold Partitioner.get_world_tiles_fuel.
  apply sweep_tiles_diverges; [| reflexivity | reflexivity].
  unfold Partitioner.tile_size. lra.
Qed.

Lemma get_world_tiles_diverges_witness :
  Partitioner.get_world_tiles_fuel 1000 0 = None.
Proof. apply (get_world_tiles_diverges 1000 0). unfold Qle. simpl. lia. Defined.

Lemma get_world_tiles_fuel_enough (fuel : nat) (resolution : Q) :
  (0 < resolution)%Q ->
  (Partitioner.sweep_fuel Partitioner.world_bounds (Partitioner.tile_size resolution)
     (Partitioner.tile_size resolution) <= fuel)%nat ->
  Partitioner.get_world_tiles_fuel fuel resolution = Partitioner.get_world_tiles resolution.
Proof.
  intros Hres Hfuel.
  assert (Hsize : (0 < Partitioner.tile_size resolution)%Q).
  { unfold Partitioner.tile_size. apply Qmult_lt_0_compat; [exact Hres | reflexivity]. }
  unfold Partitioner.get_world_tiles, Partitioner.get_world_tiles_fuel.
  now apply sweep_tiles_fuel.
Qed.

(** X15.  For a positive resolution the rectangles of [get_world_tiles]
    are, in the same order, those of the sweep without polar exclusion
    whose south edge passes the guard of line 103. *)
Lemma get_world_tiles_of_full_sweep (resolution : Q) :
  (0 < resolution)%Q ->
  exists tiles full,
    Partitioner.get_world_tiles resolution = Some tiles /\
    Partitioner.sweep_tiles Partitioner.world_bounds (Partitioner.tile_size resolution)
      (Partitioner.tile_size resolution) (fun _ => false)
      (Partitioner.sweep_fuel Partitioner.world_bounds (Partitioner.tile_size resolution)
         (Partitioner.tile_size resolution)) = Some full /\
    List.map Partitioner.bounds tiles =
    List.filter (fun b => negb (Partitioner.polar (Partitioner.south b)))
                (List.map Partitioner.bounds full).
Proof.
  intros Hres.
  assert (Hsize : (0 < Partitioner.tile_size resolution)%Q).
  { unfold Partitioner.tile_size. apply Qmult_lt_0_compat; [exact Hres | reflexivity]. }
  unfold Partitioner.get_world_tiles, Partitioner.get_world_tiles_fuel.
  rewrite !(sweep_tiles_spec _ _ _ _ Hsize Hsize). cbv zeta.
  eexists. eexists. split; [reflexivity |]. split; [reflexivity |].
  rewrite !emit_bounds, positions_filter.
  set (ps := Grid.positions (fun _ => false) _ _). clearbody ps.
  induction ps as [|[x y] ps IH]; [reflexivity |].
  cbn [List.map List.filter fst snd Partitioner.south Partitioner.bounds
       Partitioner.make_tile].
  destruct (Partitioner.polar y); cbn [negb List.map]; [exact IH | f_equal; exact IH].
Qed.

Lemma get_world_tiles_of_full_sweep_witness :
  exists tiles full,
    Partitioner.get_world_tiles 5000 = Some tiles /\
    Partitioner.sweep_tiles Partitioner.world_bounds (Partitioner.tile_size 5000)
      (Partitioner.tile_size 5000) (fun _ => false)
      (Partitioner.sweep_fuel Partitioner.world_bounds (Partitioner.tile_size 5000)
         (Partitioner.tile_size 5000)) = Some full /\
    List.map Partitioner.bounds tiles =
    List.filter (fun b => negb (Partitioner.polar (Partitioner.south b)))
                (List.map Partitioner.bounds full).
Proof. apply (get_world_tiles_of_full_sweep 5000). reflexivity. Defined.

(** The end-to-end scenario of the specification: a world of 20 by 20
    units cut with a span of 10 gives the four quadrants, ids 0 to 3. *)
Example small_world_tiles :
  Partitioner.sweep_tiles Examples.small_world 10 10 (fun _ => false)
    (Partitioner.sweep_fuel Examples.small_world 10 10) =
  Some [Partitioner.make_tile Examples.small_world 10 10 0 (-10) (-10);
        Partitioner.make_tile Examples.small_world 10 10 1 (-10) (-10 + 10);
        Partitioner.make_tile Examples.small_world 10 10 2 (-10 + 10) (-10);
        Partitioner.make_tile Examples.small_world 10 10 3 (-10 + 10) (-10 + 10)]%Q.
Proof. reflexivity. Qed.

(** ** Tile identifiers *)

(** C6.  For a positive resolution [get_world_tiles] returns, and the tile
    emitted in place [i] (counted from 0, in emission order: columns from
    west to east, within a column from south to north) has [id] equal to
    [i].  Hence the ids are contiguous from 0, strictly increasing and
    pairwise distinct, and a skipped polar position uses none. *)
Theorem get_world_tiles_ids (resolution : Q) :
  (0 < resolution)%Q ->
  exists tiles,
    Partitioner.get_world_tiles resolution = Some tiles /\
    (forall i t, nth_error tiles i = Some t -> Partitioner.id t = Z.of_nat i) /\
    (forall i j ti tj, nth_error tiles i = Some ti -> nth_error tiles j = Some tj ->
       (i < j)%nat -> Partitioner.id ti < Partitioner.id tj) /\
    List.NoDup (List.map Partitioner.id tiles).
Proof.
  intros Hres.
  assert (Hsize : (0 < Partitioner.tile_size resolution)%Q).
  { unfold Partitioner.tile_size. apply Qmult_lt_0_compat; [exact Hres | reflexivity]. }
  unfold Partitioner.get_world_tiles, Partitioner.get_world_tiles_fuel.
  rewrite (sweep_tiles_spec _ _ _ _ Hsize Hsize). cbv zeta.
  eexists. split; [reflexivity |].
  set (ps := Grid.positions _ _ _).
  assert (Hid : forall i t,
    nth_error (Grid.emit Partitioner.world_bounds (Partitioner.tile_size resolution)
                 (Partitioner.tile_size resolution) 0 ps) i = Some t ->
    Partitioner.id t = Z.of_nat i).
  { intros i t Hi. rewrite emit_nth in Hi. destruct (nth_error ps i); [| discriminate].
    injection Hi as <-. reflexivity. }
  split; [exact Hid |]. split.
  - intros i j ti tj Hi Hj Hij. rewrite (Hid _ _ Hi), (Hid _ _ Hj). lia.
  - apply (proj2 (List.NoDup_nth_error _)). intros i j Hi Heq.
    rewrite List.length_map in Hi.
    rewrite !List.nth_error_map in Heq.
    destruct (nth_error _ i) as [ti|] eqn:Hti.
    2:{ apply List.nth_error_None in Hti. lia. }
    destruct (nth_error _ j) as [tj|] eqn:Htj; [| discriminate].
    simpl in Heq. injection Heq as Heq.
    rewrite (Hid _ _ Hti), (Hid _ _ Htj) in Heq. lia.
Qed.

Lemma get_world_tiles_ids_witness :
  exists tiles,
    Partitioner.get_world_tiles 5000 = Some tiles /\
    (forall i t, nth_error tiles i = Some t -> Partitioner.id t = Z.of_nat i) /\
    (forall i j ti tj, nth_error tiles i = Some ti -> nth_error tiles j = Some tj ->
       (i < j)%nat -> Partitioner.id ti < Partitioner.id tj) /\
    List.NoDup (List.map Partitioner.id tiles).
Proof. apply (get_world_tiles_ids 5000). reflexivity. Defined.

(** ** Polar exclusion *)

(** C2 as stated fails: with the default resolution 5000 the tile with id 5
    spans south 14962491.66 to north 19962491.66, so its vertical centre
    17462491.66 lies beyond the threshold 15000000. *)
Lemma polar_center_counterexample :
  exists tiles,
    Partitioner.get_world_tiles 5000 = Some tiles /\
    ~ (forall t, In t tiles ->
         (Qabs (Grid.center_y (Partitioner.bounds t)) <= Partitioner.polar_threshold)%Q).
Proof.
  eexists. split; [vm_compute; reflexivity |].
  intros Hall.
  specialize (Hall (Partitioner.make_tile Partitioner.world_bounds 5000000 5000000 5
                      (-2003750834 # 100) (1496249166 # 100))).
  assert (Hgt : (Partitioner.polar_threshold <
                 Qabs (Grid.center_y (Partitioner.bounds
                    (Partitioner.make_tile Partitioner.world_bounds 5000000 5000000 5
                       (-2003750834 # 100) (1496249166 # 100)))))%Q)
    by (vm_compute; reflexivity).
  apply (Qlt_not_le _ _ Hgt). apply Hall.
  vm_compute. do 5 right. left. reflexivity.
Qed.

(** C2, amended.  The guard of line 103 tests the cursor [y], which is the
    south edge of the tile about to be emitted: for a positive resolution
    [get_world_tiles] returns, and no emitted tile has a south edge whose
    absolute value exceeds 15000000.  At a position that fails the test no
    tile is appended and no id is used, and the loop goes on from
    [y + tile_height]. *)
Theorem get_world_tiles_polar (resolution : Q) :
  (0 < resolution)%Q ->
  (exists tiles,
     Partitioner.get_world_tiles resolution = Some tiles /\
     forall t, In t tiles ->
       (Qabs (Partitioner.south (Partitioner.bounds t)) <= Partitioner.polar_threshold)%Q) /\
  (forall fuel x y tile_id tiles,
     (y < Partitioner.north Partitioner.world_bounds)%Q ->
     (Partitioner.polar_threshold < Qabs y)%Q ->
     Partitioner.inner_loop Partitioner.world_bounds
       (Partitioner.tile_size resolution) (Partitioner.tile_size resolution)
       Partitioner.polar (S fuel) x y tile_id tiles =
     Partitioner.inner_loop Partitioner.world_bounds
       (Partitioner.tile_size resolution) (Partitioner.tile_size resolution)
       Partitioner.polar fuel x (y + Partitioner.tile_size resolution)%Q tile_id tiles).
Proof.
  intros Hres.
  assert (Hsize : (0 < Partitioner.tile_size resolution)%Q).
  { unfold Partitioner.tile_size. apply Qmult_lt_0_compat; [exact Hres | reflexivity]. }
  split.
  - unfold Partitioner.get_world_tiles, Partitioner.get_world_tiles_fuel.
    rewrite (sweep_tiles_spec _ _ _ _ Hsize Hsize). cbv zeta.
    eexists. split; [reflexivity |].
    intros t Hin. apply emit_In in Hin. destruct Hin as (k & x & y & Hp & ->).
    apply positions_In in Hp. destruct Hp as (_ & _ & Hpolar).
    simpl. unfold Partitioner.polar in Hpolar. now apply Qltb_ge in Hpolar.
  - intros fuel x y tile_id tiles Hy Hpolar.
    apply inner_loop_skip; [exact Hy |].
    unfold Partitioner.polar. now apply Qltb_lt.
Qed.

Lemma get_world_tiles_polar_witness :
  (exists tiles,
     Partitioner.get_world_tiles 5000 = Some tiles /\
     forall t, In t tiles ->
       (Qabs (Partitioner.south (Partitioner.bounds t)) <= Partitioner.polar_threshold)%Q) /\
  (forall fuel x y tile_id tiles,
     (y < Partitioner.north Partitioner.world_bounds)%Q ->
     (Partitioner.polar_threshold < Qabs y)%Q ->
     Partitioner.inner_loop Partitioner.world_bounds
       (Partitioner.tile_size 5000) (Partitioner.tile_size 5000)
       Partitioner.polar (S fuel) x y tile_id tiles =
     Partitioner.inner_loop Partitioner.world_bounds
       (Partitioner.tile_size 5000) (Partitioner.tile_size 5000)
       Partitioner.polar fuel x (y + Partitioner.tile_size 5000)%Q tile_id tiles).
Proof. apply (get_world_tiles_polar 5000). reflexivity. Defined.

(** ** Exact cover *)

(** C4.  For every world rectangle and every positive tile span, the sweep
    without polar exclusion returns; every tile has its east and north edge
    clamped to the world boundary and lies inside the world; a point lies
    in the world exactly when it lies in some tile; and two tiles emitted
    at different places share no point. *)
Theorem sweep_exact_cover (wb : Partitioner.Bounds) (span : Q) :
  (0 < span)%Q ->
  exists tiles,
    Partitioner.sweep_tiles wb span span (fun _ => false)
      (Partitioner.sweep_fuel wb span span) = Some tiles /\
    (forall t, In t tiles ->
       let b := Partitioner.bounds t in
       Partitioner.east b = Qmin (Partitioner.west b + span) (Partitioner.east wb) /\
       Partitioner.north b = Qmin (Partitioner.south b + span) (Partitioner.north wb) /\
       (Partitioner.west wb <= Partitioner.west b)%Q /\
       (Partitioner.east b <= Partitioner.east wb)%Q /\
       (Partitioner.south wb <= Partitioner.south b)%Q /\
       (Partitioner.north b <= Partitioner.north wb)%Q) /\
    (forall px py,
       Grid.inside wb px py <->
       exists t, In t tiles /\ Grid.inside (Partitioner.bounds t) px py) /\
    (forall i j ti tj,
       nth_error tiles i = Some ti -> nth_error tiles j = Some tj -> i <> j ->
       forall px py,
         ~ (Grid.inside (Partitioner.bounds ti) px py /\
            Grid.inside (Partitioner.bounds tj) px py)).
Proof.
  intros Hspan.
  rewrite (sweep_tiles_spec _ _ _ _ Hspan Hspan). cbv zeta.
  set (fuel := Partitioner.sweep_fuel wb span span).
  set (xs := Grid.cursors fuel (Partitioner.west wb) (Partitioner.east wb) span).
  set (ys := Grid.cursors fuel (Partitioner.south wb) (Partitioner.north wb) span).
  eexists. split; [reflexivity |]. split; [| split].
  - intros t Hin. apply emit_In in Hin. destruct Hin as (k & x & y & Hp & ->).
    apply positions_In in Hp. destruct Hp as (Hx & Hy & _).
    pose proof (make_tile_clamped wb span span Hspan Hspan fuel fuel k x y Hx Hy) as Hc.
    simpl in *. tauto.
  - intros px py. split.
    + intros (Hw1 & He1 & Hs1 & Hn1).
      destruct (cursors_cover (Partitioner.east wb) span Hspan fuel (Partitioner.west wb) px) as (x & Hx & Hx1 & Hx2);
        [unfold fuel, Partitioner.sweep_fuel; lia | exact Hw1 | exact He1 |].
      destruct (cursors_cover (Partitioner.north wb) span Hspan fuel (Partitioner.south wb) py) as (y & Hy & Hy1 & Hy2);
        [unfold fuel, Partitioner.sweep_fuel; lia | exact Hs1 | exact Hn1 |].
      destruct (In_emit wb span span 0 (Grid.positions (fun _ => false) xs ys) x y) as (k & Hk).
      { apply positions_In. tauto. }
      exists (Partitioner.make_tile wb span span k x y). split; [exact Hk |].
      unfold Grid.inside. simpl. tauto.
    + intros (t & Hin & Hp). apply emit_In in Hin. destruct Hin as (k & x & y & Hpos & ->).
      apply positions_In in Hpos. destruct Hpos as (Hx & Hy & _).
      pose proof (make_tile_clamped wb span span Hspan Hspan fuel fuel k x y Hx Hy) as Hc.
      unfold Grid.inside in *. simpl in *. lra.
  - assert (Hsorted : ForallOrdPairs (Grid.before span span)
                        (Grid.positions (fun _ => false) xs ys)).
    { apply positions_sorted; apply cursors_sorted; exact Hspan. }
    assert (Hlt : forall i j ti tj,
      nth_error (Grid.emit wb span span 0 (Grid.positions (fun _ => false) xs ys)) i = Some ti ->
      nth_error (Grid.emit wb span span 0 (Grid.positions (fun _ => false) xs ys)) j = Some tj ->
      (i < j)%nat -> forall px py,
      ~ (Grid.inside (Partitioner.bounds ti) px py /\ Grid.inside (Partitioner.bounds tj) px py)).
    { intros i j ti tj Hi Hj Hij px py [H1 H2].
      rewrite emit_nth in Hi, Hj.
      destruct (nth_error _ i) as [p|] eqn:Hpi; [| discriminate].
      destruct (nth_error _ j) as [q|] eqn:Hqj; [| discriminate].
      simpl in Hi, Hj. injection Hi as <-. injection Hj as <-.
      eapply before_disjoint; [| exact H1 | exact H2].
      eapply FOP_nth; [exact Hsorted | exact Hij | exact Hpi | exact Hqj]. }
    intros i j ti tj Hi Hj Hne px py [H1 H2].
    destruct (Nat.lt_total i j) as [Hij | [Hij | Hij]]; [| congruence |].
    + exact (Hlt i j ti tj Hi Hj Hij px py (conj H1 H2)).
    + exact (Hlt j i tj ti Hj Hi Hij px py (conj H2 H1)).
Qed.

Lemma sweep_exact_cover_witness :
  exists tiles,
    Partitioner.sweep_tiles Examples.small_world 10 10 (fun _ => false)
      (Partitioner.sweep_fuel Examples.small_world 10 10) = Some tiles /\
    (forall t, In t tiles ->
       let b := Partitioner.bounds t in
       Partitioner.east b = Qmin (Partitioner.west b + 10) (Partitioner.east Examples.small_world) /\
       Partitioner.north b = Qmin (Partitioner.south b + 10) (Partitioner.north Examples.small_world) /\
       (Partitioner.west Examples.small_world <= Partitioner.west b)%Q /\
       (Partitioner.east b <= Partitioner.east Examples.small_world)%Q /\
       (Partitioner.south Examples.small_world <= Partitioner.south b)%Q /\
       (Partitioner.north b <= Partitioner.north Examples.small_world)%Q) /\
    (forall px py,
       Grid.inside Examples.small_world px py <->
       exists t, In t tiles /\ Grid.inside (Partitioner.bounds t) px py) /\
    (forall i j ti tj,
       nth_error tiles i = Some ti -> nth_error tiles j = Some tj -> i <> j ->
       forall px py,
         ~ (Grid.inside (Partitioner.bounds ti) px py /\
            Grid.inside (Partitioner.bounds tj) px py)).
Proof. apply (sweep_exact_cover Examples.small_world 10). reflexivity. Defined.

(** ** The retry loop under rate limiting *)

Section RateLimited.
Context {pil : PIL}.
Variable services : Services.
Variable self : gmap string value.
Variables url token : value.
Variable b : Partitioner.Bounds.

Hypothesis self_url : self !! "process_url" = Some url.
Hypothesis self_token : self !! "access_token" = Some token.
Hypothesis always_429 :
  forall n, exists r, process_api services n = Reply r /\ status_code r = 429.

Lemma attempts_loop_rate_limited authorization retries attempts w :
  Fetcher.attempts_loop services self authorization b retries attempts w =
  (Ok None,
   {| requests_made := requests_made w + List.length attempts;
      log := log w ++ List.flat_map (Fetcher.rate_limited_attempt url authorization b) attempts;
      files := files w |}).
Proof.
  revert w. induction attempts as [|attempt rest IH]; intros w.
  - destruct w. simpl. unfold ret. now rewrite Nat.add_0_r, app_nil_r.
  - simpl. unfold bind at 1, try_except, Fetcher.attempt_body, bind at 1, getattr.
    rewrite self_url. unfold ret at 1, bind at 1, Fetcher.requests_post.
    destruct (always_429 (requests_made w)) as (r & -> & Hs). rewrite Hs.
    simpl. unfold bind, print, time_sleep, emit_event, ret. simpl.
    rewrite IH. simpl. f_equal. f_equal; [lia |].
    now rewrite <- !app_assoc.
Qed.

Lemma fetch_tile_image_rate_limited retries w :
  Fetcher.fetch_tile_image services self b retries w =
  (Ok None,
   {| requests_made := requests_made w + Z.to_nat retries;
      log := log w ++ List.flat_map (Fetcher.rate_limited_attempt url (Fetcher.bearer token) b)
                               (range retries);
      files := files w |}).
Proof.
  unfold Fetcher.fetch_tile_image, bind, getattr. rewrite self_token. unfold ret.
  rewrite attempts_loop_rate_limited. unfold range.
  now rewrite List.length_map, List.length_seq.
Qed.
End RateLimited.

(** C3.  Against a process API that answers 429 to every request,
    [fetch_tile_image] with [retries = 3] sends three requests and returns
    [None]; it sleeps 1, 2 and 4 seconds, and the sleep of 4 seconds comes
    after the third and last request, not between two attempts. *)
Theorem fetch_rate_limited_three (pil : PIL) (services : Services)
        (self : gmap string value) (url token : value) (b : Partitioner.Bounds) (w : world) :
  self !! "process_url" = Some url ->
  self !! "access_token" = Some token ->
  (forall n, exists r, process_api services n = Reply r /\ status_code r = 429) ->
  Fetcher.fetch_tile_image services self b 3 w =
  (Ok None,
   {| requests_made := requests_made w + 3;
      log := log w ++
             [ProcessPost url (Fetcher.bearer token) b; Print (MsgRateLimited 1); Sleep 1;
              ProcessPost url (Fetcher.bearer token) b; Print (MsgRateLimited 2); Sleep 2;
              ProcessPost url (Fetcher.bearer token) b; Print (MsgRateLimited 4); Sleep 4];
      files := files w |}).
Proof.
  intros Hurl Htoken H429.
  now rewrite (fetch_tile_image_rate_limited services self url token b Hurl Htoken H429).
Qed.

Lemma fetch_rate_limited_three_witness :
  Fetcher.fetch_tile_image (pil := Nearest.pil) Examples.rate_limited Examples.converter
    Examples.unit_square 3 Examples.fresh_world =
  (Ok None,
   {| requests_made := 3;
      log := [ProcessPost (VStr "https://sh.dataspace.copernicus.eu/api/v1/process")
                (VStr "Bearer token") Examples.unit_square;
              Print (MsgRateLimited 1); Sleep 1;
              ProcessPost (VStr "https://sh.dataspace.copernicus.eu/api/v1/process")
                (VStr "Bearer token") Examples.unit_square;
              Print (MsgRateLimited 2); Sleep 2;
              ProcessPost (VStr "https://sh.dataspace.copernicus.eu/api/v1/process")
                (VStr "Bearer token") Examples.unit_square;
              Print (MsgRateLimited 4); Sleep 4];
      files := ∅ |}).
Proof.
  apply (fetch_rate_limited_three Nearest.pil Examples.rate_limited Examples.converter
           (VStr "https://sh.dataspace.copernicus.eu/api/v1/process") (VStr "token")
           Examples.unit_square Examples.fresh_world).
  - reflexivity.
  - reflexivity.
  - intros n. eexists. split; reflexivity.
Defined.

(** ** Construction of the converter *)

(** C1.  For every [client_id] and [client_secret], [__init__] raises
    [NameError] for the name [base_url] and changes nothing outside.  A run
    of [main] therefore either stops at the credentials check, having only
    printed, or ends with that [NameError]; either way no request is sent
    and no file is written. *)
Theorem init_raises_NameError :
  (forall (client_id client_secret : value) (w : world),
     Construction.__init__ client_id client_secret w = (Raise (NameError "base_url"), w)) /\
  (forall (pil : PIL) (services : Services) (CLIENT_ID CLIENT_SECRET : string) (w : world),
     Construction.main services CLIENT_ID CLIENT_SECRET w =
     if String.eqb CLIENT_ID "your_client_id_here"
     then (Ok tt, {| requests_made := requests_made w;
                     log := log w ++ [Print MsgSetCredentials];
                     files := files w |})
     else (Raise (NameError "base_url"), w)).
Proof.
  assert (Hinit : forall client_id client_secret w,
    Construction.__init__ client_id client_secret w = (Raise (NameError "base_url"), w)).
  { intros client_id client_secret w. reflexivity. }
  split; [exact Hinit |].
  intros pil services CLIENT_ID CLIENT_SECRET w. unfold Construction.main.
  destruct (String.eqb CLIENT_ID "your_client_id_here"); [reflexivity |].
  unfold bind. now rewrite Hinit.
Qed.

(** ** The colour reducer *)

(** C9.  Without an image the reducer returns [None], whatever the grid
    size. *)
Theorem image_to_dominant_color_absent (pil : PIL) (grid_size : Z) :
  Reducer.image_to_dominant_color None grid_size = Ok None.
Proof. reflexivity. Qed.

(** *** Rounding *)

Lemma round_half_even_bounds (a b : Z) (q : Q) :
  (inject_Z a <= q)%Q -> (q <= inject_Z b)%Q ->
  a <= Reducer.round_half_even q <= b.
Proof.
  intros Ha Hb. unfold Reducer.round_half_even.
  pose proof (Qfloor_resp_le _ _ Ha) as Hfa. rewrite Qfloor_Z in Hfa.
  pose proof (Qfloor_resp_le _ _ Hb) as Hfb. rewrite Qfloor_Z in Hfb.
  pose proof (Qfloor_le q) as Hfq.
  assert (Hup : (1 # 2 <= q - inject_Z (Qfloor q))%Q -> Qfloor q + 1 <= b).
  { intros Hhalf. destruct (Z.eq_dec (Qfloor q) b) as [Heq | Hne]; [| lia].
    rewrite Heq in Hhalf. lra. }
  destruct (Qcompare_spec (q - inject_Z (Qfloor q)) (1 # 2)) as [Heq | Hlt | Hgt].
  - destruct (Z.even (Qfloor q)); [lia |]. split; [lia |]. apply Hup. lra.
  - lia.
  - split; [lia |]. apply Hup. lra.
Qed.

Lemma round_half_even_comp (q q' : Q) :
  (q == q')%Q -> Reducer.round_half_even q = Reducer.round_half_even q'.
Proof.
  intros Heq. unfold Reducer.round_half_even.
  rewrite (Qfloor_comp _ _ Heq).
  assert (Hc : ((q - inject_Z (Qfloor q')) ?= (1 # 2))%Q =
               ((q' - inject_Z (Qfloor q')) ?= (1 # 2))%Q).
  { apply Qcompare_comp; [now rewrite Heq | reflexivity]. }
  now rewrite Hc.
Qed.

Lemma round3_comp (q q' : Q) : (q == q')%Q -> Reducer.round3 q = Reducer.round3 q'.
Proof.
  intros Heq. unfold Reducer.round3. f_equal.
  apply round_half_even_comp. now rewrite Heq.
Qed.

(** A normalised channel is a number of thousandths between 0 and 1. *)
Lemma round3_unit (q : Q) :
  (0 <= q)%Q -> (q <= 255)%Q ->
  exists k : Z, 0 <= k <= 1000 /\ Reducer.round3 (q / 255) = (k # 1000)%Q.
Proof.
  intros H0 H255. exists (Reducer.round_half_even (q / 255 * 1000)).
  split; [| reflexivity].
  apply round_half_even_bounds.
  - change (inject_Z 0) with 0%Q. unfold Qdiv. change (/ 255)%Q with (1 # 255)%Q. lra.
  - change (inject_Z 1000) with 1000%Q. unfold Qdiv. change (/ 255)%Q with (1 # 255)%Q. lra.
Qed.

(** *** Means *)

Lemma sum_bounds (xs : list Z) :
  List.Forall Reducer.uint8 xs ->
  0 <= Reducer.sum xs <= 255 * Z.of_nat (List.length xs).
Proof.
  induction 1 as [|x xs Hx _ IH]; simpl; [lia |].
  unfold Reducer.uint8 in Hx. unfold Reducer.sum in *. simpl. lia.
Qed.

Lemma mean_nonempty (xs : list Z) :
  xs <> [] ->
  Reducer.mean xs = Finite (inject_Z (Reducer.sum xs) / inject_Z (Z.of_nat (List.length xs))).
Proof. destruct xs; [congruence | reflexivity]. Qed.

Lemma mean_bounds (xs : list Z) :
  xs <> [] -> List.Forall Reducer.uint8 xs ->
  exists q, Reducer.mean xs = Finite q /\ (0 <= q)%Q /\ (q <= 255)%Q.
Proof.
  intros Hne Hall. pose proof (sum_bounds xs Hall) as Hsum.
  destruct xs as [|x xs]; [congruence |]. unfold Reducer.mean.
  set (n := Z.of_nat (List.length (x :: xs))) in *.
  set (s := Reducer.sum (x :: xs)) in *.
  assert (Hn : 0 < n) by (unfold n; simpl; lia).
  assert (Hnq : (0 < inject_Z n)%Q) by (change 0%Q with (inject_Z 0); now rewrite <- Zlt_Qlt).
  eexists. split; [reflexivity |]. split.
  - apply Qle_shift_div_l; [exact Hnq |]. rewrite Qmult_0_l.
    change 0%Q with (inject_Z 0). rewrite <- Zle_Qle. lia.
  - apply Qle_shift_div_r; [exact Hnq |].
    change 255%Q with (inject_Z 255). rewrite <- inject_Z_mult, <- Zle_Qle. lia.
Qed.

Lemma sum_uniform (v : Z) (xs : list Z) :
  List.Forall (fun x => x = v) xs -> Reducer.sum xs = Z.of_nat (List.length xs) * v.
Proof.
  induction 1 as [|x xs -> _ IH]; [reflexivity |].
  unfold Reducer.sum in *. simpl List.fold_right. rewrite IH. simpl List.length. lia.
Qed.

Lemma mean_uniform (v : Z) (xs : list Z) :
  xs <> [] -> List.Forall (fun x => x = v) xs ->
  exists q, Reducer.mean xs = Finite q /\ (q == inject_Z v)%Q.
Proof.
  intros Hne Hall. pose proof (sum_uniform v xs Hall) as Hsum.
  destruct xs as [|x xs]; [congruence |]. unfold Reducer.mean.
  rewrite Hsum. set (n := Z.of_nat (List.length (x :: xs))).
  assert (Hn : 0 < n) by (unfold n; simpl; lia).
  eexists. split; [reflexivity |].
  rewrite inject_Z_mult. field.
  intros Hz. unfold Qeq in Hz. simpl in Hz. lia.
Qed.

(** *** Slices and cells *)

Lemma range_In (n i : Z) : In i (range n) <-> 0 <= i < n.
Proof.
  unfold range. rewrite List.in_map_iff. split.
  - intros (k & <- & Hk). apply List.in_seq in Hk. lia.
  - intros Hi. exists (Z.to_nat i). split; [lia |]. apply List.in_seq. lia.
Qed.

Lemma range_length (n : Z) : List.length (range n) = Z.to_nat n.
Proof. unfold range. now rewrite List.length_map, List.length_seq. Qed.

Lemma slice_length {A : Type} (l : list A) (start stop : Z) :
  0 <= start <= stop -> stop <= Z.of_nat (List.length l) ->
  Z.of_nat (List.length (Reducer.slice l start stop)) = stop - start.
Proof.
  intros Hs He. unfold Reducer.slice.
  rewrite List.length_firstn, List.length_skipn. lia.
Qed.

Lemma slice_nth_error {A : Type} (l : list A) (start stop : Z) (k : nat) :
  nth_error (Reducer.slice l start stop) k =
  if (k <? Z.to_nat (stop - start))%nat then nth_error l (Z.to_nat start + k) else None.
Proof. unfold Reducer.slice. now rewrite List.nth_error_firstn, List.nth_error_skipn. Qed.

Lemma slice_Forall {A : Type} (P : A -> Prop) (l : list A) (start stop : Z) :
  List.Forall P l -> List.Forall P (Reducer.slice l start stop).
Proof. intros H. unfold Reducer.slice. now apply Forall_take, Forall_drop. Qed.

Lemma cell_of_shape (a : list (list rgb)) (H W y_start y_end x_start x_end : Z) :
  Reducer.has_shape a H W ->
  0 <= y_start <= y_end -> y_end <= H -> 0 <= x_start <= x_end -> x_end <= W ->
  Reducer.has_shape (Reducer.cell_of a y_start y_end x_start x_end)
                    (y_end - y_start) (x_end - x_start).
Proof.
  intros [Hlen Hrows] Hy1 Hy2 Hx1 Hx2. unfold Reducer.cell_of. split.
  - rewrite List.length_map. apply slice_length; lia.
  - apply List.Forall_map. apply slice_Forall.
    eapply List.Forall_impl; [| exact Hrows]. intros row [Hrow Hpix]. split.
    + apply slice_length; lia.
    + now apply slice_Forall.
Qed.

Lemma reshape_length (c : list (list rgb)) (h w : Z) :
  Reducer.has_shape c h w ->
  Z.of_nat (List.length (Reducer.reshape c)) = h * w.
Proof.
  intros [Hlen Hrows]. subst h. unfold Reducer.reshape.
  induction Hrows as [|row rows [Hrow _] _ IH]; simpl; [lia |].
  rewrite List.length_app. lia.
Qed.

Lemma reshape_pixels (c : list (list rgb)) (h w : Z) :
  Reducer.has_shape c h w -> List.Forall Reducer.pixel_ok (Reducer.reshape c).
Proof.
  intros [_ Hrows]. unfold Reducer.reshape. apply List.Forall_concat.
  eapply List.Forall_impl; [| exact Hrows]. now intros row [_ Hpix].
Qed.

Lemma has_shapeb_spec (a : list (list rgb)) (h w : Z) :
  Reducer.has_shapeb a h w = true -> Reducer.has_shape a h w.
Proof.
  unfold Reducer.has_shapeb, Reducer.has_shape.
  rewrite andb_true_iff, Z.eqb_eq, List.forallb_forall. intros [Hlen Hrows].
  split; [exact Hlen |]. apply List.Forall_forall. intros row Hin.
  specialize (Hrows row Hin).
  rewrite andb_true_iff, Z.eqb_eq, List.forallb_forall in Hrows.
  destruct Hrows as [Hrow Hpix]. split; [exact Hrow |].
  apply List.Forall_forall. intros p Hp. specialize (Hpix p Hp).
  unfold Reducer.pixel_okb in Hpix. unfold Reducer.pixel_ok, Reducer.uint8.
  rewrite !andb_true_iff, !Z.leb_le in Hpix. lia.
Qed.

Lemma uniformb_spec (c : rgb) (a : list (list rgb)) :
  Reducer.uniformb c a = true -> Reducer.uniform c a.
Proof.
  unfold Reducer.uniformb, Reducer.uniform. rewrite List.forallb_forall. intros Hrows.
  apply List.Forall_forall. intros row Hin. specialize (Hrows row Hin).
  rewrite List.forallb_forall in Hrows.
  apply List.Forall_forall. intros p Hp. specialize (Hrows p Hp).
  unfold Reducer.rgb_eqb in Hrows. rewrite !andb_true_iff, !Z.eqb_eq in Hrows.
  destruct p as [[pr pg] pb], c as [[cr cg] cb].
  unfold Reducer.red, Reducer.green, Reducer.blue in Hrows. simpl in Hrows.
  destruct Hrows as [[-> ->] ->]. reflexivity.
Qed.

(** *** The reducer on a resized image of the requested size *)

Section Resized.
Context {pil : PIL}.
Variable image resized : Image.
Variable grid_size : Z.

Hypothesis grid_pos : 0 < grid_size.
Hypothesis resize_ok :
  Image_resize_LANCZOS (Reducer.as_RGB image) (grid_size * 16) (grid_size * 16) = Some resized.
Hypothesis resized_shape :
  Reducer.has_shape (np_array resized) (grid_size * 16) (grid_size * 16).

Lemma resized_cell_sizes :
  Reducer.floordiv (Reducer.shape0 (np_array resized)) grid_size = Ok 16 /\
  Reducer.floordiv (Reducer.shape1 (np_array resized)) grid_size = Ok 16.
Proof.
  destruct resized_shape as [Hlen Hrows].
  assert (Hg : (grid_size =? 0) = false) by (apply Z.eqb_neq; lia).
  assert (Hdiv : grid_size * 16 / grid_size = 16).
  { rewrite Z.mul_comm. apply Z.div_mul. lia. }
  unfold Reducer.floordiv, Reducer.shape0, Reducer.shape1. rewrite Hg, Hlen, Hdiv.
  split; [reflexivity |].
  destruct (np_array resized) as [|row rows]; [simpl in Hlen; lia |].
  inversion Hrows as [|? ? [Hrow _] _]; subst. now rewrite Hrow, Hdiv.
Qed.

Lemma reducer_returns :
  Reducer.image_to_dominant_color (Some image) grid_size =
  Ok (Some (Reducer.color_rows (np_array resized) grid_size 16 16)).
Proof.
  destruct resized_cell_sizes as [H0 H1].
  unfold Reducer.image_to_dominant_color. now rewrite resize_ok, H0, H1.
Qed.

Lemma resized_cell_shape (i j : Z) :
  In i (range grid_size) -> In j (range grid_size) ->
  Reducer.has_shape
    (Reducer.cell_of (np_array resized) (i * 16) ((i + 1) * 16) (j * 16) ((j + 1) * 16))
    16 16.
Proof.
  intros Hi Hj. apply range_In in Hi. apply range_In in Hj.
  pose proof (cell_of_shape (np_array resized) _ _ (i * 16) ((i + 1) * 16)
                (j * 16) ((j + 1) * 16) resized_shape) as Hcell.
  replace ((i + 1) * 16 - i * 16) with 16 in Hcell by lia.
  replace ((j + 1) * 16 - j * 16) with 16 in Hcell by lia.
  apply Hcell; lia.
Qed.

(** Every cell of the grid is the colour of one 16 x 16 cell. *)
Lemma color_rows_In (row : list (list float)) (cell : list float) :
  In row (Reducer.color_rows (np_array resized) grid_size 16 16) -> In cell row ->
  exists i j, In i (range grid_size) /\ In j (range grid_size) /\
    cell = Reducer.roblox_color
             (Reducer.cell_of (np_array resized) (i * 16) ((i + 1) * 16) (j * 16) ((j + 1) * 16)).
Proof.
  unfold Reducer.color_rows. intros Hrow Hcell.
  apply List.in_map_iff in Hrow. destruct Hrow as (i & <- & Hi).
  apply List.in_map_iff in Hcell. destruct Hcell as (j & <- & Hj).
  exists i, j. tauto.
Qed.
End Resized.

Lemma channel_unit (f : rgb -> Z) (pixels : list rgb) :
  pixels <> [] -> List.Forall (fun p => Reducer.uint8 (f p)) pixels ->
  exists k : Z, 0 <= k <= 1000 /\
    Reducer.roblox_channel (Reducer.mean (List.map f pixels)) = Finite (k # 1000).
Proof.
  intros Hne Hall.
  destruct (mean_bounds (List.map f pixels)) as (q & Hq & H0 & H255).
  - destruct pixels; [congruence | discriminate].
  - now apply List.Forall_map.
  - rewrite Hq. simpl. destruct (round3_unit q H0 H255) as (k & Hk & Hr).
    exists k. split; [exact Hk | now rewrite Hr].
Qed.

Lemma roblox_color_unit (cell : list (list rgb)) (ch : float) :
  Reducer.has_shape cell 16 16 -> In ch (Reducer.roblox_color cell) ->
  exists k : Z, 0 <= k <= 1000 /\ ch = Finite (k # 1000).
Proof.
  intros Hshape Hin.
  pose proof (reshape_length cell 16 16 Hshape) as Hlen.
  pose proof (reshape_pixels cell 16 16 Hshape) as Hpix.
  assert (Hne : Reducer.reshape cell <> []).
  { intros Hnil. rewrite Hnil in Hlen. simpl in Hlen. lia. }
  unfold Reducer.roblox_color, Reducer.np_mean in Hin. simpl in Hin.
  destruct Hin as [<- | [<- | [<- | []]]]; apply channel_unit; try exact Hne;
    (eapply List.Forall_impl; [| exact Hpix]); unfold Reducer.pixel_ok; tauto.
Qed.

Lemma channel_uniform (f : rgb -> Z) (c : rgb) (pixels : list rgb) :
  pixels <> [] -> List.Forall (fun p => p = c) pixels ->
  Reducer.roblox_channel (Reducer.mean (List.map f pixels)) =
  Finite (Reducer.round3 (inject_Z (f c) / 255)).
Proof.
  intros Hne Hall.
  destruct (mean_uniform (f c) (List.map f pixels)) as (q & Hq & Heq).
  - destruct pixels; [congruence | discriminate].
  - apply List.Forall_map. eapply List.Forall_impl; [| exact Hall]. now intros p ->.
  - rewrite Hq. simpl. f_equal. apply round3_comp. now rewrite Heq.
Qed.

Lemma roblox_color_uniform (c : rgb) (cell : list (list rgb)) :
  Reducer.has_shape cell 16 16 -> Reducer.uniform c cell ->
  Reducer.roblox_color cell = Reducer.normalized c.
Proof.
  intros Hshape Huni.
  pose proof (reshape_length cell 16 16 Hshape) as Hlen.
  assert (Hne : Reducer.reshape cell <> []).
  { intros Hnil. rewrite Hnil in Hlen. simpl in Hlen. lia. }
  assert (Hall : List.Forall (fun p => p = c) (Reducer.reshape cell)).
  { unfold Reducer.reshape. now apply List.Forall_concat. }
  unfold Reducer.roblox_color, Reducer.np_mean, Reducer.normalized. simpl.
  now rewrite !(channel_uniform _ c _ Hne Hall).
Qed.

Lemma cell_of_uniform (c : rgb) (a : list (list rgb)) (y_start y_end x_start x_end : Z) :
  Reducer.uniform c a -> Reducer.uniform c (Reducer.cell_of a y_start y_end x_start x_end).
Proof.
  intros Huni. unfold Reducer.uniform, Reducer.cell_of.
  apply List.Forall_map. apply slice_Forall.
  eapply List.Forall_impl; [| exact Huni]. intros row Hrow. now apply slice_Forall.
Qed.

(** C7.  When the resize step returns an image of [grid_size * 16] pixels
    per side with 8-bit channels, the reducer returns a grid, and every
    channel value of every cell of it is a number [k / 1000] with
    [0 <= k <= 1000]: it lies in [0, 1] and has three decimal places. *)
Theorem color_channels_unit_range (pil : PIL) (image resized : Image) (grid_size : Z) :
  0 < grid_size ->
  Image_resize_LANCZOS (Reducer.as_RGB image) (grid_size * 16) (grid_size * 16) = Some resized ->
  Reducer.has_shape (np_array resized) (grid_size * 16) (grid_size * 16) ->
  exists grid,
    Reducer.image_to_dominant_color (Some image) grid_size = Ok (Some grid) /\
    forall row cell ch, In row grid -> In cell row -> In ch cell ->
      exists k : Z, 0 <= k <= 1000 /\ ch = Finite (k # 1000).
Proof.
  intros Hpos Hresize Hshape. eexists. split.
  - exact (reducer_returns image resized grid_size Hpos Hresize Hshape).
  - intros row cell ch Hrow Hcell Hch.
    destruct (color_rows_In resized grid_size row cell Hrow Hcell) as (i & j & Hi & Hj & ->).
    eapply roblox_color_unit; [| exact Hch].
    exact (resized_cell_shape resized grid_size Hshape i j Hi Hj).
Qed.

(** C8.  Let resampling keep the colour of an image that is [c]
    throughout.  For an input image that, seen as RGB, is [c] throughout,
    and a resize step that returns an image of [grid_size * 16] pixels per
    side, the reducer returns a grid of [grid_size] rows of [grid_size]
    cells, each of them [c] with its three channels divided by 255 and
    rounded to three decimals. *)
Theorem uniform_image_uniform_grid (pil : PIL) (image resized : Image)
        (grid_size : Z) (c : rgb) :
  0 < grid_size ->
  (forall img width height img',
     Image_resize_LANCZOS img width height = Some img' ->
     Reducer.uniform c (np_array img) -> Reducer.uniform c (np_array img')) ->
  Reducer.uniform c (np_array (Reducer.as_RGB image)) ->
  Image_resize_LANCZOS (Reducer.as_RGB image) (grid_size * 16) (grid_size * 16) = Some resized ->
  Reducer.has_shape (np_array resized) (grid_size * 16) (grid_size * 16) ->
  exists grid,
    Reducer.image_to_dominant_color (Some image) grid_size = Ok (Some grid) /\
    Z.of_nat (List.length grid) = grid_size /\
    forall row, In row grid ->
      Z.of_nat (List.length row) = grid_size /\
      forall cell, In cell row -> cell = Reducer.normalized c.
Proof.
  intros Hpos Hkeeps Hinput Hresize Hshape.
  pose proof (Hkeeps _ _ _ _ Hresize Hinput) as Huni.
  eexists. split; [| split].
  - exact (reducer_returns image resized grid_size Hpos Hresize Hshape).
  - unfold Reducer.color_rows. rewrite List.length_map, range_length. lia.
  - intros row Hrow. split.
    + unfold Reducer.color_rows in Hrow. apply List.in_map_iff in Hrow.
      destruct Hrow as (i & <- & _). rewrite List.length_map, range_length. lia.
    + intros cell Hcell.
      destruct (color_rows_In resized grid_size row cell Hrow Hcell) as (i & j & Hi & Hj & ->).
      apply roblox_color_uniform.
      * exact (resized_cell_shape resized grid_size Hshape i j Hi Hj).
      * now apply cell_of_uniform.
Qed.

(** *** Pixels and cells *)

Lemma pixel_at_cell (a : list (list rgb)) (y_start y_end x_start x_end r c : Z) :
  0 <= y_start -> 0 <= x_start ->
  y_start <= r < y_end -> x_start <= c < x_end ->
  Reducer.pixel_at (Reducer.cell_of a y_start y_end x_start x_end)
                   (r - y_start) (c - x_start) =
  Reducer.pixel_at a r c.
Proof.
  intros Hy Hx Hr Hc. unfold Reducer.pixel_at, Reducer.cell_of.
  assert (H1 : ((r - y_start <? 0) || (c - x_start <? 0)) = false).
  { apply orb_false_iff. split; apply Z.ltb_ge; lia. }
  assert (H2 : ((r <? 0) || (c <? 0)) = false).
  { apply orb_false_iff. split; apply Z.ltb_ge; lia. }
  rewrite H1, H2, List.nth_error_map, slice_nth_error.
  assert (H3 : (Z.to_nat (r - y_start) <? Z.to_nat (y_end - y_start))%nat = true).
  { apply Nat.ltb_lt. lia. }
  rewrite H3. replace (Z.to_nat y_start + Z.to_nat (r - y_start))%nat with (Z.to_nat r) by lia.
  destruct (nth_error a (Z.to_nat r)) as [row|]; simpl; [| reflexivity].
  rewrite slice_nth_error.
  assert (H4 : (Z.to_nat (c - x_start) <? Z.to_nat (x_end - x_start))%nat = true).
  { apply Nat.ltb_lt. lia. }
  rewrite H4. now replace (Z.to_nat x_start + Z.to_nat (c - x_start))%nat with (Z.to_nat c) by lia.
Qed.

Lemma pixel_at_in_range (a : list (list rgb)) (H W r c : Z) :
  Reducer.has_shape a H W -> 0 <= r < H -> 0 <= c < W ->
  exists p, Reducer.pixel_at a r c = Some p.
Proof.
  intros [Hlen Hrows] Hr Hc. unfold Reducer.pixel_at.
  assert (H2 : ((r <? 0) || (c <? 0)) = false).
  { apply orb_false_iff. split; apply Z.ltb_ge; lia. }
  rewrite H2.
  destruct (nth_error a (Z.to_nat r)) as [row|] eqn:Hrow.
  - rewrite List.Forall_forall in Hrows.
    destruct (Hrows row (nth_error_In _ _ Hrow)) as [Hw _].
    destruct (nth_error row (Z.to_nat c)) as [p|] eqn:Hp; [now exists p |].
    apply List.nth_error_None in Hp. lia.
  - apply List.nth_error_None in Hrow. lia.
Qed.

Lemma range_nth_error (n i : Z) :
  0 <= i < n -> nth_error (range n) (Z.to_nat i) = Some i.
Proof.
  intros Hi. unfold range. rewrite List.nth_error_map, List.nth_error_seq.
  assert (Hlt : (Z.to_nat i <? Z.to_nat n)%nat = true) by (apply Nat.ltb_lt; lia).
  rewrite Hlt. simpl. f_equal. lia.
Qed.

(** In the rows of a block laid end to end, the element in place
    [rr * w + cc] is the one in row [rr] and column [cc]. *)
Lemma concat_nth_error {A : Type} (rows : list (list A)) (w rr cc : nat) :
  List.Forall (fun row => List.length row = w) rows -> (cc < w)%nat ->
  nth_error (List.concat rows) (rr * w + cc) =
  match nth_error rows rr with
  | Some row => nth_error row cc
  | None => None
  end.
Proof.
  intros Hrows Hcc. revert rr. induction Hrows as [|row rows Hrow _ IH]; intros rr.
  - simpl. now destruct (rr * w + cc)%nat, rr.
  - simpl List.concat. destruct rr as [|rr]; simpl nth_error.
    + simpl. apply List.nth_error_app1. lia.
    + rewrite List.nth_error_app2 by (simpl; lia).
      match goal with |- nth_error _ ?k = _ =>
        replace k with (rr * w + cc)%nat by (simpl; lia) end.
      apply IH.
Qed.

Lemma reshape_pixel_at (cell : list (list rgb)) (rr cc : Z) :
  Reducer.has_shape cell 16 16 -> 0 <= rr -> 0 <= cc < 16 ->
  nth_error (Reducer.reshape cell) (Z.to_nat (rr * 16 + cc)) = Reducer.pixel_at cell rr cc.
Proof.
  intros [_ Hrows] Hrr Hcc. unfold Reducer.reshape, Reducer.pixel_at.
  assert (Hneg : ((rr <? 0) || (cc <? 0)) = false).
  { apply orb_false_iff. split; apply Z.ltb_ge; lia. }
  rewrite Hneg.
  replace (Z.to_nat (rr * 16 + cc)) with (Z.to_nat rr * 16 + Z.to_nat cc)%nat by lia.
  apply concat_nth_error; [| lia].
  eapply List.Forall_impl; [| exact Hrows]. intros row [Hrow _]. lia.
Qed.

(** C10.  When the resize step returns an image of [grid_size * 16] pixels
    per side, both cell sizes computed by integer division are 16 and
    [grid_size] cells of 16 fill a side with nothing left over; every cell
    holds 256 pixels; every pixel of the resized image is a pixel of one
    cell, and lies in the index ranges of no other; and the colour that
    the reducer returns in row [i] and column [j] of the grid is made of
    the channel means, divided by 255 and rounded, over exactly the 256
    pixels of rows [16 i .. 16 i + 15] and columns [16 j .. 16 j + 15] of
    the resized image. *)
Theorem resized_cells_partition (pil : PIL) (image resized : Image) (grid_size : Z) :
  0 < grid_size ->
  Image_resize_LANCZOS (Reducer.as_RGB image) (grid_size * 16) (grid_size * 16) = Some resized ->
  Reducer.has_shape (np_array resized) (grid_size * 16) (grid_size * 16) ->
  let a := np_array resized in
  Reducer.floordiv (Reducer.shape0 a) grid_size = Ok 16 /\
  Reducer.floordiv (Reducer.shape1 a) grid_size = Ok 16 /\
  grid_size * 16 = Reducer.shape0 a /\
  grid_size * 16 = Reducer.shape1 a /\
  Reducer.image_to_dominant_color (Some image) grid_size =
    Ok (Some (Reducer.color_rows a grid_size 16 16)) /\
  (forall i j, In i (range grid_size) -> In j (range grid_size) ->
     List.length (Reducer.reshape
       (Reducer.cell_of a (i * 16) ((i + 1) * 16) (j * 16) ((j + 1) * 16))) = 256%nat) /\
  (forall r c, 0 <= r < Reducer.shape0 a -> 0 <= c < Reducer.shape1 a ->
     exists i j p,
       In i (range grid_size) /\ In j (range grid_size) /\
       Reducer.pixel_at a r c = Some p /\
       Reducer.pixel_at
         (Reducer.cell_of a (i * 16) ((i + 1) * 16) (j * 16) ((j + 1) * 16))
         (r - i * 16) (c - j * 16) = Some p /\
       forall i' j', In i' (range grid_size) -> In j' (range grid_size) ->
         i' * 16 <= r < (i' + 1) * 16 -> j' * 16 <= c < (j' + 1) * 16 ->
         i' = i /\ j' = j) /\
  (forall i j, In i (range grid_size) -> In j (range grid_size) ->
     exists row pixels,
       nth_error (Reducer.color_rows a grid_size 16 16) (Z.to_nat i) = Some row /\
       nth_error row (Z.to_nat j) =
         Some [Finite (Reducer.round3
                 (inject_Z (Reducer.sum (List.map Reducer.red pixels)) / 256 / 255));
               Finite (Reducer.round3
                 (inject_Z (Reducer.sum (List.map Reducer.green pixels)) / 256 / 255));
               Finite (Reducer.round3
                 (inject_Z (Reducer.sum (List.map Reducer.blue pixels)) / 256 / 255))] /\
       List.length pixels = 256%nat /\
       forall r c, i * 16 <= r < (i + 1) * 16 -> j * 16 <= c < (j + 1) * 16 ->
         nth_error pixels (Z.to_nat ((r - i * 16) * 16 + (c - j * 16))) =
         Reducer.pixel_at a r c).
Proof.
  intros Hpos Hresize Hshape a.
  destruct (resized_cell_sizes resized grid_size Hpos Hshape) as [Hh Hw].
  assert (H0 : Reducer.shape0 a = grid_size * 16) by (destruct Hshape as [Hlen _]; exact Hlen).
  assert (H1 : Reducer.shape1 a = grid_size * 16).
  { destruct Hshape as [Hlen Hrows]. unfold Reducer.shape1. fold a in Hlen, Hrows.
    destruct a as [|row rows]; [simpl in Hlen; lia |].
    now inversion Hrows as [|? ? [Hrow _] _]. }
  repeat split; try assumption; try (symmetry; assumption).
  - exact (reducer_returns image resized grid_size Hpos Hresize Hshape).
  - intros i j Hi Hj.
    pose proof (reshape_length _ 16 16
                  (resized_cell_shape resized grid_size Hshape i j Hi Hj)) as Hlen.
    fold a in Hlen. lia.
  - intros r c Hr Hc. rewrite H0 in Hr. rewrite H1 in Hc.
    destruct (pixel_at_in_range a _ _ r c Hshape Hr Hc) as (p & Hp).
    exists (r / 16), (c / 16), p.
    pose proof (Z.div_mod r 16 ltac:(lia)) as Hr16.
    pose proof (Z.mod_pos_bound r 16 ltac:(lia)) as Hr16'.
    pose proof (Z.div_mod c 16 ltac:(lia)) as Hc16.
    pose proof (Z.mod_pos_bound c 16 ltac:(lia)) as Hc16'.
    split; [apply range_In; lia |]. split; [apply range_In; lia |].
    split; [exact Hp |]. split.
    + rewrite pixel_at_cell; [exact Hp | lia | lia | lia | lia].
    + intros i' j' _ _ Hi' Hj'. lia.
  - intros i j Hi Hj.
    pose proof (resized_cell_shape resized grid_size Hshape i j Hi Hj) as Hcell.
    pose proof (reshape_length _ 16 16 Hcell) as Hlen.
    fold a in Hcell, Hlen.
    apply range_In in Hi. apply range_In in Hj.
    set (pixels := Reducer.reshape
           (Reducer.cell_of a (i * 16) ((i + 1) * 16) (j * 16) ((j + 1) * 16))) in *.
    assert (Hlen256 : List.length pixels = 256%nat) by lia.
    assert (Hne : pixels <> []).
    { intros Hnil. rewrite Hnil in Hlen256. discriminate. }
    eexists. exists pixels. split; [| split; [| split]].
    + unfold Reducer.color_rows.
      rewrite List.nth_error_map, (range_nth_error grid_size i Hi). reflexivity.
    + rewrite List.nth_error_map, (range_nth_error grid_size j Hj). simpl option_map.
      f_equal. unfold Reducer.roblox_color, Reducer.np_mean. fold pixels. simpl fst. simpl snd.
      rewrite !mean_nonempty by (destruct pixels; [congruence | discriminate]).
      rewrite !List.length_map, Hlen256. reflexivity.
    + exact Hlen256.
    + intros r c Hr Hc. unfold pixels.
      rewrite (reshape_pixel_at _ (r - i * 16) (c - j * 16) Hcell) by lia.
      apply pixel_at_cell; lia.
Qed.

Lemma color_channels_unit_range_witness :
  exists grid,
    Reducer.image_to_dominant_color (pil := Nearest.pil) (Some Examples.two_by_two) 2 =
      Ok (Some grid) /\
    forall row cell ch, In row grid -> In cell row -> In ch cell ->
      exists k : Z, 0 <= k <= 1000 /\ ch = Finite (k # 1000).
Proof.
  apply (color_channels_unit_range Nearest.pil Examples.two_by_two
           (Examples.resized_of Examples.two_by_two 2) 2).
  - reflexivity.
  - vm_compute. reflexivity.
  - apply has_shapeb_spec. vm_compute. reflexivity.
Defined.

(** The stand-in for PIL keeps a uniform colour: every pixel of the
    resized image is a pixel of the source. *)
Lemma pick_In {A : Type} (d : A) (l : list A) (n k : Z) :
  l <> [] -> 0 <= k < n -> In (Nearest.pick d l n k) l.
Proof.
  intros Hne Hk. unfold Nearest.pick. apply List.nth_In.
  assert (Hlen : 0 < Z.of_nat (List.length l)) by (destruct l; [congruence | simpl; lia]).
  assert (Hdiv : k * Z.of_nat (List.length l) / n < Z.of_nat (List.length l)).
  { apply Z.div_lt_upper_bound; [lia |]. nia. }
  assert (Hdiv0 : 0 <= k * Z.of_nat (List.length l) / n).
  { apply Z.div_pos; nia. }
  lia.
Qed.

Lemma nearest_keeps_uniform (c : rgb) (img : Nearest.pixels) (width height : Z)
      (img' : Nearest.pixels) :
  Nearest.resize img width height = Some img' ->
  Reducer.uniform c img -> Reducer.uniform c img'.
Proof.
  unfold Nearest.resize. intros Hresize Huni.
  destruct ((width <? 1) || (height <? 1) || negb (Nearest.has_pixels img)) eqn:Hc;
    [discriminate |].
  injection Hresize as <-.
  apply orb_false_iff in Hc. destruct Hc as [_ Hpix].
  apply negb_false_iff in Hpix. unfold Nearest.has_pixels in Hpix.
  apply andb_true_iff in Hpix. destruct Hpix as [Hne Hrows].
  apply negb_true_iff, Nat.eqb_neq in Hne.
  rewrite List.forallb_forall in Hrows.
  unfold Reducer.uniform in *. rewrite List.Forall_forall in Huni.
  apply List.Forall_forall. intros row Hrow.
  apply List.in_map_iff in Hrow. destruct Hrow as (r & <- & Hr). apply range_In in Hr.
  apply List.Forall_forall. intros p Hp.
  apply List.in_map_iff in Hp. destruct Hp as (k & <- & Hk). apply range_In in Hk.
  assert (Hsrc : In (Nearest.pick [] img height r) img).
  { apply pick_In; [| exact Hr]. intros ->. now apply Hne. }
  pose proof (Huni _ Hsrc) as Hall. rewrite List.Forall_forall in Hall. apply Hall.
  apply pick_In; [| exact Hk].
  specialize (Hrows _ Hsrc). apply negb_true_iff, Nat.eqb_neq in Hrows.
  intros Hnil. rewrite Hnil in Hrows. now apply Hrows.
Qed.

Lemma uniform_image_uniform_grid_witness :
  exists grid,
    Reducer.image_to_dominant_color (pil := Nearest.pil) (Some Examples.magenta) 3 =
      Ok (Some grid) /\
    Z.of_nat (List.length grid) = 3 /\
    forall row, In row grid ->
      Z.of_nat (List.length row) = 3 /\
      forall cell, In cell row -> cell = Reducer.normalized (255, 0, 128).
Proof.
  apply (uniform_image_uniform_grid Nearest.pil Examples.magenta
           (Examples.resized_of Examples.magenta 3) 3 (255, 0, 128)).
  - reflexivity.
  - intros img width height img'. apply nearest_keeps_uniform.
  - apply uniformb_spec. vm_compute. reflexivity.
  - vm_compute. reflexivity.
  - apply has_shapeb_spec. vm_compute. reflexivity.
Defined.

Lemma resized_cells_partition_witness :
  let a := Examples.resized_of Examples.two_by_two 2 in
  Reducer.floordiv (Reducer.shape0 a) 2 = Ok 16 /\
  Reducer.floordiv (Reducer.shape1 a) 2 = Ok 16 /\
  2 * 16 = Reducer.shape0 a /\
  2 * 16 = Reducer.shape1 a /\
  Reducer.image_to_dominant_color (pil := Nearest.pil) (Some Examples.two_by_two) 2 =
    Ok (Some (Reducer.color_rows a 2 16 16)) /\
  (forall i j, In i (range 2) -> In j (range 2) ->
     List.length (Reducer.reshape
       (Reducer.cell_of a (i * 16) ((i + 1) * 16) (j * 16) ((j + 1) * 16))) = 256%nat) /\
  (forall r c, 0 <= r < Reducer.shape0 a -> 0 <= c < Reducer.shape1 a ->
     exists i j p,
       In i (range 2) /\ In j (range 2) /\
       Reducer.pixel_at a r c = Some p /\
       Reducer.pixel_at
         (Reducer.cell_of a (i * 16) ((i + 1) * 16) (j * 16) ((j + 1) * 16))
         (r - i * 16) (c - j * 16) = Some p /\
       forall i' j', In i' (range 2) -> In j' (range 2) ->
         i' * 16 <= r < (i' + 1) * 16 -> j' * 16 <= c < (j' + 1) * 16 ->
         i' = i /\ j' = j) /\
  (forall i j, In i (range 2) -> In j (range 2) ->
     exists row pixels,
       nth_error (Reducer.color_rows a 2 16 16) (Z.to_nat i) = Some row /\
       nth_error row (Z.to_nat j) =
         Some [Finite (Reducer.round3
                 (inject_Z (Reducer.sum (List.map Reducer.red pixels)) / 256 / 255));
               Finite (Reducer.round3
                 (inject_Z (Reducer.sum (List.map Reducer.green pixels)) / 256 / 255));
               Finite (Reducer.round3
                 (inject_Z (Reducer.sum (List.map Reducer.blue pixels)) / 256 / 255))] /\
       List.length pixels = 256%nat /\
       forall r c, i * 16 <= r < (i + 1) * 16 -> j * 16 <= c < (j + 1) * 16 ->
         nth_error pixels (Z.to_nat ((r - i * 16) * 16 + (c - j * 16))) =
         Reducer.pixel_at a r c).
Proof.
  apply (resized_cells_partition Nearest.pil Examples.two_by_two
           (Examples.resized_of Examples.two_by_two 2) 2).
  - reflexivity.
  - vm_compute. reflexivity.
  - apply has_shapeb_spec. vm_compute. reflexivity.
Defined.

(** ** The processor when no tile has an image *)

Lemma temp_name_fresh (output_file : string) :
  Processor.temp_name output_file <> output_file.
Proof.
  unfold Processor.temp_name. intros Heq.
  apply (f_equal String.length) in Heq. cbv [String.append] in Heq.
  simpl in Heq. lia.
Qed.

Section Absent.
Context {pil : PIL}.
Variable fetch : gmap string value -> Partitioner.Bounds -> M (option Image).
Variable self : gmap string value.
Variable output_file : string.

Hypothesis fetch_absent :
  forall b w, exists w', fetch self b w = (Ok None, w') /\ files w' = files w.

(** The loop appends one record without data per tile and touches no
    file but the checkpoint. *)
Lemma tiles_loop_absent total rest i world_data w :
  exists w',
    Processor.tiles_loop fetch self output_file total i rest world_data w =
    (Ok {| metadata := metadata world_data;
           tiles := tiles world_data ++ List.map Processor.absent_result rest |}, w') /\
    forall name, name <> Processor.temp_name output_file ->
      files w' !! name = files w !! name.
Proof.
  revert i world_data w. induction rest as [|tile rest IH]; intros i world_data w.
  - exists w. simpl. unfold ret. rewrite app_nil_r. destruct world_data. split; reflexivity.
  - simpl. unfold bind at 1, print at 1, emit_event. unfold bind at 1.
    match goal with |- context [fetch self ?b ?w0] =>
      destruct (fetch_absent b w0) as (w1 & -> & Hfiles1) end.
    simpl in Hfiles1.
    unfold bind at 1, Processor.lift at 1. simpl Reducer.image_to_dominant_color. cbv iota.
    unfold bind at 1.
    set (wd := Processor.append_tile world_data _).
    destruct ((i + 1) mod 10 =? 0).
    + unfold bind at 1, Processor.json_dump at 1. unfold print at 1, emit_event.
      unfold bind at 1, time_sleep at 1, emit_event.
      match goal with |- context [Processor.tiles_loop _ _ _ _ _ _ _ ?w0] =>
        destruct (IH (i + 1) wd w0) as (w' & -> & Hfiles) end.
      exists w'. split.
      * unfold wd, Processor.append_tile. simpl. now rewrite <- app_assoc.
      * intros name Hne. rewrite (Hfiles name Hne). simpl.
        rewrite lookup_insert_ne by congruence. now rewrite Hfiles1.
    + unfold ret at 1. unfold bind at 1, time_sleep at 1, emit_event.
      match goal with |- context [Processor.tiles_loop _ _ _ _ _ _ _ ?w0] =>
        destruct (IH (i + 1) wd w0) as (w' & -> & Hfiles) end.
      exists w'. split.
      * unfold wd, Processor.append_tile. simpl. now rewrite <- app_assoc.
      * intros name Hne. rewrite (Hfiles name Hne). simpl. now rewrite Hfiles1.
Qed.
End Absent.

Lemma get_world_tiles_returns (resolution : Q) :
  (0 < resolution)%Q -> exists tiles, Partitioner.get_world_tiles resolution = Some tiles.
Proof.
  intros Hres.
  assert (Hsize : (0 < Partitioner.tile_size resolution)%Q).
  { unfold Partitioner.tile_size. apply Qmult_lt_0_compat; [exact Hres | reflexivity]. }
  unfold Partitioner.get_world_tiles, Partitioner.get_world_tiles_fuel.
  rewrite (sweep_tiles_spec _ _ _ _ Hsize Hsize). eexists. reflexivity.
Qed.

Lemma ensure_token_ok (pil : PIL) (services : Services) (self : gmap string value) (w : world) :
  Processor.credential_available services self ->
  exists self' w',
    Processor.ensure_token services self w = (Ok self', w') /\ files w' = files w.
Proof.
  unfold Processor.ensure_token, bind, getattr.
  intros [(token & -> & Htruthy) | (token & cid & csec & r & tok & -> & Hfalsy & Hcid & Hcsec & Hr & Hs & Hj)].
  - unfold ret at 1. rewrite Htruthy. exists self, w. split; reflexivity.
  - unfold ret at 1. rewrite Hfalsy.
    unfold Processor.authenticate, bind, getattr. rewrite Hcid, Hcsec. unfold ret at 1 2.
    unfold Processor.auth_post. rewrite Hr, Hs. simpl. rewrite Hj.
    unfold print, emit_event, ret. simpl. eexists. eexists. split; reflexivity.
Qed.

(** C5.  With a fetcher that has no image for any tile, a positive
    resolution and a credential at hand, [process_world_colors] returns a
    dataset with one record per generated tile, in generation order, each
    carrying the tile's id and bounds with [colors = None] and
    [has_data = False]; afterwards the output file holds that dataset and
    there is no checkpoint file. *)
Theorem process_all_absent (pil : PIL) (services : Services)
        (fetch : gmap string value -> Partitioner.Bounds -> M (option Image))
        (self : gmap string value) (output_file : string) (resolution : Q) (w : world) :
  (0 < resolution)%Q ->
  (forall s b w0, exists w1, fetch s b w0 = (Ok None, w1) /\ files w1 = files w0) ->
  Processor.credential_available services self ->
  exists generated world_data w',
    Partitioner.get_world_tiles resolution = Some generated /\
    Processor.process_world_colors_with services fetch self output_file resolution w =
      (Ok world_data, w') /\
    tiles world_data = List.map Processor.absent_result generated /\
    files w' !! output_file = Some world_data /\
    files w' !! Processor.temp_name output_file = None.
Proof.
  intros Hres Hfetch Hcred.
  destruct (get_world_tiles_returns resolution Hres) as (generated & Hgen).
  destruct (ensure_token_ok pil services self w Hcred) as (self' & w1 & Hself & Hfiles1).
  exists generated.
  unfold Processor.process_world_colors_with. unfold bind at 1. rewrite Hself.
  rewrite Hgen. unfold bind at 1, Processor.lift at 1.
  unfold bind at 1, print at 1, emit_event. unfold bind at 1.
  match goal with |- context [Processor.tiles_loop _ _ _ _ _ _ ?wd ?w0] =>
    destruct (tiles_loop_absent fetch self' output_file (Hfetch self')
                (List.length generated) generated 0 wd w0) as (w2 & -> & Hfiles2) end.
  simpl. unfold bind, Processor.json_dump, print, emit_event, Processor.remove_if_exists, ret.
  simpl. pose proof (temp_name_fresh output_file) as Hfresh.
  destruct (_ !! Processor.temp_name output_file) eqn:Htemp.
  - eexists. eexists. split; [reflexivity |]. split; [reflexivity |]. simpl.
    split; [reflexivity |]. split.
    + rewrite lookup_delete_ne by exact Hfresh. now rewrite lookup_insert_eq.
    + now rewrite lookup_delete_eq.
  - eexists. eexists. split; [reflexivity |]. split; [reflexivity |]. simpl.
    split; [reflexivity |]. split.
    + now rewrite lookup_insert_eq.
    + exact Htemp.
Qed.

Lemma process_all_absent_witness :
  exists generated world_data w',
    Partitioner.get_world_tiles 5000 = Some generated /\
    Processor.process_world_colors_with (pil := Nearest.pil) Examples.rate_limited
      Examples.no_image Examples.converter "world_colors.json" 5000 Examples.fresh_world =
      (Ok world_data, w') /\
    tiles world_data = List.map Processor.absent_result generated /\
    files w' !! "world_colors.json" = Some world_data /\
    files w' !! Processor.temp_name "world_colors.json" = None.
Proof.
  apply (process_all_absent Nearest.pil Examples.rate_limited Examples.no_image
           Examples.converter "world_colors.json" 5000 Examples.fresh_world).
  - reflexivity.
  - intros s b w0. exists w0. split; reflexivity.
  - left. exists (VStr "token"). split; reflexivity.
Defined.

(** The same run with the method [fetch_tile_image] itself, against a
    process API that answers 429 to every request. *)
Lemma process_rate_limited (pil : PIL) (services : Services)
      (self : gmap string value) (url token : value)
      (output_file : string) (resolution : Q) (w : world) :
  (0 < resolution)%Q ->
  self !! "process_url" = Some url ->
  self !! "access_token" = Some token -> Processor.truthy token = true ->
  (forall n, exists r, process_api services n = Reply r /\ status_code r = 429) ->
  exists generated world_data w',
    Partitioner.get_world_tiles resolution = Some generated /\
    Processor.process_world_colors services self output_file resolution w =
      (Ok world_data, w') /\
    tiles world_data = List.map Processor.absent_result generated /\
    files w' !! output_file = Some world_data /\
    files w' !! Processor.temp_name output_file = None.
Proof.
  intros Hres Hurl Htoken Htruthy H429.
  destruct (get_world_tiles_returns resolution Hres) as (generated & Hgen).
  exists generated.
  unfold Processor.process_world_colors, Processor.process_world_colors_with.
  unfold bind at 1, Processor.ensure_token, bind at 1, getattr. rewrite Htoken.
  unfold ret at 1. rewrite Htruthy. unfold ret at 1.
  rewrite Hgen. unfold bind at 1, Processor.lift at 1.
  unfold bind at 1, print at 1, emit_event. unfold bind at 1.
  match goal with |- context [Processor.tiles_loop ?f _ _ _ _ _ ?wd ?w0] =>
    destruct (tiles_loop_absent f self output_file) with
      (total := List.length generated) (rest := generated) (i := 0)
      (world_data := wd) (w := w0) as (w2 & -> & Hfiles2) end.
  { intros b0 w0.
    rewrite (fetch_tile_image_rate_limited services self url token b0 Hurl Htoken H429).
    eexists. split; reflexivity. }
  simpl. unfold bind, Processor.json_dump, print, emit_event, Processor.remove_if_exists, ret.
  simpl. pose proof (temp_name_fresh output_file) as Hfresh.
  destruct (_ !! Processor.temp_name output_file) eqn:Htemp.
  - eexists. eexists. split; [reflexivity |]. split; [reflexivity |]. simpl.
    split; [reflexivity |]. split.
    + rewrite lookup_delete_ne by exact Hfresh. now rewrite lookup_insert_eq.
    + now rewrite lookup_delete_eq.
  - eexists. eexists. split; [reflexivity |]. split; [reflexivity |]. simpl.
    split; [reflexivity |]. split.
    + now rewrite lookup_insert_eq.
    + exact Htemp.
Qed.

(** * Further properties *)

(** ** One attempt of the retry loop, branch by branch *)

Section Attempt.
Context {pil : PIL}.
Variable services : Services.
Variable self : gmap string value.
Variable authorization : value.
Variable b : Partitioner.Bounds.
Variable retries : Z.

(** What the [except] clause adds to the log. *)
Lemma handler_run attempt e w :
  Fetcher.attempt_handler retries attempt e w =
  (Ok None,
   {| requests_made := requests_made w;
      log := log w ++ Print (MsgRequestFailed (attempt + 1) e)
                   :: (if attempt <? retries - 1 then [Sleep (2 ^ attempt)] else []);
      files := files w |}).
Proof.
  unfold Fetcher.attempt_handler, bind, print, time_sleep, emit_event, ret. simpl.
  destruct (attempt <? retries - 1); simpl; [now rewrite <- app_assoc | reflexivity].
Qed.

Lemma attempt_rate_limited url attempt rest r w :
  self !! "process_url" = Some url ->
  process_api services (requests_made w) = Reply r -> status_code r = 429 ->
  Fetcher.attempts_loop services self authorization b retries (attempt :: rest) w =
  Fetcher.attempts_loop services self authorization b retries rest
    {| requests_made := S (requests_made w);
       log := log w ++ Fetcher.rate_limited_attempt url authorization b attempt;
       files := files w |}.
Proof.
  intros Hurl Hr Hs. simpl.
  unfold bind at 1, try_except, Fetcher.attempt_body, bind at 1, getattr.
  rewrite Hurl. unfold ret at 1, bind at 1, Fetcher.requests_post. rewrite Hr, Hs.
  simpl. unfold bind, print, time_sleep, emit_event, ret. simpl.
  now rewrite <- !app_assoc.
Qed.

Lemma attempt_error url attempt rest r w :
  self !! "process_url" = Some url ->
  process_api services (requests_made w) = Reply r ->
  status_code r <> 200 -> status_code r <> 429 ->
  Fetcher.attempts_loop services self authorization b retries (attempt :: rest) w =
  Fetcher.attempts_loop services self authorization b retries rest
    {| requests_made := S (requests_made w);
       log := log w ++ [ProcessPost url authorization b;
                        Print (MsgErrorFetching (status_code r) (text r))];
       files := files w |}.
Proof.
  intros Hurl Hr H200 H429. simpl.
  unfold bind at 1, try_except, Fetcher.attempt_body, bind at 1, getattr.
  rewrite Hurl. unfold ret at 1, bind at 1, Fetcher.requests_post. rewrite Hr.
  rewrite (proj2 (Z.eqb_neq _ _) H200), (proj2 (Z.eqb_neq _ _) H429).
  simpl. unfold bind, print, emit_event, ret. simpl.
  now rewrite <- !app_assoc.
Qed.

Lemma attempt_success url attempt rest r image w :
  self !! "process_url" = Some url ->
  process_api services (requests_made w) = Reply r -> status_code r = 200 ->
  Image_open (content r) = Some image ->
  Fetcher.attempts_loop services self authorization b retries (attempt :: rest) w =
  (Ok (Some image),
   {| requests_made := S (requests_made w);
      log := log w ++ [ProcessPost url authorization b];
      files := files w |}).
Proof.
  intros Hurl Hr Hs Himg. simpl.
  unfold bind at 1, try_except, Fetcher.attempt_body, bind at 1, getattr.
  rewrite Hurl. unfold ret at 1, bind at 1, Fetcher.requests_post. rewrite Hr, Hs.
  simpl. unfold bind, Fetcher.open_image. rewrite Himg. reflexivity.
Qed.

Lemma attempt_undecodable url attempt rest r w :
  self !! "process_url" = Some url ->
  process_api services (requests_made w) = Reply r -> status_code r = 200 ->
  Image_open (content r) = None ->
  Fetcher.attempts_loop services self authorization b retries (attempt :: rest) w =
  Fetcher.attempts_loop services self authorization b retries rest
    {| requests_made := S (requests_made w);
       log := log w ++ ProcessPost url authorization b
                    :: Print (MsgRequestFailed (attempt + 1) UnidentifiedImageError)
                    :: (if attempt <? retries - 1 then [Sleep (2 ^ attempt)] else []);
       files := files w |}.
Proof.
  intros Hurl Hr Hs Himg. simpl.
  unfold bind at 1, try_except, Fetcher.attempt_body, bind at 1, getattr.
  rewrite Hurl. unfold ret at 1, bind at 1, Fetcher.requests_post. rewrite Hr, Hs.
  simpl. unfold bind at 1, Fetcher.open_image. rewrite Himg. unfold raise.
  rewrite handler_run. simpl. now rewrite <- !app_assoc.
Qed.

Lemma attempt_fails url attempt rest e w :
  self !! "process_url" = Some url ->
  process_api services (requests_made w) = Fails e ->
  Fetcher.attempts_loop services self authorization b retries (attempt :: rest) w =
  Fetcher.attempts_loop services self authorization b retries rest
    {| requests_made := S (requests_made w);
       log := log w ++ ProcessPost url authorization b
                    :: Print (MsgRequestFailed (attempt + 1) e)
                    :: (if attempt <? retries - 1 then [Sleep (2 ^ attempt)] else []);
       files := files w |}.
Proof.
  intros Hurl Hr. simpl.
  unfold bind at 1, try_except, Fetcher.attempt_body, bind at 1, getattr.
  rewrite Hurl. unfold ret at 1, bind at 1, Fetcher.requests_post. rewrite Hr.
  rewrite handler_run. simpl. now rewrite <- !app_assoc.
Qed.

Lemma attempt_no_url attempt rest w :
  self !! "process_url" = None ->
  Fetcher.attempts_loop services self authorization b retries (attempt :: rest) w =
  Fetcher.attempts_loop services self authorization b retries rest
    {| requests_made := requests_made w;
       log := log w ++ Print (MsgRequestFailed (attempt + 1) (AttributeError "process_url"))
                    :: (if attempt <? retries - 1 then [Sleep (2 ^ attempt)] else []);
       files := files w |}.
Proof.
  intros Hurl. simpl.
  unfold bind at 1, try_except, Fetcher.attempt_body, bind at 1, getattr.
  rewrite Hurl. unfold raise. now rewrite handler_run.
Qed.
End Attempt.

(** ** Reading logs *)

Lemma sleeps_app (l1 l2 : list event) :
  Trace.sleeps (l1 ++ l2) = Trace.sleeps l1 ++ Trace.sleeps l2.
Proof. unfold Trace.sleeps. apply List.flat_map_app. Qed.

Lemma total_app (xs ys : list Z) :
  Trace.total (xs ++ ys) = Trace.total xs + Trace.total ys.
Proof.
  unfold Trace.total. induction xs as [|x xs IH]; simpl; [reflexivity |].
  rewrite IH. lia.
Qed.

Lemma total_powers (a n : nat) :
  Trace.total (List.map (fun j => 2 ^ Z.of_nat j) (List.seq a n)) =
  2 ^ Z.of_nat (a + n) - 2 ^ Z.of_nat a.
Proof.
  revert a. induction n as [|n IH]; intros a.
  - rewrite Nat.add_0_r. simpl. lia.
  - simpl List.seq. simpl List.map. unfold Trace.total in *. simpl List.fold_right.
    rewrite IH. replace (Z.of_nat (S a)) with (Z.of_nat a + 1) by lia.
    replace (Z.of_nat (S a + n)) with (Z.of_nat (a + S n)) by lia.
    rewrite Z.pow_add_r by lia. lia.
Qed.

Lemma sleeps_rate_limited url authorization b (attempts : list Z) :
  Trace.sleeps (List.flat_map (Fetcher.rate_limited_attempt url authorization b) attempts) =
  List.map (fun attempt => 2 ^ attempt) attempts.
Proof.
  induction attempts as [|attempt rest IH]; [reflexivity |].
  change (List.flat_map (Fetcher.rate_limited_attempt url authorization b) (attempt :: rest))
    with (Fetcher.rate_limited_attempt url authorization b attempt ++
          List.flat_map (Fetcher.rate_limited_attempt url authorization b) rest).
  rewrite sleeps_app, IH. reflexivity.
Qed.

(** ** The retry loop against any process API *)

Section AnyProvider.
Context {pil : PIL}.
Variable services : Services.
Variable self : gmap string value.
Variable b : Partitioner.Bounds.
Variable retries : Z.

Lemma attempts_loop_total authorization attempts w :
  exists r w',
    Fetcher.attempts_loop services self authorization b retries attempts w = (Ok r, w') /\
    files w' = files w /\
    (requests_made w <= requests_made w' <= requests_made w + List.length attempts)%nat /\
    (exists delta, log w' = log w ++ delta) /\
    (forall image, r = Some image ->
       exists n resp, process_api services n = Reply resp /\ status_code resp = 200 /\
                      Image_open (content resp) = Some image).
Proof.
  revert w. induction attempts as [|attempt rest IH]; intros w.
  - exists None, w. simpl. unfold ret. repeat split; try lia.
    + exists []. now rewrite app_nil_r.
    + discriminate.
  - destruct (self !! "process_url") as [url|] eqn:Hurl.
    2:{ rewrite (attempt_no_url services self authorization b retries attempt rest w Hurl).
        match goal with |- context [Fetcher.attempts_loop _ _ _ _ _ _ ?w0] =>
          destruct (IH w0) as (r & w' & -> & Hf & Hreq & (delta & Hlog) & Himg) end.
        simpl in *. exists r, w'. repeat split; try lia; try assumption.
        eexists. rewrite Hlog, <- app_assoc. reflexivity. }
    destruct (process_api services (requests_made w)) as [resp | e] eqn:Hreply.
    2:{ rewrite (attempt_fails services self authorization b retries url attempt rest e w
                   Hurl Hreply).
        match goal with |- context [Fetcher.attempts_loop _ _ _ _ _ _ ?w0] =>
          destruct (IH w0) as (r & w' & -> & Hf & Hreq & (delta & Hlog) & Himg) end.
        simpl in *. exists r, w'. repeat split; try lia; try assumption.
        eexists. rewrite Hlog, <- app_assoc. reflexivity. }
    destruct (Z.eq_dec (status_code resp) 200) as [H200 | H200].
    + destruct (Image_open (content resp)) as [image|] eqn:Hopen.
      * rewrite (attempt_success services self authorization b retries url attempt rest
                   resp image w Hurl Hreply H200 Hopen).
        eexists. eexists. split; [reflexivity |]. simpl. repeat split; try lia.
        -- eexists. reflexivity.
        -- intros image' Heq. injection Heq as <-. eauto.
      * rewrite (attempt_undecodable services self authorization b retries url attempt rest
                   resp w Hurl Hreply H200 Hopen).
        match goal with |- context [Fetcher.attempts_loop _ _ _ _ _ _ ?w0] =>
          destruct (IH w0) as (r & w' & -> & Hf & Hreq & (delta & Hlog) & Himg) end.
        simpl in *. exists r, w'. repeat split; try lia; try assumption.
        eexists. rewrite Hlog, <- app_assoc. reflexivity.
    + destruct (Z.eq_dec (status_code resp) 429) as [H429 | H429].
      * rewrite (attempt_rate_limited services self authorization b retries url attempt rest
                   resp w Hurl Hreply H429).
        match goal with |- context [Fetcher.attempts_loop _ _ _ _ _ _ ?w0] =>
          destruct (IH w0) as (r & w' & -> & Hf & Hreq & (delta & Hlog) & Himg) end.
        simpl in *. exists r, w'. repeat split; try lia; try assumption.
        eexists. rewrite Hlog, <- app_assoc. reflexivity.
      * rewrite (attempt_error services self authorization b retries url attempt rest
                   resp w Hurl Hreply H200 H429).
        match goal with |- context [Fetcher.attempts_loop _ _ _ _ _ _ ?w0] =>
          destruct (IH w0) as (r & w' & -> & Hf & Hreq & (delta & Hlog) & Himg) end.
        simpl in *. exists r, w'. repeat split; try lia; try assumption.
        eexists. rewrite Hlog, <- app_assoc. reflexivity.
Qed.

Lemma fetch_tile_image_total token w :
  self !! "access_token" = Some token ->
  exists r w',
    Fetcher.fetch_tile_image services self b retries w = (Ok r, w') /\
    files w' = files w /\
    (requests_made w <= requests_made w' <= requests_made w + Z.to_nat retries)%nat /\
    (exists delta, log w' = log w ++ delta) /\
    (forall image, r = Some image ->
       exists n resp, process_api services n = Reply resp /\ status_code resp = 200 /\
                      Image_open (content resp) = Some image).
Proof.
  intros Htoken. unfold Fetcher.fetch_tile_image, bind, getattr. rewrite Htoken.
  unfold ret at 1.
  destruct (attempts_loop_total (Fetcher.bearer token) (range retries) w)
    as (r & w' & Hrun & Hf & Hreq & Hlog & Himg).
  rewrite range_length in Hreq. exists r, w'. tauto.
Qed.
End AnyProvider.

(** X1.  Whatever the process API does, [fetch_tile_image] on an object
    with an [access_token] attribute returns and does not raise; it sends
    at most [retries] requests, only adds to the log, touches no file, and
    an image it returns was opened from the content of a response with
    status 200. *)
Theorem fetch_tile_image_never_raises (pil : PIL) (services : Services)
        (self : gmap string value) (token : value) (b : Partitioner.Bounds)
        (retries : Z) (w : world) :
  self !! "access_token" = Some token ->
  exists r w',
    Fetcher.fetch_tile_image services self b retries w = (Ok r, w') /\
    files w' = files w /\
    (requests_made w <= requests_made w' <= requests_made w + Z.to_nat retries)%nat /\
    (exists delta, log w' = log w ++ delta) /\
    (forall image, r = Some image ->
       exists n resp, process_api services n = Reply resp /\ status_code resp = 200 /\
                      Image_open (content resp) = Some image).
Proof. apply fetch_tile_image_total. Qed.

Lemma fetch_tile_image_never_raises_witness :
  exists r w',
    Fetcher.fetch_tile_image (pil := Decoding.pil) (Scenarios.busy_then_ok 1)
      Examples.converter Examples.unit_square 3 Examples.fresh_world = (Ok r, w') /\
    files w' = files Examples.fresh_world /\
    (requests_made Examples.fresh_world <= requests_made w' <=
     requests_made Examples.fresh_world + Z.to_nat 3)%nat /\
    (exists delta, log w' = log Examples.fresh_world ++ delta) /\
    (forall image, r = Some image ->
       exists n resp, process_api (Scenarios.busy_then_ok 1) n = Reply resp /\
                      status_code resp = 200 /\
                      Image_open (PIL := Decoding.pil) (content resp) = Some image).
Proof.
  apply (fetch_tile_image_never_raises Decoding.pil (Scenarios.busy_then_ok 1)
           Examples.converter (VStr "token") Examples.unit_square 3 Examples.fresh_world).
  reflexivity.
Defined.

(** ** The retry loop against particular process APIs *)

Section Providers.
Context {pil : PIL}.
Variable services : Services.
Variable self : gmap string value.
Variable url : value.
Variable authorization : value.
Variable b : Partitioner.Bounds.
Variable retries : Z.

Hypothesis self_url : self !! "process_url" = Some url.

(** [k] rate-limited answers, then an image. *)
Lemma attempts_loop_succeeds (k n a : nat) (r : response) (image : Image) (w : world) :
  (k < n)%nat ->
  (forall j, (j < k)%nat ->
     exists r', process_api services (requests_made w + j) = Reply r' /\ status_code r' = 429) ->
  process_api services (requests_made w + k) = Reply r -> status_code r = 200 ->
  Image_open (content r) = Some image ->
  Fetcher.attempts_loop services self authorization b retries
    (List.map Z.of_nat (List.seq a n)) w =
  (Ok (Some image),
   {| requests_made := requests_made w + k + 1;
      log := log w ++
             List.flat_map (Fetcher.rate_limited_attempt url authorization b)
                           (List.map Z.of_nat (List.seq a k)) ++
             [ProcessPost url authorization b];
      files := files w |}).
Proof.
  revert n a w. induction k as [|k IH]; intros n a w Hkn Hbusy Hr Hs Himg.
  - destruct n as [|n]; [lia |]. simpl List.seq. simpl List.map.
    rewrite Nat.add_0_r in Hr.
    rewrite (attempt_success services self authorization b retries url _ _ r image w
               self_url Hr Hs Himg).
    simpl. do 2 f_equal. lia.
  - destruct n as [|n]; [lia |]. simpl List.seq. simpl List.map.
    destruct (Hbusy O ltac:(lia)) as (r0 & Hr0 & Hs0). rewrite Nat.add_0_r in Hr0.
    rewrite (attempt_rate_limited services self authorization b retries url _ _ r0 w
               self_url Hr0 Hs0).
    rewrite (IH n (S a)); simpl requests_made.
    + simpl. f_equal. f_equal; [lia |]. now rewrite <- !app_assoc.
    + lia.
    + intros j Hj. destruct (Hbusy (S j) ltac:(lia)) as (r' & Hr' & Hs').
      exists r'. split; [| exact Hs']. rewrite <- Hr'. f_equal. lia.
    + rewrite <- Hr. f_equal. lia.
    + exact Hs.
    + exact Himg.
Qed.

(** Every answer is an error status other than 429. *)
Lemma attempts_loop_errors (attempts : list Z) (w : world) :
  (forall n, exists r, process_api services n = Reply r /\
                       status_code r <> 200 /\ status_code r <> 429) ->
  exists w',
    Fetcher.attempts_loop services self authorization b retries attempts w = (Ok None, w') /\
    requests_made w' = (requests_made w + List.length attempts)%nat /\
    Trace.sleeps (log w') = Trace.sleeps (log w) /\
    files w' = files w.
Proof.
  intros Herr. revert w. induction attempts as [|attempt rest IH]; intros w.
  - exists w. simpl. unfold ret. repeat split. lia.
  - destruct (Herr (requests_made w)) as (r & Hr & H200 & H429).
    rewrite (attempt_error services self authorization b retries url _ _ r w
               self_url Hr H200 H429).
    match goal with |- context [Fetcher.attempts_loop _ _ _ _ _ _ ?w0] =>
      destruct (IH w0) as (w' & -> & Hreq & Hsl & Hf) end.
    exists w'. simpl in *. repeat split; [lia | | exact Hf].
    rewrite Hsl, sleeps_app. simpl. now rewrite app_nil_r.
Qed.
End Providers.

Section Handler.
Context {pil : PIL}.
Variable services : Services.
Variable self : gmap string value.
Variable authorization : value.
Variable b : Partitioner.Bounds.
Variable retries : Z.

(** Every attempt ends in the [except] clause: the request fails in
    transport, or there is no [process_url] to send it to. *)
Hypothesis every_attempt_raises :
  self !! "process_url" = None \/ forall n, exists e, process_api services n = Fails e.

Lemma attempts_loop_raising (n a : nat) (w : world) :
  n = O \/ Z.of_nat (a + n) = retries ->
  exists w',
    Fetcher.attempts_loop services self authorization b retries
      (List.map Z.of_nat (List.seq a n)) w = (Ok None, w') /\
    (requests_made w' <= requests_made w + n)%nat /\
    (self !! "process_url" = None -> requests_made w' = requests_made w) /\
    (self !! "process_url" <> None -> requests_made w' = (requests_made w + n)%nat) /\
    Trace.sleeps (log w') =
      Trace.sleeps (log w) ++ List.map (fun j => 2 ^ Z.of_nat j) (List.seq a (n - 1)) /\
    files w' = files w.
Proof.
  revert a w. induction n as [|n IH]; intros a w Hn.
  - exists w. simpl. unfold ret. rewrite app_nil_r. repeat split; try lia.
  - destruct Hn as [Hn | Hn]; [discriminate |].
    simpl List.seq. simpl List.map.
    assert (Hlast : (Z.of_nat a <? retries - 1) = negb (Nat.eqb n 0)).
    { destruct n; simpl; [apply Z.ltb_ge | apply Z.ltb_lt]; lia. }
    destruct (self !! "process_url") as [url|] eqn:Hurl.
    + destruct every_attempt_raises as [Hnone | Hfail]; [discriminate |].
      destruct (Hfail (requests_made w)) as (e & He).
      rewrite (attempt_fails services self authorization b retries url _ _ e w Hurl He).
      match goal with |- context [Fetcher.attempts_loop _ _ _ _ _ _ ?w0] =>
        destruct (IH (S a) w0) as (w' & -> & Hreq & Hno & Hyes & Hsl & Hf);
          [right; lia |] end.
      exists w'. simpl in *. repeat split; try lia; try congruence.
      * intros _. specialize (Hyes ltac:(congruence)). lia.
      * rewrite Hsl, sleeps_app, Hlast. destruct n as [|n]; simpl.
        -- now rewrite !app_nil_r.
        -- rewrite Nat.sub_0_r. now rewrite <- app_assoc.
    + rewrite (attempt_no_url services self authorization b retries _ _ w Hurl).
      match goal with |- context [Fetcher.attempts_loop _ _ _ _ _ _ ?w0] =>
        destruct (IH (S a) w0) as (w' & -> & Hreq & Hno & Hyes & Hsl & Hf);
          [right; lia |] end.
      exists w'. simpl in *. repeat split; try lia; try congruence; try tauto.
      rewrite Hsl, sleeps_app, Hlast. destruct n as [|n]; simpl.
      * now rewrite !app_nil_r.
      * rewrite Nat.sub_0_r. now rewrite <- app_assoc.
Qed.
End Handler.

Lemma range_pred_powers (retries : Z) :
  List.map (fun j => 2 ^ Z.of_nat j) (List.seq 0 (Z.to_nat retries - 1)) =
  List.map (fun attempt => 2 ^ attempt) (range (retries - 1)).
Proof.
  unfold range. rewrite List.map_map.
  now replace (Z.to_nat (retries - 1)) with (Z.to_nat retries - 1)%nat by lia.
Qed.

(** X2.  When the first [k] requests are answered with status 429 and the
    next one with status 200 and an image that opens, and [k] is below
    [retries], [fetch_tile_image] returns that image after [k + 1]
    requests, having slept [2^0 .. 2^(k-1)] seconds, and sends no further
    request. *)
Theorem fetch_succeeds_after_rate_limits (pil : PIL) (services : Services)
        (self : gmap string value) (url token : value) (b : Partitioner.Bounds)
        (retries : Z) (k : nat) (r : response) (image : Image) (w : world) :
  self !! "process_url" = Some url ->
  self !! "access_token" = Some token ->
  (k < Z.to_nat retries)%nat ->
  (forall j, (j < k)%nat ->
     exists r', process_api services (requests_made w + j) = Reply r' /\ status_code r' = 429) ->
  process_api services (requests_made w + k) = Reply r -> status_code r = 200 ->
  Image_open (content r) = Some image ->
  Fetcher.fetch_tile_image services self b retries w =
  (Ok (Some image),
   {| requests_made := requests_made w + k + 1;
      log := log w ++
             List.flat_map (Fetcher.rate_limited_attempt url (Fetcher.bearer token) b)
                           (List.map Z.of_nat (List.seq 0 k)) ++
             [ProcessPost url (Fetcher.bearer token) b];
      files := files w |}).
Proof.
  intros Hurl Htoken Hk Hbusy Hr Hs Himg.
  unfold Fetcher.fetch_tile_image, bind, getattr. rewrite Htoken. unfold ret at 1.
  unfold range.
  exact (attempts_loop_succeeds services self url (Fetcher.bearer token) b retries Hurl
           k (Z.to_nat retries) 0 r image w Hk Hbusy Hr Hs Himg).
Qed.

Lemma fetch_succeeds_after_rate_limits_witness :
  Fetcher.fetch_tile_image (pil := Decoding.pil) (Scenarios.busy_then_ok 1)
    Examples.converter Examples.unit_square 3 Examples.fresh_world =
  (Ok (Some [[(255, 0, 128)]]),
   {| requests_made := 2;
      log := [ProcessPost (VStr "https://sh.dataspace.copernicus.eu/api/v1/process")
                (VStr "Bearer token") Examples.unit_square;
              Print (MsgRateLimited 1); Sleep 1;
              ProcessPost (VStr "https://sh.dataspace.copernicus.eu/api/v1/process")
                (VStr "Bearer token") Examples.unit_square];
      files := ∅ |}).
Proof.
  apply (fetch_succeeds_after_rate_limits Decoding.pil (Scenarios.busy_then_ok 1)
           Examples.converter (VStr "https://sh.dataspace.copernicus.eu/api/v1/process")
           (VStr "token") Examples.unit_square 3 1
           (mkResponse 200 [Byte.xff; Byte.x00; Byte.x80] "" None) [[(255, 0, 128)]]
           Examples.fresh_world).
  - reflexivity.
  - reflexivity.
  - simpl. lia.
  - intros j Hj. assert (j = O) as -> by lia. eexists. split; reflexivity.
  - reflexivity.
  - reflexivity.
  - reflexivity.
Defined.

(** X3.  When every request is answered with a status other than 200 and
    429, [fetch_tile_image] sends [retries] requests, returns [None] and
    never sleeps. *)
Theorem fetch_error_status_no_sleep (pil : PIL) (services : Services)
        (self : gmap string value) (url token : value) (b : Partitioner.Bounds)
        (retries : Z) (w : world) :
  self !! "process_url" = Some url ->
  self !! "access_token" = Some token ->
  (forall n, exists r, process_api services n = Reply r /\
                       status_code r <> 200 /\ status_code r <> 429) ->
  exists w',
    Fetcher.fetch_tile_image services self b retries w = (Ok None, w') /\
    requests_made w' = (requests_made w + Z.to_nat retries)%nat /\
    Trace.sleeps (log w') = Trace.sleeps (log w) /\
    files w' = files w.
Proof.
  intros Hurl Htoken Herr.
  unfold Fetcher.fetch_tile_image, bind, getattr. rewrite Htoken. unfold ret at 1.
  destruct (attempts_loop_errors services self url (Fetcher.bearer token) b retries Hurl
              (range retries) w Herr) as (w' & Hrun & Hreq & Hsl & Hf).
  rewrite range_length in Hreq. exists w'. tauto.
Qed.

Lemma fetch_error_status_no_sleep_witness :
  exists w',
    Fetcher.fetch_tile_image (pil := Nearest.pil) Scenarios.server_error
      Examples.converter Examples.unit_square 3 Examples.fresh_world = (Ok None, w') /\
    requests_made w' = (requests_made Examples.fresh_world + Z.to_nat 3)%nat /\
    Trace.sleeps (log w') = Trace.sleeps (log Examples.fresh_world) /\
    files w' = files Examples.fresh_world.
Proof.
  apply (fetch_error_status_no_sleep Nearest.pil Scenarios.server_error Examples.converter
           (VStr "https://sh.dataspace.copernicus.eu/api/v1/process") (VStr "token")
           Examples.unit_square 3 Examples.fresh_world).
  - reflexivity.
  - reflexivity.
  - intros n. eexists. split; [reflexivity |]. simpl. lia.
Defined.

(** X4.  When every request fails in transport, [fetch_tile_image] sends
    [retries] requests and returns [None]; it sleeps [2^attempt] seconds
    after each attempt but the last, so [retries - 1] times in all. *)
Theorem fetch_transport_failures (pil : PIL) (services : Services)
        (self : gmap string value) (url token : value) (b : Partitioner.Bounds)
        (retries : Z) (w : world) :
  self !! "process_url" = Some url ->
  self !! "access_token" = Some token ->
  (forall n, exists e, process_api services n = Fails e) ->
  exists w',
    Fetcher.fetch_tile_image services self b retries w = (Ok None, w') /\
    requests_made w' = (requests_made w + Z.to_nat retries)%nat /\
    Trace.sleeps (log w') =
      Trace.sleeps (log w) ++ List.map (fun attempt => 2 ^ attempt) (range (retries - 1)) /\
    files w' = files w.
Proof.
  intros Hurl Htoken Hfail.
  unfold Fetcher.fetch_tile_image, bind, getattr. rewrite Htoken. unfold ret at 1.
  unfold range at 1.
  destruct (attempts_loop_raising services self (Fetcher.bearer token) b retries
              (or_intror Hfail) (Z.to_nat retries) 0 w) as (w' & Hrun & _ & _ & Hreq & Hsl & Hf).
  { destruct (Z.to_nat retries) eqn:Hn; [now left | right; lia]. }
  exists w'. split; [exact Hrun |]. split; [apply Hreq; congruence |].
  split; [| exact Hf]. now rewrite Hsl, range_pred_powers.
Qed.

Lemma fetch_transport_failures_witness :
  exists w',
    Fetcher.fetch_tile_image (pil := Nearest.pil) Scenarios.unreachable
      Examples.converter Examples.unit_square 3 Examples.fresh_world = (Ok None, w') /\
    requests_made w' = (requests_made Examples.fresh_world + Z.to_nat 3)%nat /\
    Trace.sleeps (log w') =
      Trace.sleeps (log Examples.fresh_world) ++
      List.map (fun attempt => 2 ^ attempt) (range (3 - 1)) /\
    files w' = files Examples.fresh_world.
Proof.
  apply (fetch_transport_failures Nearest.pil Scenarios.unreachable Examples.converter
           (VStr "https://sh.dataspace.copernicus.eu/api/v1/process") (VStr "token")
           Examples.unit_square 3 Examples.fresh_world).
  - reflexivity.
  - reflexivity.
  - intros n. eexists. reflexivity.
Defined.

(** X5.  Against a process API that answers 429 to every request,
    [fetch_tile_image] with [retries >= 0] sends [retries] requests and
    spends [2^retries - 1] seconds asleep. *)
Theorem fetch_rate_limited_total_sleep (pil : PIL) (services : Services)
        (self : gmap string value) (url token : value) (b : Partitioner.Bounds)
        (retries : Z) (w : world) :
  self !! "process_url" = Some url ->
  self !! "access_token" = Some token ->
  (forall n, exists r, process_api services n = Reply r /\ status_code r = 429) ->
  0 <= retries ->
  exists w',
    Fetcher.fetch_tile_image services self b retries w = (Ok None, w') /\
    requests_made w' = (requests_made w + Z.to_nat retries)%nat /\
    Trace.total (Trace.sleeps (log w')) =
      Trace.total (Trace.sleeps (log w)) + (2 ^ retries - 1).
Proof.
  intros Hurl Htoken H429 Hretries.
  rewrite (fetch_tile_image_rate_limited services self url token b Hurl Htoken H429).
  eexists. split; [reflexivity |]. split; [reflexivity |]. simpl.
  rewrite sleeps_app, total_app, sleeps_rate_limited. f_equal.
  unfold range. rewrite List.map_map.
  rewrite (total_powers 0 (Z.to_nat retries)). simpl Z.of_nat.
  rewrite Z2Nat.id by exact Hretries. lia.
Qed.

Lemma fetch_rate_limited_total_sleep_witness :
  exists w',
    Fetcher.fetch_tile_image (pil := Nearest.pil) Examples.rate_limited
      Examples.converter Examples.unit_square 3 Examples.fresh_world = (Ok None, w') /\
    requests_made w' = (requests_made Examples.fresh_world + Z.to_nat 3)%nat /\
    Trace.total (Trace.sleeps (log w')) =
      Trace.total (Trace.sleeps (log Examples.fresh_world)) + (2 ^ 3 - 1).
Proof.
  apply (fetch_rate_limited_total_sleep Nearest.pil Examples.rate_limited Examples.converter
           (VStr "https://sh.dataspace.copernicus.eu/api/v1/process") (VStr "token")
           Examples.unit_square 3 Examples.fresh_world).
  - reflexivity.
  - reflexivity.
  - intros n. eexists. split; reflexivity.
  - lia.
Defined.

(** X6.  An object without [access_token] makes [fetch_tile_image] raise
    [AttributeError] before anything is done.  An object with a token but
    without [process_url] makes it return [None] without sending any
    request: the [AttributeError] of every attempt is caught, and the
    backoff sleeps are taken all the same. *)
Theorem fetch_missing_attributes (pil : PIL) (services : Services)
        (self : gmap string value) (b : Partitioner.Bounds) (retries : Z) (w : world) :
  self !! "process_url" = None ->
  (self !! "access_token" = None ->
   Fetcher.fetch_tile_image services self b retries w =
   (Raise (AttributeError "access_token"), w)) /\
  (forall token, self !! "access_token" = Some token ->
   exists w',
     Fetcher.fetch_tile_image services self b retries w = (Ok None, w') /\
     requests_made w' = requests_made w /\
     Trace.sleeps (log w') =
       Trace.sleeps (log w) ++ List.map (fun attempt => 2 ^ attempt) (range (retries - 1)) /\
     files w' = files w).
Proof.
  intros Hurl. split.
  - intros Htoken. unfold Fetcher.fetch_tile_image, bind, getattr. now rewrite Htoken.
  - intros token Htoken.
    unfold Fetcher.fetch_tile_image, bind, getattr. rewrite Htoken. unfold ret at 1.
    unfold range at 1.
    destruct (attempts_loop_raising services self (Fetcher.bearer token) b retries
                (or_introl Hurl) (Z.to_nat retries) 0 w) as (w' & Hrun & _ & Hreq & _ & Hsl & Hf).
    { destruct (Z.to_nat retries) eqn:Hn; [now left | right; lia]. }
    exists w'. split; [exact Hrun |]. split; [now apply Hreq |].
    split; [| exact Hf]. now rewrite Hsl, range_pred_powers.
Qed.

Lemma fetch_missing_attributes_witness :
  (delete "process_url" Examples.converter !! "access_token" = None ->
   Fetcher.fetch_tile_image (pil := Nearest.pil) Examples.rate_limited
     (delete "process_url" Examples.converter) Examples.unit_square 3 Examples.fresh_world =
   (Raise (AttributeError "access_token"), Examples.fresh_world)) /\
  (forall token, delete "process_url" Examples.converter !! "access_token" = Some token ->
   exists w',
     Fetcher.fetch_tile_image (pil := Nearest.pil) Examples.rate_limited
       (delete "process_url" Examples.converter) Examples.unit_square 3 Examples.fresh_world =
       (Ok None, w') /\
     requests_made w' = requests_made Examples.fresh_world /\
     Trace.sleeps (log w') =
       Trace.sleeps (log Examples.fresh_world) ++
       List.map (fun attempt => 2 ^ attempt) (range (3 - 1)) /\
     files w' = files Examples.fresh_world).
Proof.
  apply (fetch_missing_attributes Nearest.pil Examples.rate_limited
           (delete "process_url" Examples.converter) Examples.unit_square 3
           Examples.fresh_world).
  reflexivity.
Defined.

(** ** The per-tile loop with any fetcher that returns *)

Section Tiles.
Context {pil : PIL}.
Variable fetch : gmap string value -> Partitioner.Bounds -> M (option Image).
Variable self : gmap string value.
Variable output_file : string.
Variable per_tile : nat.

(** One step of the loop, given what the fetcher and the reducer return. *)
Lemma tiles_loop_step tile rest total i world_data w image colors w1 :
  fetch self (Partitioner.bounds tile)
    {| requests_made := requests_made w;
       log := log w ++ [Print (MsgTile (i + 1) total (Partitioner.id tile))];
       files := files w |} = (Ok image, w1) ->
  Reducer.image_to_dominant_color image 4 = Ok colors ->
  Processor.tiles_loop fetch self output_file total i (tile :: rest) world_data w =
  Processor.tiles_loop fetch self output_file total (i + 1) rest
    (Processor.append_tile world_data (Processor.tile_data tile colors))
    (if (i + 1) mod 10 =? 0 then
       {| requests_made := requests_made w1;
          log := log w1 ++ [Print (MsgProgressSaved (i + 1) total); Sleep 1];
          files := <[Processor.temp_name output_file :=
                       Processor.append_tile world_data (Processor.tile_data tile colors)]>
                   (files w1) |}
     else
       {| requests_made := requests_made w1;
          log := log w1 ++ [Sleep 1];
          files := files w1 |}).
Proof.
  intros Hfetch Hcolors. simpl.
  unfold bind at 1, print at 1, emit_event. unfold bind at 1. rewrite Hfetch.
  unfold bind at 1, Processor.lift at 1. rewrite Hcolors.
  unfold bind at 1. fold (Processor.tile_data tile colors).
  destruct ((i + 1) mod 10 =? 0).
  - unfold bind at 1, Processor.json_dump at 1. unfold print at 1, emit_event.
    unfold bind at 1, time_sleep at 1, emit_event. simpl.
    now rewrite <- app_assoc.
  - unfold ret at 1. unfold bind at 1, time_sleep at 1, emit_event. reflexivity.
Qed.

Hypothesis fetch_returns :
  forall b w, exists image colors w1,
    fetch self b w = (Ok image, w1) /\
    files w1 = files w /\
    (requests_made w <= requests_made w1 <= requests_made w + per_tile)%nat /\
    Reducer.image_to_dominant_color image 4 = Ok colors.

Lemma tiles_loop_total rest total i world_data w :
  Z.of_nat (List.length (tiles world_data)) = i ->
  exists results w',
    Processor.tiles_loop fetch self output_file total i rest world_data w =
      (Ok {| metadata := metadata world_data; tiles := tiles world_data ++ results |}, w') /\
    List.Forall2 Processor.result_for rest results /\
    (forall name, name <> Processor.temp_name output_file ->
       files w' !! name = files w !! name) /\
    (requests_made w <= requests_made w' <=
     requests_made w + per_tile * List.length rest)%nat /\
    files w' !! Processor.temp_name output_file =
      (let m := Processor.checkpointed (i + Z.of_nat (List.length rest)) in
       if i <? m then
         Some {| metadata := metadata world_data;
                 tiles := List.firstn (Z.to_nat m) (tiles world_data ++ results) |}
       else files w !! Processor.temp_name output_file).
Proof.
  revert i world_data w. induction rest as [|tile rest IH]; intros i world_data w Hlen.
  - exists [], w. destruct world_data as [md ts].
    split; [simpl; unfold ret; now rewrite app_nil_r |].
    split; [constructor |]. split; [reflexivity |]. split; [simpl; lia |].
    cbv zeta.
    assert (Hm : (i <? Processor.checkpointed
                         (i + Z.of_nat (List.length (@nil Partitioner.Tile)))) = false).
    { apply Z.ltb_ge. unfold Processor.checkpointed. simpl List.length.
      Z.div_mod_to_equations. lia. }
    now rewrite Hm.
  - match goal with |- context [Processor.tiles_loop _ _ _ _ _ (tile :: rest) _ ?w0] =>
      destruct (fetch_returns (Partitioner.bounds tile)
                  {| requests_made := requests_made w0;
                     log := log w0 ++ [Print (MsgTile (i + 1) total (Partitioner.id tile))];
                     files := files w0 |})
        as (image & colors & w1 & Hfetch & Hf1 & Hreq1 & Hcolors) end.
    simpl in Hf1, Hreq1.
    rewrite (tiles_loop_step tile rest total i world_data w image colors w1 Hfetch Hcolors).
    set (wd1 := Processor.append_tile world_data (Processor.tile_data tile colors)).
    assert (Hlen1 : Z.of_nat (List.length (tiles wd1)) = i + 1).
    { unfold wd1, Processor.append_tile. simpl. rewrite List.length_app. simpl. lia. }
    assert (Hfor : Processor.result_for tile (Processor.tile_data tile colors)).
    { unfold Processor.result_for, Processor.tile_data. simpl.
      destruct colors; repeat split; congruence. }
    assert (Hm : Processor.checkpointed (i + 1 + Z.of_nat (List.length rest)) =
                 Processor.checkpointed (i + Z.of_nat (List.length (tile :: rest)))).
    { f_equal. simpl List.length. lia. }
    match goal with |- context [Processor.tiles_loop _ _ _ _ _ rest wd1 ?w0] =>
      destruct (IH (i + 1) wd1 w0 Hlen1) as (results & w' & -> & Hres & Hfiles & Hreq & Hck) end.
    rewrite Hm in Hck. cbv zeta in Hck |- *.
    set (m := Processor.checkpointed (i + Z.of_nat (List.length (tile :: rest)))) in *.
    assert (Hm10 : m mod 10 = 0 /\ m <= i + Z.of_nat (List.length (tile :: rest)) < m + 10).
    { unfold m, Processor.checkpointed. Z.div_mod_to_equations. lia. }
    assert (Hn : 0 < Z.of_nat (List.length (tile :: rest))) by (simpl; lia).
    exists (Processor.tile_data tile colors :: results), w'.
    assert (Happ : tiles wd1 ++ results =
                   tiles world_data ++ Processor.tile_data tile colors :: results).
    { unfold wd1, Processor.append_tile. simpl. now rewrite <- app_assoc. }
    split; [| split; [| split; [| split]]].
    + unfold wd1 at 1. simpl metadata. now rewrite Happ.
    + now constructor.
    + intros name Hne. rewrite (Hfiles name Hne).
      destruct ((i + 1) mod 10 =? 0); simpl.
      * rewrite lookup_insert_ne by congruence. now rewrite Hf1.
      * now rewrite Hf1.
    + destruct ((i + 1) mod 10 =? 0); simpl in Hreq; simpl List.length; lia.
    + rewrite Hck, Happ. destruct ((i + 1) mod 10 =? 0) eqn:Hmod.
      * apply Z.eqb_eq in Hmod.
        assert (Him : (i <? m) = true).
        { apply Z.ltb_lt. Z.div_mod_to_equations. lia. }
        rewrite Him. destruct (i + 1 <? m) eqn:Hi1; [reflexivity |].
        apply Z.ltb_ge in Hi1. assert (Heq : m = i + 1) by (apply Z.ltb_lt in Him; lia).
        simpl. rewrite lookup_insert_eq. f_equal. unfold wd1, Processor.append_tile.
        f_equal. rewrite Heq, <- Hlen.
        replace (tiles world_data ++ Processor.tile_data tile colors :: results)
          with ((tiles world_data ++ [Processor.tile_data tile colors]) ++ results)
          by now rewrite <- app_assoc.
        replace (Z.to_nat (Z.of_nat (List.length (tiles world_data)) + 1))
          with (List.length (tiles world_data ++ [Processor.tile_data tile colors]))
          by (rewrite List.length_app; simpl; lia).
        symmetry. apply take_app_length.
      * apply Z.eqb_neq in Hmod.
        assert (Hsame : (i + 1 <? m) = (i <? m)).
        { destruct (i <? m) eqn:Him.
          - apply Z.ltb_lt in Him. apply Z.ltb_lt. Z.div_mod_to_equations. lia.
          - apply Z.ltb_ge in Him. apply Z.ltb_ge. lia. }
        rewrite Hsame. destruct (i <? m); [reflexivity |]. simpl. now rewrite Hf1.
Qed.
End Tiles.

(** ** The reducer whenever the resize step returns *)

Lemma reducer_returns_grid (pil : PIL) (image resized : Image) (grid_size : Z) :
  grid_size <> 0 ->
  Image_resize_LANCZOS (Reducer.as_RGB image) (grid_size * 16) (grid_size * 16) = Some resized ->
  Reducer.image_to_dominant_color (Some image) grid_size =
  Ok (Some (Reducer.color_rows (np_array resized) grid_size
              (Reducer.shape0 (np_array resized) / grid_size)
              (Reducer.shape1 (np_array resized) / grid_size))).
Proof.
  intros Hg Hresize. unfold Reducer.image_to_dominant_color, Reducer.floordiv.
  rewrite Hresize. now rewrite (proj2 (Z.eqb_neq _ _) Hg).
Qed.

(** ** The whole run *)

Lemma ensure_token_ready (pil : PIL) (services : Services) (self : gmap string value)
      (w : world) :
  Processor.credential_available services self ->
  exists self' token' w',
    Processor.ensure_token services self w = (Ok self', w') /\
    files w' = files w /\ requests_made w' = requests_made w /\
    self' !! "access_token" = Some token' /\
    (forall name, name <> "access_token" -> self' !! name = self !! name).
Proof.
  unfold Processor.ensure_token, bind, getattr.
  intros [(token & Htoken & Htruthy) |
          (token & cid & csec & r & tok & Htoken & Hfalsy & Hcid & Hcsec & Hr & Hs & Hj)];
    rewrite Htoken; unfold ret at 1.
  - rewrite Htruthy. exists self, token, w. repeat split; assumption.
  - rewrite Hfalsy.
    unfold Processor.authenticate, bind, getattr. rewrite Hcid, Hcsec. unfold ret at 1 2.
    unfold Processor.auth_post. rewrite Hr, Hs. simpl. rewrite Hj.
    unfold print, emit_event, ret. simpl.
    eexists. exists (VStr tok). eexists. split; [reflexivity |]. simpl.
    repeat split.
    + apply lookup_insert_eq.
    + intros name Hne. now apply lookup_insert_ne.
Qed.

Section Run.
Context {pil : PIL}.
Variable services : Services.
Variable fetch : gmap string value -> Partitioner.Bounds -> M (option Image).
Variable self : gmap string value.
Variable output_file : string.
Variable resolution : Q.
Variable per_tile : nat.

Hypothesis resolution_pos : (0 < resolution)%Q.
Hypothesis credential : Processor.credential_available services self.
Hypothesis fetch_returns :
  forall s b w, s !! "access_token" <> None ->
    (forall name, name <> "access_token" -> s !! name = self !! name) ->
    exists image colors w1,
      fetch s b w = (Ok image, w1) /\
      files w1 = files w /\
      (requests_made w <= requests_made w1 <= requests_made w + per_tile)%nat /\
      Reducer.image_to_dominant_color image 4 = Ok colors.

Lemma process_with_total (w : world) :
  exists generated world_data w',
    Partitioner.get_world_tiles resolution = Some generated /\
    Processor.process_world_colors_with services fetch self output_file resolution w =
      (Ok world_data, w') /\
    List.Forall2 Processor.result_for generated (tiles world_data) /\
    files w' !! output_file = Some world_data /\
    files w' !! Processor.temp_name output_file = None /\
    (forall name, name <> output_file -> name <> Processor.temp_name output_file ->
       files w' !! name = files w !! name) /\
    (requests_made w <= requests_made w' <=
     requests_made w + per_tile * List.length generated)%nat.
Proof.
  destruct (get_world_tiles_returns resolution resolution_pos) as (generated & Hgen).
  destruct (ensure_token_ready pil services self w credential)
    as (self' & token' & w1 & Hself & Hfiles1 & Hreq1 & Htoken' & Hsame).
  exists generated.
  unfold Processor.process_world_colors_with. unfold bind at 1. rewrite Hself.
  rewrite Hgen. unfold bind at 1, Processor.lift at 1.
  unfold bind at 1, print at 1, emit_event. unfold bind at 1.
  match goal with |- context [Processor.tiles_loop _ _ _ _ _ _ ?wd ?w0] =>
    destruct (tiles_loop_total fetch self' output_file per_tile) with
      (rest := generated) (total := List.length generated) (i := 0)
      (world_data := wd) (w := w0)
      as (results & w2 & -> & Hres & Hfiles2 & Hreq2 & _) end.
  { intros b0 w0. apply fetch_returns; [congruence | exact Hsame]. }
  { reflexivity. }
  simpl in Hfiles2, Hreq2.
  simpl. unfold bind, Processor.json_dump, print, emit_event, Processor.remove_if_exists, ret.
  simpl. pose proof (temp_name_fresh output_file) as Hfresh.
  destruct (_ !! Processor.temp_name output_file) eqn:Htemp.
  - eexists. eexists. split; [reflexivity |]. split; [reflexivity |]. simpl.
    split; [exact Hres |]. split; [| split; [| split]].
    + rewrite lookup_delete_ne by exact Hfresh. now rewrite lookup_insert_eq.
    + now rewrite lookup_delete_eq.
    + intros name Hout Htmp. rewrite lookup_delete_ne by congruence.
      rewrite lookup_insert_ne by congruence. rewrite Hfiles2 by exact Htmp.
      now rewrite Hfiles1.
    + lia.
  - eexists. eexists. split; [reflexivity |]. split; [reflexivity |]. simpl.
    split; [exact Hres |]. split; [| split; [| split]].
    + now rewrite lookup_insert_eq.
    + exact Htemp.
    + intros name Hout Htmp. rewrite lookup_insert_ne by congruence.
      rewrite Hfiles2 by exact Htmp. now rewrite Hfiles1.
    + lia.
Qed.
End Run.

(** X7.  Whatever the process API does, with a positive resolution, a
    credential at hand and a PIL that can resize to 64 x 64 every image it
    opens, [process_world_colors] returns: the dataset has one record per
    generated tile, in generation order, with the tile's id and bounds and
    [has_data] true exactly when there are colours; the output file holds
    the dataset, no checkpoint file is left, no other file is touched, and
    at most three requests per tile were sent. *)
Theorem process_never_aborts (pil : PIL) (services : Services)
        (self : gmap string value) (output_file : string) (resolution : Q) (w : world) :
  (0 < resolution)%Q ->
  Processor.credential_available services self ->
  (forall bytes image, Image_open bytes = Some image ->
     exists resized, Image_resize_LANCZOS (Reducer.as_RGB image) 64 64 = Some resized) ->
  exists generated world_data w',
    Partitioner.get_world_tiles resolution = Some generated /\
    Processor.process_world_colors services self output_file resolution w =
      (Ok world_data, w') /\
    List.Forall2 Processor.result_for generated (tiles world_data) /\
    files w' !! output_file = Some world_data /\
    files w' !! Processor.temp_name output_file = None /\
    (forall name, name <> output_file -> name <> Processor.temp_name output_file ->
       files w' !! name = files w !! name) /\
    (requests_made w <= requests_made w' <=
     requests_made w + 3 * List.length generated)%nat.
Proof.
  intros Hres Hcred Hresize. unfold Processor.process_world_colors.
  apply process_with_total; [exact Hres | exact Hcred |].
  intros s b0 w0 Htoken _.
  destruct (s !! "access_token") as [token|] eqn:Hs; [| congruence].
  destruct (fetch_tile_image_total services s b0 3 token w0 Hs)
    as (r & w1 & Hrun & Hf & Hreq & _ & Himg).
  destruct r as [image|].
  - destruct (Himg image eq_refl) as (n & resp & _ & _ & Hopen).
    destruct (Hresize _ _ Hopen) as (resized & Hresized).
    exists (Some image). eexists. exists w1.
    split; [exact Hrun |]. split; [exact Hf |]. split; [exact Hreq |].
    apply (reducer_returns_grid pil image resized 4); [lia | exact Hresized].
  - exists None, None, w1. repeat split; try assumption; lia.
Qed.

Lemma process_never_aborts_witness :
  exists generated world_data w',
    Partitioner.get_world_tiles 5000 = Some generated /\
    Processor.process_world_colors (pil := Decoding.pil) (Scenarios.busy_then_ok 1)
      Examples.converter "world_colors.json" 5000 Examples.fresh_world =
      (Ok world_data, w') /\
    List.Forall2 Processor.result_for generated (tiles world_data) /\
    files w' !! "world_colors.json" = Some world_data /\
    files w' !! Processor.temp_name "world_colors.json" = None /\
    (forall name, name <> "world_colors.json" ->
       name <> Processor.temp_name "world_colors.json" ->
       files w' !! name = files Examples.fresh_world !! name) /\
    (requests_made Examples.fresh_world <= requests_made w' <=
     requests_made Examples.fresh_world + 3 * List.length generated)%nat.
Proof.
  apply (process_never_aborts Decoding.pil (Scenarios.busy_then_ok 1) Examples.converter
           "world_colors.json" 5000 Examples.fresh_world).
  - reflexivity.
  - left. exists (VStr "token"). split; reflexivity.
  - intros bytes image Hopen. simpl in Hopen. unfold Decoding.open in Hopen.
    destruct bytes as [|r [|g [|b0 rest]]]; try discriminate.
    injection Hopen as <-. eexists. reflexivity.
Defined.

(** X8.  After the per-tile loop has run over [n] tiles from an empty
    dataset, with any fetcher that returns and leaves the files alone, the
    checkpoint file holds the first [10 * (n // 10)] records of the
    dataset, fewer than 10 short of all of them, when [n >= 10]; with
    fewer than 10 tiles the checkpoint file is not written. *)
Theorem checkpoint_after_loop (pil : PIL)
        (fetch : gmap string value -> Partitioner.Bounds -> M (option Image))
        (self : gmap string value) (output_file : string) (per_tile total : nat)
        (generated : list Partitioner.Tile) (md : Metadata) (w : world) :
  (forall b w0, exists image colors w1,
     fetch self b w0 = (Ok image, w1) /\
     files w1 = files w0 /\
     (requests_made w0 <= requests_made w1 <= requests_made w0 + per_tile)%nat /\
     Reducer.image_to_dominant_color image 4 = Ok colors) ->
  exists world_data w',
    Processor.tiles_loop fetch self output_file total 0 generated
      {| metadata := md; tiles := [] |} w = (Ok world_data, w') /\
    List.length (tiles world_data) = List.length generated /\
    let n := Z.of_nat (List.length generated) in
    0 <= n - Processor.checkpointed n < 10 /\
    files w' !! Processor.temp_name output_file =
      if 10 <=? n then
        Some {| metadata := md;
                tiles := List.firstn (Z.to_nat (Processor.checkpointed n)) (tiles world_data) |}
      else files w !! Processor.temp_name output_file.
Proof.
  intros Hfetch.
  destruct (tiles_loop_total fetch self output_file per_tile Hfetch generated total 0
              {| metadata := md; tiles := [] |} w eq_refl)
    as (results & w' & Hrun & Hres & _ & _ & Hck).
  eexists. exists w'. split; [exact Hrun |]. simpl tiles. split.
  - symmetry. eapply List.Forall2_length. exact Hres.
  - cbv zeta in *.
    change (0 + Z.of_nat (List.length generated)) with (Z.of_nat (List.length generated)) in Hck.
    cbn [tiles metadata app] in Hck. split.
    + unfold Processor.checkpointed. Z.div_mod_to_equations. lia.
    + rewrite Hck.
      assert (Hsame : (0 <? Processor.checkpointed (Z.of_nat (List.length generated))) =
                      (10 <=? Z.of_nat (List.length generated))).
      { unfold Processor.checkpointed.
        destruct (10 <=? Z.of_nat (List.length generated)) eqn:Hn.
        - apply Z.leb_le in Hn. apply Z.ltb_lt. Z.div_mod_to_equations. lia.
        - apply Z.leb_gt in Hn. apply Z.ltb_ge. Z.div_mod_to_equations. lia. }
      now rewrite Hsame.
Qed.

Lemma checkpoint_after_loop_witness :
  exists world_data w',
    Processor.tiles_loop (pil := Nearest.pil) Examples.no_image Examples.converter
      "world_colors.json" 54 0 Scenarios.tiles_5000
      {| metadata := Scenarios.metadata_5000; tiles := [] |} Examples.fresh_world =
      (Ok world_data, w') /\
    List.length (tiles world_data) = List.length Scenarios.tiles_5000 /\
    let n := Z.of_nat (List.length Scenarios.tiles_5000) in
    0 <= n - Processor.checkpointed n < 10 /\
    files w' !! Processor.temp_name "world_colors.json" =
      if 10 <=? n then
        Some {| metadata := Scenarios.metadata_5000;
                tiles := List.firstn (Z.to_nat (Processor.checkpointed n)) (tiles world_data) |}
      else files Examples.fresh_world !! Processor.temp_name "world_colors.json".
Proof.
  apply (checkpoint_after_loop Nearest.pil Examples.no_image Examples.converter
           "world_colors.json" 0 54 Scenarios.tiles_5000 Scenarios.metadata_5000
           Examples.fresh_world).
  intros b w0. exists None, None, w0. repeat split; lia.
Defined.

(** X9.  When there is no usable token and the identity provider answers
    with a status other than 200, [process_world_colors] raises with the
    text of that answer right after the one authentication request: no
    tile is fetched and no file is written. *)
Theorem authentication_failure_is_fatal (pil : PIL) (services : Services)
        (fetch : gmap string value -> Partitioner.Bounds -> M (option Image))
        (self : gmap string value) (token client_id client_secret : value) (r : response)
        (output_file : string) (resolution : Q) (w : world) :
  self !! "access_token" = Some token -> Processor.truthy token = false ->
  self !! "client_id" = Some client_id ->
  self !! "client_secret" = Some client_secret ->
  identity_api services = Reply r -> status_code r <> 200 ->
  Processor.process_world_colors_with services fetch self output_file resolution w =
  (Raise (AuthenticationFailed (text r)),
   {| requests_made := requests_made w;
      log := log w ++ [AuthPost client_id client_secret];
      files := files w |}).
Proof.
  intros Htoken Hfalsy Hcid Hcsec Hr Hs.
  unfold Processor.process_world_colors_with, bind at 1, Processor.ensure_token,
    bind at 1, getattr.
  rewrite Htoken. unfold ret at 1. rewrite Hfalsy.
  unfold Processor.authenticate, bind, getattr. rewrite Hcid, Hcsec. unfold ret at 1 2.
  unfold Processor.auth_post. rewrite Hr.
  now rewrite (proj2 (Z.eqb_neq _ _) Hs).
Qed.

Lemma authentication_failure_is_fatal_witness :
  Processor.process_world_colors_with (pil := Nearest.pil) Scenarios.refused
    Examples.no_image Scenarios.anonymous "world_colors.json" 5000 Examples.fresh_world =
  (Raise (AuthenticationFailed "invalid_client"),
   {| requests_made := 0;
      log := [AuthPost (VStr "id") (VStr "secret")];
      files := ∅ |}).
Proof.
  apply (authentication_failure_is_fatal Nearest.pil Scenarios.refused Examples.no_image
           Scenarios.anonymous VNone (VStr "id") (VStr "secret")
           (mkResponse 401 [] "invalid_client" None) "world_colors.json" 5000
           Examples.fresh_world).
  - reflexivity.
  - reflexivity.
  - reflexivity.
  - reflexivity.
  - reflexivity.
  - simpl. lia.
Defined.

(** X10.  When the identity provider answers with status 200 and a
    non-empty token, [authenticate] stores the token in [access_token],
    leaves every other attribute as it was, and sends one request; on the
    object it returns, the credential step of [process_world_colors] does
    nothing more. *)
Theorem authenticate_then_ready (pil : PIL) (services : Services)
        (self : gmap string value) (client_id client_secret : value) (r : response)
        (token : string) (w : world) :
  self !! "client_id" = Some client_id ->
  self !! "client_secret" = Some client_secret ->
  identity_api services = Reply r -> status_code r = 200 ->
  json_access_token r = Some token -> token <> ""%string ->
  exists self' w',
    Processor.authenticate services self w = (Ok self', w') /\
    self' !! "access_token" = Some (VStr token) /\
    (forall name, name <> "access_token" -> self' !! name = self !! name) /\
    log w' = log w ++ [AuthPost client_id client_secret; Print MsgAuthenticated] /\
    Processor.ensure_token services self' w' = (Ok self', w').
Proof.
  intros Hcid Hcsec Hr Hs Hj Hne.
  unfold Processor.authenticate, bind, getattr. rewrite Hcid, Hcsec. unfold ret at 1 2.
  unfold Processor.auth_post. rewrite Hr, Hs. simpl. rewrite Hj.
  unfold print, emit_event, ret. simpl.
  eexists. eexists. split; [reflexivity |]. simpl. split; [apply lookup_insert_eq |].
  split; [intros name Hname; now apply lookup_insert_ne |].
  split; [now rewrite <- app_assoc |].
  unfold Processor.ensure_token, bind, getattr. rewrite lookup_insert_eq.
  unfold ret at 1, Processor.truthy.
  now rewrite (proj2 (String.eqb_neq _ _) Hne).
Qed.

Lemma authenticate_then_ready_witness :
  exists self' w',
    Processor.authenticate Scenarios.granting Scenarios.anonymous Examples.fresh_world =
      (Ok self', w') /\
    self' !! "access_token" = Some (VStr "granted") /\
    (forall name, name <> "access_token" -> self' !! name = Scenarios.anonymous !! name) /\
    log w' = log Examples.fresh_world ++
             [AuthPost (VStr "id") (VStr "secret"); Print MsgAuthenticated] /\
    Processor.ensure_token Scenarios.granting self' w' = (Ok self', w').
Proof.
  apply (authenticate_then_ready Nearest.pil Scenarios.granting Scenarios.anonymous
           (VStr "id") (VStr "secret") (mkResponse 200 [] "" (Some "granted")) "granted"
           Examples.fresh_world).
  - reflexivity.
  - reflexivity.
  - reflexivity.
  - reflexivity.
  - reflexivity.
  - discriminate.
Defined.

(** ** The tiles of a sweep with any guard *)

Section GuardedSweep.
Import Partitioner Grid.
Local Open Scope Q_scope.

Variable wb : Bounds.
Variables w h : Q.
Variable skip : Q -> bool.
Hypothesis w_pos : 0 < w.
Hypothesis h_pos : 0 < h.


Lemma swept_tiles_disjoint fuel i j ti tj px py :
  let swept := emit wb w h 0 (positions skip (cursors fuel (west wb) (east wb) w)
                                        (cursors fuel (south wb) (north wb) h)) in
  nth_error swept i = Some ti -> nth_error swept j = Some tj -> i <> j ->
  ~ (inside (bounds ti) px py /\ inside (bounds tj) px py).
Proof.
  intros swept Hi Hj Hne.
  assert (Hsorted : ForallOrdPairs (before w h)
            (positions skip (cursors fuel (west wb) (east wb) w)
                       (cursors fuel (south wb) (north wb) h))).
  { apply positions_sorted; apply cursors_sorted; assumption. }
  assert (Hlt : forall i j ti tj, nth_error swept i = Some ti -> nth_error swept j = Some tj ->
            (i < j)%nat -> ~ (inside (bounds ti) px py /\ inside (bounds tj) px py)).
  { clear i j ti tj Hi Hj Hne. intros i j ti tj Hi Hj Hij [H1 H2].
    unfold swept in Hi, Hj. rewrite emit_nth in Hi, Hj.
    destruct (nth_error _ i) as [p|] eqn:Hpi; [| discriminate].
    destruct (nth_error _ j) as [q|] eqn:Hqj; [| discriminate].
    simpl in Hi, Hj. injection Hi as <-. injection Hj as <-.
    eapply before_disjoint; [| exact H1 | exact H2].
    eapply FOP_nth; [exact Hsorted | exact Hij | exact Hpi | exact Hqj]. }
  intros [H1 H2].
  destruct (Nat.lt_total i j) as [Hij | [Hij | Hij]]; [| congruence |].
  - exact (Hlt i j ti tj Hi Hj Hij (conj H1 H2)).
  - exact (Hlt j i tj ti Hj Hi Hij (conj H2 H1)).
Qed.

Lemma swept_tiles_cover fuel px py :
  (sweep_fuel wb w h <= fuel)%nat ->
  inside wb px py ->
  (forall y, y <= py -> py < y + h -> skip y = false) ->
  exists t,
    In t (emit wb w h 0 (positions skip (cursors fuel (west wb) (east wb) w)
                                   (cursors fuel (south wb) (north wb) h))) /\
    inside (bounds t) px py.
Proof.
  intros Hfuel (Hw1 & He1 & Hs1 & Hn1) Hband.
  destruct (cursors_cover (east wb) w w_pos fuel (west wb) px) as (x & Hx & Hx1 & Hx2);
    [unfold sweep_fuel in Hfuel; lia | exact Hw1 | exact He1 |].
  destruct (cursors_cover (north wb) h h_pos fuel (south wb) py) as (y & Hy & Hy1 & Hy2);
    [unfold sweep_fuel in Hfuel; lia | exact Hs1 | exact Hn1 |].
  assert (Hyh : py < y + h).
  { pose proof (Q.le_min_l (y + h) (north wb)). lra. }
  destruct (In_emit wb w h 0 (positions skip (cursors fuel (west wb) (east wb) w)
                                        (cursors fuel (south wb) (north wb) h)) x y)
    as (k & Hk).
  { apply positions_In. split; [exact Hx |]. split; [exact Hy |]. now apply Hband. }
  exists (make_tile wb w h k x y). split; [exact Hk |].
  unfold inside. simpl. tauto.
Qed.
End GuardedSweep.

Lemma tile_size_pos (resolution : Q) :
  (0 < resolution)%Q -> (0 < Partitioner.tile_size resolution)%Q.
Proof.
  intros Hres. unfold Partitioner.tile_size.
  apply Qmult_lt_0_compat; [exact Hres | reflexivity].
Qed.



(** X12.  For a positive resolution no two tiles of [get_world_tiles]
    overlap: tiles emitted at different places share no point. *)
Theorem get_world_tiles_disjoint (resolution : Q) :
  (0 < resolution)%Q ->
  exists tiles,
    Partitioner.get_world_tiles resolution = Some tiles /\
    forall i j ti tj px py,
      nth_error tiles i = Some ti -> nth_error tiles j = Some tj -> i <> j ->
      ~ (Grid.inside (Partitioner.bounds ti) px py /\
         Grid.inside (Partitioner.bounds tj) px py).
Proof.
  intros Hres. pose proof (tile_size_pos resolution Hres) as Hsize.
  unfold Partitioner.get_world_tiles, Partitioner.get_world_tiles_fuel.
  rewrite (sweep_tiles_spec _ _ _ _ Hsize Hsize). cbv zeta.
  eexists. split; [reflexivity |]. intros i j ti tj px py Hi Hj Hne.
  exact (swept_tiles_disjoint Partitioner.world_bounds _ _ Partitioner.polar Hsize Hsize
           _ i j ti tj px py Hi Hj Hne).
Qed.

Lemma get_world_tiles_disjoint_witness :
  exists tiles,
    Partitioner.get_world_tiles 5000 = Some tiles /\
    forall i j ti tj px py,
      nth_error tiles i = Some ti -> nth_error tiles j = Some tj -> i <> j ->
      ~ (Grid.inside (Partitioner.bounds ti) px py /\
         Grid.inside (Partitioner.bounds tj) px py).
Proof. apply (get_world_tiles_disjoint 5000). reflexivity. Defined.

(** X13.  For a positive resolution every point of the world whose
    vertical coordinate lies between [-15000000 + resolution * 1000] and
    [15000000] lies in a tile of [get_world_tiles]: the polar guard leaves
    no gap in that band. *)
Theorem get_world_tiles_cover_band (resolution : Q) (px py : Q) :
  (0 < resolution)%Q ->
  (Partitioner.west Partitioner.world_bounds <= px)%Q ->
  (px < Partitioner.east Partitioner.world_bounds)%Q ->
  (- Partitioner.polar_threshold + resolution * 1000 <= py)%Q ->
  (py <= Partitioner.polar_threshold)%Q ->
  exists tiles t,
    Partitioner.get_world_tiles resolution = Some tiles /\
    In t tiles /\ Grid.inside (Partitioner.bounds t) px py.
Proof.
  intros Hres Hw He Hlo Hhi. pose proof (tile_size_pos resolution Hres) as Hsize.
  unfold Partitioner.get_world_tiles, Partitioner.get_world_tiles_fuel.
  rewrite (sweep_tiles_spec _ _ _ _ Hsize Hsize). cbv zeta.
  assert (Hthr : (Partitioner.polar_threshold == 15000000)%Q) by reflexivity.
  assert (Hsouth : (Partitioner.south Partitioner.world_bounds == -2003750834 # 100)%Q)
    by reflexivity.
  assert (Hnorth : (Partitioner.north Partitioner.world_bounds == 2003750834 # 100)%Q)
    by reflexivity.
  destruct (swept_tiles_cover Partitioner.world_bounds _ _ Partitioner.polar Hsize Hsize
              (Partitioner.sweep_fuel Partitioner.world_bounds
                 (Partitioner.tile_size resolution) (Partitioner.tile_size resolution))
              px py) as (t & Hin & Hinside).
  - lia.
  - unfold Grid.inside. unfold Partitioner.tile_size in Hsize. lra.
  - intros y Hy1 Hy2. unfold Partitioner.polar. apply Qltb_ge.
    apply Qabs_Qle_condition. unfold Partitioner.tile_size in Hy2. lra.
  - eexists. exists t. split; [reflexivity |]. split; [exact Hin | exact Hinside].
Qed.

Lemma get_world_tiles_cover_band_witness :
  exists tiles t,
    Partitioner.get_world_tiles 5000 = Some tiles /\
    In t tiles /\ Grid.inside (Partitioner.bounds t) 0 (-10000000).
Proof.
  apply (get_world_tiles_cover_band 5000 0 (-10000000)); vm_compute; congruence.
Defined.

(** ** The request payload *)

(** The text of the evalscript has the length of the source literal. *)
Example create_evalscript_length : String.length Payload.create_evalscript = 979%nat.
Proof. vm_compute. reflexivity. Qed.

(** X16.  The polygon that [create_request_payload] sends for a rectangle
    is one ring of five positions, the last equal to the first, all of
    them corners of the rectangle; it runs counter-clockwise around an
    area of [(east - west) * (north - south)] (the shoelace sum is twice
    that). *)
Theorem payload_ring_encloses_bounds (b : Partitioner.Bounds) (width height : Z) :
  exists ring,
    Payload.outer_ring (Payload.create_request_payload b width height) = Some ring /\
    List.length ring = 5%nat /\
    nth_error ring 0 = nth_error ring 4 /\
    (forall p, In p ring ->
       (fst p = Partitioner.west b \/ fst p = Partitioner.east b) /\
       (snd p = Partitioner.south b \/ snd p = Partitioner.north b)) /\
    (Payload.shoelace ring ==
     2 * ((Partitioner.east b - Partitioner.west b) *
          (Partitioner.north b - Partitioner.south b)))%Q.
Proof.
  eexists. split; [reflexivity |]. split; [reflexivity |]. split; [reflexivity |]. split.
  - intros p Hp. simpl in Hp.
    destruct Hp as [<- | [<- | [<- | [<- | [<- | []]]]]]; simpl; tauto.
  - simpl. ring.
Qed.

(** ** More on the reducer *)

(** X17.  With a [grid_size] that is zero or negative the reducer yields no
    colour: it raises [ValueError] (the resize step refuses the size) or
    [ZeroDivisionError] (the cell size cannot be computed), or, if the
    resize step accepts a negative size, it returns an empty grid. *)
Theorem reducer_grid_size_not_positive (pil : PIL) (image : Image) (grid_size : Z) :
  grid_size <= 0 ->
  Reducer.image_to_dominant_color (Some image) grid_size = Raise ValueError \/
  Reducer.image_to_dominant_color (Some image) grid_size = Raise ZeroDivisionError \/
  Reducer.image_to_dominant_color (Some image) grid_size = Ok (Some []).
Proof.
  intros Hg. unfold Reducer.image_to_dominant_color.
  destruct (Image_resize_LANCZOS _ _ _) as [resized|]; [| now left]. right.
  unfold Reducer.floordiv. destruct (grid_size =? 0) eqn:Hz; [now left |]. right.
  apply Z.eqb_neq in Hz. unfold Reducer.color_rows, range.
  now replace (Z.to_nat grid_size) with O by lia.
Qed.

Lemma reducer_grid_size_not_positive_witness :
  Reducer.image_to_dominant_color (pil := Nearest.pil) (Some Examples.magenta) 0 =
    Raise ValueError \/
  Reducer.image_to_dominant_color (pil := Nearest.pil) (Some Examples.magenta) 0 =
    Raise ZeroDivisionError \/
  Reducer.image_to_dominant_color (pil := Nearest.pil) (Some Examples.magenta) 0 =
    Ok (Some []).
Proof. apply (reducer_grid_size_not_positive Nearest.pil Examples.magenta 0). lia. Defined.

(** X18.  With a positive [grid_size], whenever the resize step returns,
    whatever the size of what it returns, the reducer returns a grid of
    [grid_size] rows of [grid_size] cells of three channel values. *)
Theorem reducer_grid_dimensions (pil : PIL) (image resized : Image) (grid_size : Z) :
  0 < grid_size ->
  Image_resize_LANCZOS (Reducer.as_RGB image) (grid_size * 16) (grid_size * 16) = Some resized ->
  exists grid,
    Reducer.image_to_dominant_color (Some image) grid_size = Ok (Some grid) /\
    Z.of_nat (List.length grid) = grid_size /\
    forall row, In row grid ->
      Z.of_nat (List.length row) = grid_size /\
      forall cell, In cell row -> List.length cell = 3%nat.
Proof.
  intros Hg Hresize.
  rewrite (reducer_returns_grid pil image resized grid_size ltac:(lia) Hresize).
  eexists. split; [reflexivity |]. unfold Reducer.color_rows. split.
  - rewrite List.length_map, range_length. lia.
  - intros row Hrow. apply List.in_map_iff in Hrow. destruct Hrow as (i & <- & _). split.
    + rewrite List.length_map, range_length. lia.
    + intros cell Hcell. apply List.in_map_iff in Hcell. destruct Hcell as (j & <- & _).
      reflexivity.
Qed.

Lemma reducer_grid_dimensions_witness :
  exists grid,
    Reducer.image_to_dominant_color (pil := Nearest.pil) (Some Examples.two_by_two) 2 =
      Ok (Some grid) /\
    Z.of_nat (List.length grid) = 2 /\
    forall row, In row grid ->
      Z.of_nat (List.length row) = 2 /\
      forall cell, In cell row -> List.length cell = 3%nat.
Proof.
  apply (reducer_grid_dimensions Nearest.pil Examples.two_by_two
           (Examples.resized_of Examples.two_by_two 2) 2).
  - reflexivity.
  - vm_compute. reflexivity.
Defined.

Lemma round_half_even_error (q : Q) :
  (Qabs (inject_Z (Reducer.round_half_even q) - q) <= 1 # 2)%Q.
Proof.
  unfold Reducer.round_half_even.
  pose proof (Qfloor_le q) as Hlo. pose proof (Qlt_floor q) as Hhi.
  rewrite inject_Z_plus in Hhi. change (inject_Z 1) with 1%Q in Hhi.
  apply Qabs_Qle_condition.
  destruct (Qcompare_spec (q - inject_Z (Qfloor q)) (1 # 2)) as [Heq | Hlt | Hgt].
  - destruct (Z.even (Qfloor q)).
    + split; lra.
    + rewrite inject_Z_plus. change (inject_Z 1) with 1%Q. split; lra.
  - split; lra.
  - rewrite inject_Z_plus. change (inject_Z 1) with 1%Q. split; lra.
Qed.

Lemma round3_error (q : Q) : (Qabs (Reducer.round3 q - q) <= 1 # 2000)%Q.
Proof.
  unfold Reducer.round3.
  pose proof (round_half_even_error (q * 1000)) as Herr.
  apply Qabs_Qle_condition in Herr. apply Qabs_Qle_condition.
  set (k := Reducer.round_half_even (q * 1000)) in *. clearbody k.
  assert (Hk : (k # 1000 == inject_Z k * (1 # 1000))%Q).
  { rewrite Qmake_Qdiv. unfold Qdiv. reflexivity. }
  rewrite Hk. split; lra.
Qed.

Lemma channel_error (f : rgb -> Z) (pixels : list rgb) :
  pixels <> [] ->
  exists v, Reducer.roblox_channel (Reducer.mean (List.map f pixels)) = Finite v /\
    (Qabs (v - Reducer.exact_channel (List.map f pixels)) <= 1 # 2000)%Q.
Proof.
  intros Hne. rewrite mean_nonempty by (destruct pixels; [congruence | discriminate]).
  eexists. split; [reflexivity |]. apply round3_error.
Qed.

(** X19.  When the resize step returns an image of [grid_size * 16] pixels
    per side, every cell of the grid belongs to one block of 16 x 16
    pixels, and each of its three channel values is within 0.0005 of the
    mean of that channel over the block divided by 255. *)
Theorem color_channels_accuracy (pil : PIL) (image resized : Image) (grid_size : Z) :
  0 < grid_size ->
  Image_resize_LANCZOS (Reducer.as_RGB image) (grid_size * 16) (grid_size * 16) = Some resized ->
  Reducer.has_shape (np_array resized) (grid_size * 16) (grid_size * 16) ->
  exists grid,
    Reducer.image_to_dominant_color (Some image) grid_size = Ok (Some grid) /\
    forall row cell, In row grid -> In cell row ->
      exists i j vr vg vb,
        In i (range grid_size) /\ In j (range grid_size) /\
        cell = [Finite vr; Finite vg; Finite vb] /\
        let pixels := Reducer.reshape
              (Reducer.cell_of (np_array resized) (i * 16) ((i + 1) * 16)
                               (j * 16) ((j + 1) * 16)) in
        List.length pixels = 256%nat /\
        (Qabs (vr - Reducer.exact_channel (List.map Reducer.red pixels)) <= 1 # 2000)%Q /\
        (Qabs (vg - Reducer.exact_channel (List.map Reducer.green pixels)) <= 1 # 2000)%Q /\
        (Qabs (vb - Reducer.exact_channel (List.map Reducer.blue pixels)) <= 1 # 2000)%Q.
Proof.
  intros Hpos Hresize Hshape. eexists. split.
  - exact (reducer_returns image resized grid_size Hpos Hresize Hshape).
  - intros row cell Hrow Hcell.
    destruct (color_rows_In resized grid_size row cell Hrow Hcell) as (i & j & Hi & Hj & ->).
    pose proof (reshape_length _ 16 16 (resized_cell_shape resized grid_size Hshape i j Hi Hj))
      as Hlen.
    set (pixels := Reducer.reshape _) in *.
    assert (Hne : pixels <> []).
    { intros Hnil. rewrite Hnil in Hlen. simpl in Hlen. lia. }
    destruct (channel_error Reducer.red pixels Hne) as (vr & Hvr & Her).
    destruct (channel_error Reducer.green pixels Hne) as (vg & Hvg & Heg).
    destruct (channel_error Reducer.blue pixels Hne) as (vb & Hvb & Heb).
    exists i, j, vr, vg, vb. split; [exact Hi |]. split; [exact Hj |]. split.
    + unfold Reducer.roblox_color, Reducer.np_mean. fold pixels. simpl.
      now rewrite Hvr, Hvg, Hvb.
    + cbv zeta. fold pixels. split; [lia |]. tauto.
Qed.

Lemma color_channels_accuracy_witness :
  exists grid,
    Reducer.image_to_dominant_color (pil := Nearest.pil) (Some Examples.two_by_two) 2 =
      Ok (Some grid) /\
    forall row cell, In row grid -> In cell row ->
      exists i j vr vg vb,
        In i (range 2) /\ In j (range 2) /\
        cell = [Finite vr; Finite vg; Finite vb] /\
        let pixels := Reducer.reshape
              (Reducer.cell_of (Examples.resized_of Examples.two_by_two 2)
                               (i * 16) ((i + 1) * 16) (j * 16) ((j + 1) * 16)) in
        List.length pixels = 256%nat /\
        (Qabs (vr - Reducer.exact_channel (List.map Reducer.red pixels)) <= 1 # 2000)%Q /\
        (Qabs (vg - Reducer.exact_channel (List.map Reducer.green pixels)) <= 1 # 2000)%Q /\
        (Qabs (vb - Reducer.exact_channel (List.map Reducer.blue pixels)) <= 1 # 2000)%Q.
Proof.
  apply (color_channels_accuracy Nearest.pil Examples.two_by_two
           (Examples.resized_of Examples.two_by_two 2) 2).
  - reflexivity.
  - vm_compute. reflexivity.
  - apply has_shapeb_spec. vm_compute. reflexivity.
Defined.
